(** * R-Car VSP1 display lists (vsp1_dl.c): model and properties

    The display list manager of the VSP1 driver keeps a pool of display
    lists, hands them to callers, and moves committed lists through the
    three slots [pending], [queued] and [active] as the hardware takes
    them.  All containers of the driver are intrusive, circular,
    doubly-linked kernel lists ([struct list_head]); the model keeps them
    at that level: every [struct list_head] of the driver is a cell of a
    link memory, addressed by the object and member it is embedded in. *)

From stdpp Require Import gmap list.

(** ** Outcomes of a C computation *)

(** What a C function can do besides returning: dereference a null or
    poisoned or dangling pointer, write past the end of an array, or keep
    looping (the model then runs out of fuel). *)
Inductive fault := NullDeref | BadPointer | Overrun.

Inductive result (A : Type) : Type :=
  | Done (a : A)
  | Fault (f : fault)
  | OutOfFuel.
Arguments Done {A} a.
Arguments Fault {A} f.
Arguments OutOfFuel {A}.

Global Instance result_ret : MRet result := λ A a, Done a.
Global Instance result_bind : MBind result := λ A B f m,
  match m with
  | Done a => f a
  | Fault e => Fault e
  | OutOfFuel => OutOfFuel
  end.

Definition of_option {A} (e : fault) (o : option A) : result A :=
  match o with Some a => Done a | None => Fault e end.

(** ** Kernel lists *)

(** Modelled from the spec: the list primitives of the kernel
    (include/linux/list.h) are not among the source files.  Section 9 of
    the spec describes the free pool, the fragment list and the chain as
    "embedded link nodes" with "cyclic back-references"; the definitions
    below are the kernel's circular doubly-linked list, without its
    optional debugging checks, on a memory of [list_head] cells. *)
Module klist.

Inductive ptr (K : Type) : Type :=
  | NULL
  | LIST_POISON1
  | LIST_POISON2
  | Ptr (a : K).
Arguments NULL {K}.
Arguments LIST_POISON1 {K}.
Arguments LIST_POISON2 {K}.
Arguments Ptr {K} a.

Record list_head (K : Type) : Type := ListHead { next : ptr K; prev : ptr K }.
Arguments ListHead {K} next prev.
Arguments next {K} l.
Arguments prev {K} l.

Global Instance ptr_eq_dec `{EqDecision K} : EqDecision (ptr K).
Proof. solve_decision. Defined.

Section ops.
Context `{Countable K}.
Abbreviation mem := (gmap K (list_head K)).

Definition deref (p : ptr K) : result K :=
  match p with
  | Ptr a => Done a
  | NULL => Fault NullDeref
  | _ => Fault BadPointer
  end.

Definition load (a : K) (m : mem) : result (list_head K) :=
  of_option BadPointer (m !! a).

Definition rd_next (a : K) (m : mem) : result (ptr K) :=
  c ← load a m; Done (next c).
Definition rd_prev (a : K) (m : mem) : result (ptr K) :=
  c ← load a m; Done (prev c).
Definition wr_next (a : K) (v : ptr K) (m : mem) : result mem :=
  c ← load a m; Done (<[a := ListHead v (prev c)]> m).
Definition wr_prev (a : K) (v : ptr K) (m : mem) : result mem :=
  c ← load a m; Done (<[a := ListHead (next c) v]> m).

(** list->next = list; list->prev = list; *)
Definition INIT_LIST_HEAD (list : K) (m : mem) : result mem :=
  m ← wr_next list (Ptr list) m;
  wr_prev list (Ptr list) m.

(** next->prev = new; new->next = next; new->prev = prev;
    prev->next = new; *)
Definition __list_add (new prev next : K) (m : mem) : result mem :=
  m ← wr_prev next (Ptr new) m;
  m ← wr_next new (Ptr next) m;
  m ← wr_prev new (Ptr prev) m;
  wr_next prev (Ptr new) m.

(** __list_add(new, head->prev, head); *)
Definition list_add_tail (new head : K) (m : mem) : result mem :=
  p ← rd_prev head m;
  p ← deref p;
  __list_add new p head m.

(** next->prev = prev; prev->next = next; *)
Definition __list_del (prev next : K) (m : mem) : result mem :=
  m ← wr_prev next (Ptr prev) m;
  wr_next prev (Ptr next) m.

(** __list_del(entry->prev, entry->next);
    entry->next = LIST_POISON1; entry->prev = LIST_POISON2; *)
Definition list_del (entry : K) (m : mem) : result mem :=
  p ← rd_prev entry m;
  n ← rd_next entry m;
  p ← deref p;
  n ← deref n;
  m ← __list_del p n m;
  m ← wr_next entry LIST_POISON1 m;
  wr_prev entry LIST_POISON2 m.

(** head->next == head *)
Definition list_empty (head : K) (m : mem) : result bool :=
  n ← rd_next head m; Done (bool_decide (n = Ptr head)).

(** list->next == head *)
Definition list_is_last (list head : K) (m : mem) : result bool :=
  n ← rd_next list m; Done (bool_decide (n = Ptr head)).

(** first = list->next; last = list->prev;
    first->prev = prev; prev->next = first;
    last->next = next; next->prev = last; *)
Definition __list_splice (list prev next : K) (m : mem) : result mem :=
  first ← rd_next list m;
  last ← rd_prev list m;
  first ← deref first;
  m ← wr_prev first (Ptr prev) m;
  m ← wr_next prev (Ptr first) m;
  last ← deref last;
  m ← wr_next last (Ptr next) m;
  wr_prev next (Ptr last) m.

(** if (!list_empty(list)) {
      __list_splice(list, head, head->next); INIT_LIST_HEAD(list); } *)
Definition list_splice_init (list head : K) (m : mem) : result mem :=
  e ← list_empty list m;
  if (e : bool) then Done m
  else
    n ← rd_next head m;
    n ← deref n;
    m ← __list_splice list head n m;
    INIT_LIST_HEAD list m.

(** [list_for_each_entry(pos, head, member) body]: the cursor starts
    at the node after [head] and the loop ends when it is back at
    [head].  The loop runs over the address [a] of the member; the
    body receives it and takes the enclosing entry itself.  [S] is
    the state the body works on (with the body's local variables,
    if any) and [links] the link memory in it. *)
Section for_each.
Context {S : Type} (links : S → mem) (head : K)
        (body : K → S → result S).

Fixpoint list_for_each_from (fuel : nat) (a : K) (s : S) : result S :=
  match fuel with
  | O => OutOfFuel
  | Datatypes.S fuel =>
      if decide (a = head) then Done s
      else
        s ← body a s;
        n ← rd_next a (links s);
        a ← deref n;
        list_for_each_from fuel a s
  end.

Definition list_for_each_entry (fuel : nat) (s : S) : result S :=
  n ← rd_next head (links s);
  a ← deref n;
  list_for_each_from fuel a s.
End for_each.
End ops.
End klist.
Import klist.


(** ** Data model *)

Definition u32 (x : Z) : Z := x `mod` 2 ^ 32.

(** #define VSP1_DL_NUM_ENTRIES 256, VSP1_DLH_INT_ENABLE (1 << 1),
    VSP1_DLH_AUTO_START (1 << 0) *)
Definition VSP1_DL_NUM_ENTRIES : Z := 256.
Definition VSP1_DLH_INT_ENABLE : Z := Z.shiftl 1 1.
Definition VSP1_DLH_AUTO_START : Z := Z.shiftl 1 0.

(** struct vsp1_dl_header_list (packed, 8 bytes) *)
Record vsp1_dl_header_list := HeaderList { num_bytes : Z; addr : Z }.

(** sizeof(struct vsp1_dl_header_list) and sizeof(struct vsp1_dl_entry):
    two u32 each. *)
Definition sizeof_header_list : Z := 8.
Definition sizeof_entry : Z := 8.

(** struct vsp1_dl_header (packed): [lists] has 8 slots. *)
Record vsp1_dl_header := Header {
  num_lists : Z;
  lists : list vsp1_dl_header_list;
  next_header : Z;
  flags : Z
}.
Definition HEADER_LISTS : nat := 8.
(** sizeof(struct vsp1_dl_header) = 4 + 8 * 8 + 4 + 4 *)
Definition sizeof_header : Z := 4 + 8 * sizeof_header_list + 4 + 4.

(** struct vsp1_dl_entry *)
Record vsp1_dl_entry := Entry { entry_addr : Z; entry_data : Z }.

(** struct vsp1_dl_body, without its [list] member, which is a cell of
    the link memory.  [dlb_entries] is the DMA memory of the body, as far
    as it has been written. *)
Record vsp1_dl_body := Body {
  dlb_entries : gmap Z vsp1_dl_entry;
  dlb_dma : Z;
  dlb_size : Z;
  dlb_num_entries : Z
}.

(** struct vsp1_dl_list, without its members [list], [fragments] and
    [chain], which are cells of the link memory.  [header] is [None] for
    a headerless list (a null pointer in C); [dma] is the device address
    of the header. *)
Record vsp1_dl_list := DisplayList {
  header : option vsp1_dl_header;
  dma : Z;
  body0 : vsp1_dl_body;
  has_chain : bool;
  internal : bool
}.

Inductive vsp1_dl_mode := VSP1_DL_MODE_HEADER | VSP1_DL_MODE_HEADERLESS.

Global Instance vsp1_dl_mode_eq_dec : EqDecision vsp1_dl_mode.
Proof. solve_decision. Defined.

(** The address of a [struct list_head]: the two heads of the manager
    ([&dlm->free], [&dlm->gc_fragments]), the three members of display
    list [d] ([&dl->list], [&dl->fragments], [&dl->chain]) and the member
    of fragment body [b] ([&dlb->list]). *)
Inductive lh_addr :=
  | DLM_FREE
  | DLM_GC_FRAGMENTS
  | DL_LIST (d : nat)
  | DL_FRAGMENTS (d : nat)
  | DL_CHAIN (d : nat)
  | DLB_LIST (b : nat).

Global Instance lh_addr_eq_dec : EqDecision lh_addr.
Proof. solve_decision. Defined.

Definition lh_addr_code (a : lh_addr) : nat * nat :=
  match a with
  | DLM_FREE => (0, 0)
  | DLM_GC_FRAGMENTS => (1, 0)
  | DL_LIST d => (2, d)
  | DL_FRAGMENTS d => (3, d)
  | DL_CHAIN d => (4, d)
  | DLB_LIST b => (5, b)
  end.

Definition lh_addr_decode (c : nat * nat) : lh_addr :=
  match c with
  | (0, _) => DLM_FREE
  | (1, _) => DLM_GC_FRAGMENTS
  | (2, d) => DL_LIST d
  | (3, d) => DL_FRAGMENTS d
  | (4, d) => DL_CHAIN d
  | (_, b) => DLB_LIST b
  end.

Global Instance lh_addr_countable : Countable lh_addr.
Proof. by apply (inj_countable' lh_addr_code lh_addr_decode); intros []. Defined.

Global Instance DL_LIST_inj : Inj eq eq DL_LIST.
Proof. by intros ?? [=]. Qed.
Global Instance DL_FRAGMENTS_inj : Inj eq eq DL_FRAGMENTS.
Proof. by intros ?? [=]. Qed.
Global Instance DL_CHAIN_inj : Inj eq eq DL_CHAIN.
Proof. by intros ?? [=]. Qed.
Global Instance DLB_LIST_inj : Inj eq eq DLB_LIST.
Proof. by intros ?? [=]. Qed.

(** container_of(a, struct vsp1_dl_list, list) *)
Definition list_entry_dl (a : lh_addr) : result nat :=
  match a with DL_LIST d => Done d | _ => Fault BadPointer end.
(** container_of(a, struct vsp1_dl_list, chain) *)
Definition chain_entry_dl (a : lh_addr) : result nat :=
  match a with DL_CHAIN d => Done d | _ => Fault BadPointer end.
(** container_of(a, struct vsp1_dl_body, list) *)
Definition list_entry_dlb (a : lh_addr) : result nat :=
  match a with DLB_LIST b => Done b | _ => Fault BadPointer end.

(** struct vsp1_dl_manager together with the objects it manages and the
    registers of its device.  The model has one manager, so [dl->dlm] of
    every display list is this manager.
    - [links]: every [struct list_head] of the manager, of its display
      lists and of the fragment bodies;
    - [dls], [dlbs]: the display lists and the fragment bodies that are
      allocated, by handle;
    - [mmio]: the registers of the device, as [vsp1_read] sees them;
    - [gc_work]: whether the garbage collector work is scheduled;
    - [warnings]: how many times a WARN_ON fired. *)
Record vsp1_dl_manager := Manager {
  index : Z;
  mode : vsp1_dl_mode;
  singleshot : bool;
  active : option nat;
  queued : option nat;
  pending : option nat;
  links : gmap lh_addr (list_head lh_addr);
  dls : gmap nat vsp1_dl_list;
  dlbs : gmap nat vsp1_dl_body;
  mmio : gmap Z Z;
  gc_work : bool;
  warnings : nat
}.

Definition set_active (v : option nat) (s : vsp1_dl_manager) :=
  Manager (index s) (mode s) (singleshot s) v (queued s) (pending s)
          (links s) (dls s) (dlbs s) (mmio s) (gc_work s) (warnings s).
Definition set_queued (v : option nat) (s : vsp1_dl_manager) :=
  Manager (index s) (mode s) (singleshot s) (active s) v (pending s)
          (links s) (dls s) (dlbs s) (mmio s) (gc_work s) (warnings s).
Definition set_pending (v : option nat) (s : vsp1_dl_manager) :=
  Manager (index s) (mode s) (singleshot s) (active s) (queued s) v
          (links s) (dls s) (dlbs s) (mmio s) (gc_work s) (warnings s).
Definition set_links (v : gmap lh_addr (list_head lh_addr))
    (s : vsp1_dl_manager) :=
  Manager (index s) (mode s) (singleshot s) (active s) (queued s) (pending s)
          v (dls s) (dlbs s) (mmio s) (gc_work s) (warnings s).
Definition set_dls (v : gmap nat vsp1_dl_list) (s : vsp1_dl_manager) :=
  Manager (index s) (mode s) (singleshot s) (active s) (queued s) (pending s)
          (links s) v (dlbs s) (mmio s) (gc_work s) (warnings s).
Definition set_dlbs (v : gmap nat vsp1_dl_body) (s : vsp1_dl_manager) :=
  Manager (index s) (mode s) (singleshot s) (active s) (queued s) (pending s)
          (links s) (dls s) v (mmio s) (gc_work s) (warnings s).
Definition set_mmio (v : gmap Z Z) (s : vsp1_dl_manager) :=
  Manager (index s) (mode s) (singleshot s) (active s) (queued s) (pending s)
          (links s) (dls s) (dlbs s) v (gc_work s) (warnings s).
Definition set_gc_work (v : bool) (s : vsp1_dl_manager) :=
  Manager (index s) (mode s) (singleshot s) (active s) (queued s) (pending s)
          (links s) (dls s) (dlbs s) (mmio s) v (warnings s).
Definition set_warnings (v : nat) (s : vsp1_dl_manager) :=
  Manager (index s) (mode s) (singleshot s) (active s) (queued s) (pending s)
          (links s) (dls s) (dlbs s) (mmio s) (gc_work s) v.

(** Dereferencing a display list or a body handle. *)
Definition get_dl (d : nat) (s : vsp1_dl_manager) : result vsp1_dl_list :=
  of_option BadPointer (dls s !! d).
Definition get_dlb (b : nat) (s : vsp1_dl_manager) : result vsp1_dl_body :=
  of_option BadPointer (dlbs s !! b).

(** An assignment to members of [*d]. *)
Definition modify_dl (d : nat) (f : vsp1_dl_list → vsp1_dl_list)
    (s : vsp1_dl_manager) : result vsp1_dl_manager :=
  l ← get_dl d s; Done (set_dls (<[d := f l]> (dls s)) s).
Definition modify_dlb (b : nat) (f : vsp1_dl_body → vsp1_dl_body)
    (s : vsp1_dl_manager) : result vsp1_dl_manager :=
  l ← get_dlb b s; Done (set_dlbs (<[b := f l]> (dlbs s)) s).

(** A list operation on the link memory of the manager. *)
Definition on_links
    (f : gmap lh_addr (list_head lh_addr) →
         result (gmap lh_addr (list_head lh_addr)))
    (s : vsp1_dl_manager) : result vsp1_dl_manager :=
  m ← f (links s); Done (set_links m s).

Definition set_has_chain (v : bool) (l : vsp1_dl_list) : vsp1_dl_list :=
  DisplayList (header l) (dma l) (body0 l) v (internal l).
Definition set_internal (v : bool) (l : vsp1_dl_list) : vsp1_dl_list :=
  DisplayList (header l) (dma l) (body0 l) (has_chain l) v.
Definition set_header (v : option vsp1_dl_header) (l : vsp1_dl_list) :=
  DisplayList v (dma l) (body0 l) (has_chain l) (internal l).
Definition set_body0 (v : vsp1_dl_body) (l : vsp1_dl_list) : vsp1_dl_list :=
  DisplayList (header l) (dma l) v (has_chain l) (internal l).
Definition set_num_entries (v : Z) (b : vsp1_dl_body) : vsp1_dl_body :=
  Body (dlb_entries b) (dlb_dma b) (dlb_size b) v.

(** The registers the display lists are programmed through are declared
    in vsp1_regs.h, which is not among the source files: their addresses
    and bits are parameters of the model. *)
Class vsp1_regs := Vsp1Regs {
  VI6_CMD : Z → Z;
  VI6_CMD_UPDHDR : Z;
  VI6_DL_HDR_ADDR : Z → Z;
  VI6_DL_BODY_SIZE : Z;
  VI6_DL_BODY_SIZE_UPD : Z
}.

(** vsp1_read() and vsp1_write(): 32-bit reads and writes of a register
    of the device. *)
Definition vsp1_read (s : vsp1_dl_manager) (reg : Z) : Z :=
  default 0%Z (mmio s !! reg).
Definition vsp1_write (reg data : Z) (s : vsp1_dl_manager) : vsp1_dl_manager :=
  set_mmio (<[reg := u32 data]> (mmio s)) s.

(** The register and the bits that vsp1_dlm_setup() writes are declared
    in vsp1_regs.h as well, and are parameters of the model too. *)
Class vsp1_setup_regs := Vsp1SetupRegs {
  VI6_DL_CTRL : Z;
  VI6_DL_CTRL_AR_WAIT_SHIFT : Z;
  VI6_DL_CTRL_DC2 : Z;
  VI6_DL_CTRL_DC1 : Z;
  VI6_DL_CTRL_DC0 : Z;
  VI6_DL_CTRL_CFM0 : Z;
  VI6_DL_CTRL_NH0 : Z;
  VI6_DL_CTRL_DLE : Z;
  VI6_DL_SWAP : Z;
  VI6_DL_SWAP_LWS : Z
}.

(** Modelled from the spec: the two result flags of the frame end handler
    are declared in vsp1_dl.h, which is not among the source files.  The
    spec gives the result as a pair "completed" and "internal"; the flags
    are two distinct bits. *)
Definition VSP1_DL_FRAME_END_COMPLETED : Z := Z.shiftl 1 0.
Definition VSP1_DL_FRAME_END_INTERNAL : Z := Z.shiftl 1 1.

(** Modelled from the spec: the error code of the "InvalidMode" failure,
    EINVAL of the kernel's errno-base.h, which is not among the source
    files. *)
Definition EINVAL : Z := 22.

(** ** Display list bodies *)

(** The platform allocators are outside the driver: an allocation is
    given to the model as [Some dma], the device address of the memory
    obtained, or [None] when it fails. *)

(** vsp1_dl_body_init(): [Some] body for return value 0, [None] for
    -ENOMEM.  The body was zeroed by its allocation.  The source
    computes the size in [size_t] from an [unsigned int]: the model is
    of the sizes that [size_t] holds on every target, below 2^32, and
    the theorems on fragments state that bound on [num_entries]. *)
Definition vsp1_dl_body_init (num_entries extra_size : Z) (mem : option Z)
    : option vsp1_dl_body :=
  let size := (num_entries * sizeof_entry + extra_size)%Z in
  match mem with
  | None => None
  | Some a => Some (Body ∅ a size 0)
  end.

(** vsp1_dl_fragment_alloc() *)
Definition vsp1_dl_fragment_alloc (num_entries : Z) (mem : option Z)
    (s : vsp1_dl_manager) : option nat * vsp1_dl_manager :=
  match vsp1_dl_body_init num_entries 0 mem with
  | None => (None, s)
  | Some dlb =>
      let b := fresh (dom (dlbs s)) in
      (Some b,
       set_links (<[DLB_LIST b := ListHead NULL NULL]> (links s))
         (set_dlbs (<[b := dlb]> (dlbs s)) s))
  end.

(** The write of vsp1_dl_fragment_write() on the body itself:
    entries[num_entries] = (reg, data); num_entries++.  The function
    does not check the capacity of the body: a write past it lands in
    the memory after the entries, which for the primary body of a
    display list in header mode is the header of that list.  The model
    is of the writes within the capacity, and the theorems on writes
    state that bound. *)
Definition body_write (reg data : Z) (dlb : vsp1_dl_body) : vsp1_dl_body :=
  Body (<[dlb_num_entries dlb := Entry (u32 reg) (u32 data)]> (dlb_entries dlb))
       (dlb_dma dlb) (dlb_size dlb) (u32 (dlb_num_entries dlb + 1)).

(** vsp1_dl_fragment_write() *)
Definition vsp1_dl_fragment_write (b : nat) (reg data : Z)
    (s : vsp1_dl_manager) : result vsp1_dl_manager :=
  modify_dlb b (body_write reg data) s.

(** ** Display list transactions *)

(** ALIGN(x, a) of the kernel, for a power of two [a]. *)
Definition ALIGN (x a : Z) : Z := Z.land (x + (a - 1)) (Z.lnot (a - 1)).

Definition empty_header : vsp1_dl_header :=
  Header 0 (replicate HEADER_LISTS (HeaderList 0 0)) 0 0.

Definition set_list0_addr (v : Z) (h : vsp1_dl_header) : vsp1_dl_header :=
  Header (num_lists h) (alter (λ e, HeaderList (num_bytes e) v) 0%nat (lists h))
         (next_header h) (flags h).

(** vsp1_dl_list_alloc(): a zeroed display list with its fragment list
    initialised, its body allocated and, in header mode, its header
    placed after the entries of the body. *)
Definition vsp1_dl_list_alloc (mem : option Z) (s : vsp1_dl_manager)
    : option nat * vsp1_dl_manager :=
  let header_size :=
    if decide (mode s = VSP1_DL_MODE_HEADER) then ALIGN sizeof_header 8
    else 0%Z in
  match vsp1_dl_body_init VSP1_DL_NUM_ENTRIES header_size mem with
  | None => (None, s)
  | Some body =>
      let d := fresh (dom (dls s)) in
      let header_offset := (VSP1_DL_NUM_ENTRIES * sizeof_entry)%Z in
      let dl :=
        if decide (mode s = VSP1_DL_MODE_HEADER) then
          DisplayList (Some (set_list0_addr (u32 (dlb_dma body)) empty_header))
                      (dlb_dma body + header_offset) body false false
        else DisplayList None 0 body false false in
      (Some d,
       set_links (<[DL_FRAGMENTS d :=
                      ListHead (Ptr (DL_FRAGMENTS d)) (Ptr (DL_FRAGMENTS d))]>
                  (<[DL_CHAIN d := ListHead NULL NULL]>
                  (<[DL_LIST d := ListHead NULL NULL]> (links s))))
         (set_dls (<[d := dl]> (dls s)) s))
  end.

(** vsp1_dl_list_get() *)
Definition vsp1_dl_list_get (s : vsp1_dl_manager)
    : result (option nat * vsp1_dl_manager) :=
  e ← list_empty DLM_FREE (links s);
  if (e : bool) then Done (None, s)
  else
    n ← rd_next DLM_FREE (links s);
    a ← deref n;
    d ← list_entry_dl a;
    s ← on_links (list_del (DL_LIST d)) s;
    s ← on_links (INIT_LIST_HEAD (DL_CHAIN d)) s;
    Done (Some d, s).

(** schedule_work(&dlm->gc_work) *)
Definition schedule_work (s : vsp1_dl_manager) : vsp1_dl_manager :=
  set_gc_work true s.

(** The part of __vsp1_dl_list_put() that follows the release of the
    chained lists:
    dl->has_chain = false;
    if (!list_empty(&dl->fragments)) {
      list_splice_init(&dl->fragments, &dl->dlm->gc_fragments);
      schedule_work(&dl->dlm->gc_work); }
    dl->body0.num_entries = 0;
    list_add_tail(&dl->list, &dl->dlm->free); *)
Definition put_self (d : nat) (s : vsp1_dl_manager) : result vsp1_dl_manager :=
  s ← modify_dl d (set_has_chain false) s;
  e ← list_empty (DL_FRAGMENTS d) (links s);
  s ← (if (e : bool) then Done s
       else
         s ← on_links (list_splice_init (DL_FRAGMENTS d) DLM_GC_FRAGMENTS) s;
         Done (schedule_work s));
  s ← modify_dl d (λ l, set_body0 (set_num_entries 0 (body0 l)) l) s;
  on_links (list_add_tail (DL_LIST d) DLM_FREE) s.

(** __vsp1_dl_list_put(): [fuel] bounds the depth of the recursion into
    chained lists and the length of the walk over a chain. *)
Fixpoint __vsp1_dl_list_put (fuel : nat) (dl : option nat)
    (s : vsp1_dl_manager) {struct fuel} : result vsp1_dl_manager :=
  match dl with
  | None => Done s
  | Some d =>
      match fuel with
      | O => OutOfFuel
      | S fuel =>
          l ← get_dl d s;
          s ← (if has_chain l then
                 list_for_each_entry links (DL_CHAIN d)
                   (λ a s, dl_child ← chain_entry_dl a;
                           __vsp1_dl_list_put fuel (Some dl_child) s)
                   fuel s
               else Done s);
          put_self d s
      end
  end.

(** vsp1_dl_list_put() *)
Definition vsp1_dl_list_put (fuel : nat) (dl : option nat)
    (s : vsp1_dl_manager) : result vsp1_dl_manager :=
  match dl with
  | None => Done s
  | Some d => __vsp1_dl_list_put fuel (Some d) s
  end.

(** vsp1_dl_list_write() *)
Definition vsp1_dl_list_write (dl : nat) (reg data : Z)
    (s : vsp1_dl_manager) : result vsp1_dl_manager :=
  modify_dl dl (λ l, set_body0 (body_write reg data (body0 l)) l) s.

(** vsp1_dl_list_add_fragment(): the return value and the state. *)
Definition vsp1_dl_list_add_fragment (dl dlb : nat) (s : vsp1_dl_manager)
    : result (Z * vsp1_dl_manager) :=
  _ ← get_dl dl s;
  if decide (mode s ≠ VSP1_DL_MODE_HEADER) then Done ((- EINVAL)%Z, s)
  else
    s ← on_links (list_add_tail (DLB_LIST dlb) (DL_FRAGMENTS dl)) s;
    Done (0%Z, s).

(** vsp1_dl_list_add_chain() *)
Definition vsp1_dl_list_add_chain (head dl : nat) (s : vsp1_dl_manager)
    : result (Z * vsp1_dl_manager) :=
  _ ← get_dl head s;
  if decide (mode s ≠ VSP1_DL_MODE_HEADER) then Done ((- EINVAL)%Z, s)
  else
    s ← modify_dl head (set_has_chain true) s;
    s ← on_links (list_add_tail (DL_CHAIN dl) (DL_CHAIN head)) s;
    Done (0%Z, s).

(** A store through [hdr], a pointer to slot [hdr] of [dl->header->lists].
    The array has [HEADER_LISTS] slots: a store past its end is an
    overrun. *)
Definition header_list_store (d : nat) (hdr : nat)
    (f : vsp1_dl_header_list → vsp1_dl_header_list) (s : vsp1_dl_manager)
    : result vsp1_dl_manager :=
  l ← get_dl d s;
  h ← of_option NullDeref (header l);
  match lists h !! hdr with
  | None => Fault Overrun
  | Some e =>
      modify_dl d
        (set_header (Some (Header (num_lists h) (<[hdr := f e]> (lists h))
                                  (next_header h) (flags h)))) s
  end.

(** A store to the members of [*dl->header] outside [lists]. *)
Definition header_store (d : nat) (f : vsp1_dl_header → vsp1_dl_header)
    (s : vsp1_dl_manager) : result vsp1_dl_manager :=
  l ← get_dl d s;
  h ← of_option NullDeref (header l);
  modify_dl d (set_header (Some (f h))) s.

Definition set_num_bytes (v : Z) (e : vsp1_dl_header_list) :=
  HeaderList v (addr e).
Definition set_addr (v : Z) (e : vsp1_dl_header_list) :=
  HeaderList (num_bytes e) v.
Definition set_num_lists (v : Z) (h : vsp1_dl_header) :=
  Header v (lists h) (next_header h) (flags h).
Definition set_next_header (v : Z) (h : vsp1_dl_header) :=
  Header (num_lists h) (lists h) v (flags h).
Definition set_flags (v : Z) (h : vsp1_dl_header) :=
  Header (num_lists h) (lists h) (next_header h) v.

(** The locals of vsp1_dl_list_fill_header() that its loop changes,
    [num_lists] and [hdr], and the state. *)
Definition fill_state : Type := Z * nat * vsp1_dl_manager.
Definition fill_links (t : fill_state) := links (t.2).

(** The body of the loop over the fragments:
    num_lists++; hdr++; hdr->addr = dlb->dma;
    hdr->num_bytes = dlb->num_entries * sizeof( *dl->header->lists); *)
Definition fill_fragment (d : nat) (a : lh_addr) (t : fill_state)
    : result fill_state :=
  let '(num_lists, hdr, s) := t in
  b ← list_entry_dlb a;
  dlb ← get_dlb b s;
  let num_lists := u32 (num_lists + 1) in
  let hdr := S hdr in
  s ← header_list_store d hdr (set_addr (u32 (dlb_dma dlb))) s;
  s ← header_list_store d hdr
        (set_num_bytes (u32 (dlb_num_entries dlb * sizeof_header_list))) s;
  Done (num_lists, hdr, s).

(** vsp1_dl_list_fill_header(): [fuel] bounds the walk over the
    fragments. *)
Definition vsp1_dl_list_fill_header (fuel : nat) (d : nat) (is_last : bool)
    (s : vsp1_dl_manager) : result vsp1_dl_manager :=
  l ← get_dl d s;
  s ← header_list_store d 0
        (set_num_bytes
           (u32 (dlb_num_entries (body0 l) * sizeof_header_list))) s;
  '(num_lists, _, s) ←
     list_for_each_entry fill_links (DL_FRAGMENTS d) (fill_fragment d)
       fuel (0%Z, 0%nat, s);
  s ← header_store d (set_num_lists num_lists) s;
  e ← list_empty (DL_CHAIN d) (links s);
  if negb e && negb is_last then
    n ← rd_next (DL_CHAIN d) (links s);
    a ← deref n;
    next ← chain_entry_dl a;
    nl ← get_dl next s;
    s ← header_store d (set_next_header (u32 (dma nl))) s;
    header_store d (set_flags VSP1_DLH_AUTO_START) s
  else if negb (singleshot s) then
    s ← header_store d (set_next_header (u32 (dma l))) s;
    header_store d
      (set_flags (Z.lor VSP1_DLH_INT_ENABLE VSP1_DLH_AUTO_START)) s
  else
    header_store d (set_flags VSP1_DLH_INT_ENABLE) s.

Section hw.
Context `{vsp1_regs}.

(** vsp1_dl_list_hw_update_pending() *)
Definition vsp1_dl_list_hw_update_pending (s : vsp1_dl_manager) : bool :=
  match queued s with
  | None => false
  | Some _ =>
      if decide (mode s = VSP1_DL_MODE_HEADERLESS) then
        negb (Z.land (vsp1_read s VI6_DL_BODY_SIZE) VI6_DL_BODY_SIZE_UPD =? 0)%Z
      else
        negb (Z.land (vsp1_read s (VI6_CMD (index s))) VI6_CMD_UPDHDR =? 0)%Z
  end.

(** vsp1_dl_list_hw_enqueue() *)
Definition vsp1_dl_list_hw_enqueue (dl : nat) (s : vsp1_dl_manager)
    : result vsp1_dl_manager :=
  l ← get_dl dl s;
  if decide (mode s = VSP1_DL_MODE_HEADERLESS) then
    let s := vsp1_write (VI6_DL_HDR_ADDR 0) (dlb_dma (body0 l)) s in
    Done (vsp1_write VI6_DL_BODY_SIZE
            (Z.lor VI6_DL_BODY_SIZE_UPD
               (dlb_num_entries (body0 l) * sizeof_header_list)) s)
  else
    Done (vsp1_write (VI6_DL_HDR_ADDR (index s)) (dma l) s).

(** WARN_ON(dlm->pending && dlm->pending->internal) *)
Definition warn_pending_internal (s : vsp1_dl_manager)
    : result vsp1_dl_manager :=
  match pending s with
  | None => Done s
  | Some p =>
      l ← get_dl p s;
      Done (if internal l then set_warnings (S (warnings s)) s else s)
  end.

(** vsp1_dl_list_commit_continuous() *)
Definition vsp1_dl_list_commit_continuous (fuel : nat) (dl : nat)
    (s : vsp1_dl_manager) : result vsp1_dl_manager :=
  if vsp1_dl_list_hw_update_pending s then
    s ← warn_pending_internal s;
    s ← __vsp1_dl_list_put fuel (pending s) s;
    Done (set_pending (Some dl) s)
  else
    s ← vsp1_dl_list_hw_enqueue dl s;
    s ← __vsp1_dl_list_put fuel (queued s) s;
    Done (set_queued (Some dl) s).

(** vsp1_dl_list_commit_singleshot() *)
Definition vsp1_dl_list_commit_singleshot (dl : nat) (s : vsp1_dl_manager)
    : result vsp1_dl_manager :=
  s ← vsp1_dl_list_hw_enqueue dl s;
  Done (set_active (Some dl) s).

(** The first part of vsp1_dl_list_commit(): the headers of the head and
    of the chained display lists. *)
Definition commit_fill_headers (fuel : nat) (dl : nat) (s : vsp1_dl_manager)
    : result vsp1_dl_manager :=
  e ← list_empty (DL_CHAIN dl) (links s);
  s ← vsp1_dl_list_fill_header fuel dl e s;
  list_for_each_entry links (DL_CHAIN dl)
    (λ a s, dl_child ← chain_entry_dl a;
            last ← list_is_last a (DL_CHAIN dl) (links s);
            vsp1_dl_list_fill_header fuel dl_child last s)
    fuel s.

(** vsp1_dl_list_commit() *)
Definition vsp1_dl_list_commit (fuel : nat) (dl : nat) (internal : bool)
    (s : vsp1_dl_manager) : result vsp1_dl_manager :=
  s ← (if decide (mode s = VSP1_DL_MODE_HEADER)
       then commit_fill_headers fuel dl s else Done s);
  s ← modify_dl dl (set_internal internal) s;
  if singleshot s then vsp1_dl_list_commit_singleshot dl s
  else vsp1_dl_list_commit_continuous fuel dl s.

(** ** Display list manager *)

(** The second step of vsp1_dlm_irq_frame_end() in continuous mode:
    if (dlm->queued) {
      if (dlm->queued->internal) flags |= VSP1_DL_FRAME_END_INTERNAL;
      dlm->queued->internal = false;
      __vsp1_dl_list_put(dlm->active);
      dlm->active = dlm->queued; dlm->queued = NULL;
      flags |= VSP1_DL_FRAME_END_COMPLETED; } *)
Definition frame_end_queued (fuel : nat) (flags : Z) (s : vsp1_dl_manager)
    : result (Z * vsp1_dl_manager) :=
  match queued s with
  | None => Done (flags, s)
  | Some q =>
      l ← get_dl q s;
      let flags :=
        if internal l then Z.lor flags VSP1_DL_FRAME_END_INTERNAL
        else flags in
      s ← modify_dl q (set_internal false) s;
      s ← __vsp1_dl_list_put fuel (active s) s;
      let s := set_active (queued s) s in
      let s := set_queued None s in
      Done (Z.lor flags VSP1_DL_FRAME_END_COMPLETED, s)
  end.

(** The last step of vsp1_dlm_irq_frame_end() in continuous mode:
    if (dlm->pending) {
      vsp1_dl_list_hw_enqueue(dlm->pending);
      dlm->queued = dlm->pending; dlm->pending = NULL; } *)
Definition frame_end_pending (s : vsp1_dl_manager)
    : result vsp1_dl_manager :=
  match pending s with
  | None => Done s
  | Some p =>
      s ← vsp1_dl_list_hw_enqueue p s;
      let s := set_queued (pending s) s in
      Done (set_pending None s)
  end.

(** vsp1_dlm_irq_frame_end(): the flags returned and the state. *)
Definition vsp1_dlm_irq_frame_end (fuel : nat) (s : vsp1_dl_manager)
    : result (Z * vsp1_dl_manager) :=
  let flags := 0%Z in
  if singleshot s then
    s ← __vsp1_dl_list_put fuel (active s) s;
    let s := set_active None s in
    Done (Z.lor flags VSP1_DL_FRAME_END_COMPLETED, s)
  else if vsp1_dl_list_hw_update_pending s then
    Done (flags, s)
  else
    '(flags, s) ← frame_end_queued fuel flags s;
    s ← frame_end_pending s;
    Done (flags, s).

(** vsp1_dlm_reset() *)
Definition vsp1_dlm_reset (fuel : nat) (s : vsp1_dl_manager)
    : result vsp1_dl_manager :=
  s ← __vsp1_dl_list_put fuel (active s) s;
  s ← __vsp1_dl_list_put fuel (queued s) s;
  s ← __vsp1_dl_list_put fuel (pending s) s;
  Done (set_pending None (set_queued None (set_active None s))).
End hw.

(** vsp1_dlm_setup(): [drm] is whether [vsp1->drm] is set.  The
    registers of the device are those of the state of its manager. *)
Definition vsp1_dlm_setup `{vsp1_setup_regs} (drm : bool)
    (s : vsp1_dl_manager) : vsp1_dl_manager :=
  let ctrl :=
    Z.lor (Z.lor (Z.lor (Z.lor (Z.shiftl 256 VI6_DL_CTRL_AR_WAIT_SHIFT)
                                VI6_DL_CTRL_DC2)
                         VI6_DL_CTRL_DC1)
                  VI6_DL_CTRL_DC0)
          VI6_DL_CTRL_DLE in
  let ctrl :=
    if drm then Z.lor ctrl (Z.lor VI6_DL_CTRL_CFM0 VI6_DL_CTRL_NH0)
    else ctrl in
  let s := vsp1_write VI6_DL_CTRL ctrl s in
  vsp1_write VI6_DL_SWAP VI6_DL_SWAP_LWS s.

(** The part of [struct vsp1_device] the manager depends on:
    [vsp1->info->uapi] and the registers. *)
Record vsp1_device := Device { uapi : bool; device_regs : gmap Z Z }.

(** The loop of vsp1_dlm_create(): [mems i] is the outcome of the
    allocation of display list [i]. *)
Fixpoint create_prealloc (n : nat) (i : nat) (mems : nat → option Z)
    (s : vsp1_dl_manager) : result (option vsp1_dl_manager) :=
  match n with
  | O => Done (Some s)
  | S n =>
      match vsp1_dl_list_alloc (mems i) s with
      | (None, _) => Done None
      | (Some d, s) =>
          s ← on_links (list_add_tail (DL_LIST d) DLM_FREE) s;
          create_prealloc n (S i) mems s
      end
  end.

(** vsp1_dlm_create(): [dlm_mem] is whether devm_kzalloc() returned
    the memory of the manager, [mems i] is the outcome of the allocation
    of display list [i]; [None] is the null pointer returned when an
    allocation fails. *)
Definition vsp1_dlm_create (vsp1 : vsp1_device) (index : Z) (prealloc : nat)
    (dlm_mem : bool) (mems : nat → option Z)
    : result (option vsp1_dl_manager) :=
  if dlm_mem then
    let mode :=
      if bool_decide (index = 0%Z) && negb (uapi vsp1)
      then VSP1_DL_MODE_HEADERLESS
      else VSP1_DL_MODE_HEADER in
    let dlm :=
      Manager index mode (uapi vsp1) None None None
        (<[DLM_GC_FRAGMENTS :=
             ListHead (Ptr DLM_GC_FRAGMENTS) (Ptr DLM_GC_FRAGMENTS)]>
         (<[DLM_FREE := ListHead (Ptr DLM_FREE) (Ptr DLM_FREE)]> ∅))
        ∅ ∅ (device_regs vsp1) false 0 in
    create_prealloc prealloc 0 mems dlm
  else Done None.

(** ** Well-formed lists *)

(** A memory of [list_head] cells holds the circular list with head [h]
    and nodes [l], in this order, when the cells are distinct and each
    one is linked to the next in both directions, the last one to [h]. *)
Section rings.
Context `{Countable K}.
Implicit Types (m : gmap K (list_head K)) (a b h : K) (l : list K).

Definition nxt m a : option (ptr K) := next <$> m !! a.
Definition prv m a : option (ptr K) := prev <$> m !! a.

Definition link m a b : Prop :=
  nxt m a = Some (Ptr b) ∧ prv m b = Some (Ptr a).

Fixpoint linked m a l b : Prop :=
  match l with
  | [] => link m a b
  | c :: l => link m a c ∧ linked m c l b
  end.

Definition ring m h l : Prop := NoDup (h :: l) ∧ linked m h l h.

Global Instance link_dec m a b : Decision (link m a b).
Proof. unfold link. apply _. Defined.
Global Instance linked_dec m a l b : Decision (linked m a l b).
Proof. revert a. induction l; simpl; apply _. Defined.
Global Instance ring_dec m h l : Decision (ring m h l).
Proof. unfold ring. apply _. Defined.
End rings.

(** The sequences the lists of the manager stand for: the free pool, the
    fragments waiting for the garbage collector, and the fragments of
    each display list. *)
Record dl_view := View {
  free_pool : list nat;
  gc_fragments : list nat;
  fragments : nat → list nat
}.

Definition pool_is (s : vsp1_dl_manager) (L : list nat) : Prop :=
  ring (links s) DLM_FREE (DL_LIST <$> L).
Definition gc_is (s : vsp1_dl_manager) (G : list nat) : Prop :=
  ring (links s) DLM_GC_FRAGMENTS (DLB_LIST <$> G).
Definition fragments_are (s : vsp1_dl_manager) (d : nat) (F : list nat) : Prop :=
  ring (links s) (DL_FRAGMENTS d) (DLB_LIST <$> F).
Definition chain_is (s : vsp1_dl_manager) (d : nat) (C : list nat) : Prop :=
  ring (links s) (DL_CHAIN d) (DL_CHAIN <$> C).

(** The header of a display list has its eight slots. *)
Definition header_ok (l : vsp1_dl_list) : Prop :=
  match header l with
  | Some h => length (lists h) = HEADER_LISTS
  | None => True
  end.

(** The state of a manager is well formed, with view [v], when
    - the free list holds the display lists [free_pool v], all allocated;
    - the garbage list holds the bodies [gc_fragments v];
    - every allocated display list [d] has its three link cells and its
      fragment list holds the bodies [fragments v d];
    - every body on one of these lists is allocated, and no body is on
      two of them. *)
Record wf (s : vsp1_dl_manager) (v : dl_view) : Prop := Wf {
  wf_pool : pool_is s (free_pool v);
  wf_pool_alloc : ∀ d, d ∈ free_pool v → is_Some (dls s !! d);
  wf_gc : gc_is s (gc_fragments v);
  wf_gc_alloc : ∀ b, b ∈ gc_fragments v → is_Some (dlbs s !! b);
  wf_frags : ∀ d, is_Some (dls s !! d) → fragments_are s d (fragments v d);
  wf_cells : ∀ d, is_Some (dls s !! d) →
             is_Some (links s !! DL_LIST d) ∧ is_Some (links s !! DL_CHAIN d);
  wf_frags_alloc : ∀ d b, is_Some (dls s !! d) → b ∈ fragments v d →
                   is_Some (dlbs s !! b);
  wf_frags_gc : ∀ d b, is_Some (dls s !! d) → b ∈ fragments v d →
                b ∉ gc_fragments v;
  wf_frags_disj : ∀ d1 d2 b, is_Some (dls s !! d1) → is_Some (dls s !! d2) →
                  b ∈ fragments v d1 → b ∈ fragments v d2 → d1 = d2;
  wf_headers : ∀ d l, dls s !! d = Some l → header_ok l
}.

(** Display list [x] can be released with the chained lists [C]: [x] is
    allocated; when it has no chain [C] is empty; when it has one, its
    chain holds [C], and these are allocated lists without a chain of
    their own. *)
Definition no_chain (s : vsp1_dl_manager) (c : nat) : Prop :=
  match dls s !! c with
  | None => False
  | Some lc => has_chain lc = false
  end.

Definition chain_of (s : vsp1_dl_manager) (x : nat) (C : list nat) : Prop :=
  match dls s !! x with
  | None => False
  | Some l =>
      if has_chain l then chain_is s x C ∧ Forall (no_chain s) C
      else C = []
  end.

(** What __vsp1_dl_list_put() leaves of a display list. *)
Definition recycled (l : vsp1_dl_list) : vsp1_dl_list :=
  set_body0 (set_num_entries 0 (body0 l)) (set_has_chain false l).

Definition recycle_all (D : list nat) (m : gmap nat vsp1_dl_list)
    : gmap nat vsp1_dl_list :=
  foldl (λ m d, alter recycled d m) m D.

(** The view after the release of display list [d]: [d] is at the tail
    of the free pool, its fragments are at the front of the garbage
    list. *)
Definition release1 (v : dl_view) (d : nat) : dl_view :=
  View (free_pool v ++ [d]) (fragments v d ++ gc_fragments v)
       (λ d', if decide (d' = d) then [] else fragments v d').

Definition release_view (D : list nat) (v : dl_view) : dl_view :=
  foldl release1 v D.

(** A release changes the free list, the garbage list, the fragment
    lists and the display lists released, and nothing else: not the
    configuration, the slots, the registers, the bodies, the warnings,
    nor a chain link. *)
Record released_only (s s' : vsp1_dl_manager) : Prop := ReleasedOnly {
  ro_index : index s' = index s;
  ro_mode : mode s' = mode s;
  ro_singleshot : singleshot s' = singleshot s;
  ro_active : active s' = active s;
  ro_queued : queued s' = queued s;
  ro_pending : pending s' = pending s;
  ro_dlbs : dlbs s' = dlbs s;
  ro_mmio : mmio s' = mmio s;
  ro_warnings : warnings s' = warnings s;
  ro_chain : ∀ c, links s' !! DL_CHAIN c = links s !! DL_CHAIN c
}.

(** The display list of a slot can be released with the chained lists
    [C]. *)
Definition slot_chain (s : vsp1_dl_manager) (o : option nat) (C : list nat)
    : Prop :=
  match o with
  | None => C = []
  | Some x => chain_of s x C
  end.

(** The display lists that the release of a slot returns to the pool, in
    the order in which they are appended. *)
Definition slot_lists (o : option nat) (C : list nat) : list nat :=
  C ++ option_list o.

(** ** The header, as the spec describes it *)

(** The display list [d] with [l] in place of its previous contents. *)
Definition with_dl (d : nat) (l : vsp1_dl_list) (s : vsp1_dl_manager)
    : vsp1_dl_manager :=
  set_dls (<[d := l]> (dls s)) s.

(** The descriptor of a body: its byte length, the number of entries
    written times the size of one, and its device address. *)
Definition body_desc (b : vsp1_dl_body) : vsp1_dl_header_list :=
  HeaderList (u32 (dlb_num_entries b * sizeof_header_list)) (u32 (dlb_dma b)).

(** The descriptors after fill_header: the primary body in the first
    slot, whose address was set at allocation, then the fragments in the
    order of attachment; the remaining slots are left as they were. *)
Definition filled_lists (l : vsp1_dl_list) (keep : list vsp1_dl_header_list)
    (bodies : list vsp1_dl_body) : list vsp1_dl_header_list :=
  match keep with
  | [] => []
  | e0 :: _ =>
      HeaderList (u32 (dlb_num_entries (body0 l) * sizeof_header_list))
                 (addr e0)
      :: (body_desc <$> bodies) ++ drop (S (length bodies)) keep
  end.

(** The forward link after fill_header, as (next_header, flags): [next]
    is the display list after this one on its chain, with device address
    [next_dma], or this list itself when it is on no chain. *)
Definition filled_link (single : bool) (d : nat) (l : vsp1_dl_list)
    (h : vsp1_dl_header) (next : nat) (next_dma : Z) (is_last : bool)
    : Z * Z :=
  if negb (bool_decide (next = d)) && negb is_last then
    (u32 next_dma, VSP1_DLH_AUTO_START)
  else if negb single then
    (u32 (dma l), Z.lor VSP1_DLH_INT_ENABLE VSP1_DLH_AUTO_START)
  else
    (next_header h, VSP1_DLH_INT_ENABLE).

Definition filled_header (single : bool) (d : nat) (l : vsp1_dl_list)
    (h : vsp1_dl_header) (bodies : list vsp1_dl_body)
    (next : nat) (next_dma : Z) (is_last : bool) : vsp1_dl_header :=
  let link := filled_link single d l h next next_dma is_last in
  Header (Z.of_nat (length bodies)) (filled_lists l (lists h) bodies)
         link.1 link.2.

(** The bodies behind a list of handles. *)
Definition bodies_of (s : vsp1_dl_manager) (F : list nat)
    (bodies : list vsp1_dl_body) : Prop :=
  Forall2 (λ b body, dlbs s !! b = Some body) F bodies.

(** The bodies of the fragments [F], in order. *)
Definition frag_bodies (s : vsp1_dl_manager) (F : list nat)
    : list vsp1_dl_body :=
  omap (λ b, dlbs s !! b) F.

(** The display list after [E !! i] on the chain [E], a head followed by
    its chained lists: the next element, and the head after the last
    one. *)
Definition chain_next (E : list nat) (i : nat) : nat :=
  default (hd 0 E) (E !! S i).

(** The device address of the header of display list [d]. *)
Definition dma_of (s : vsp1_dl_manager) (d : nat) : Z :=
  default 0%Z (dma <$> dls s !! d).

(** Two display lists that differ in what vsp1_dl_list_commit() writes
    before it takes the lock only: the contents of the header and the
    internal flag. *)
Record written_by_commit (l l' : vsp1_dl_list) : Prop := WrittenByCommit {
  wbc_dma : dma l' = dma l;
  wbc_body0 : body0 l' = body0 l;
  wbc_has_chain : has_chain l' = has_chain l;
  wbc_header : is_Some (header l') ↔ is_Some (header l);
  wbc_ok : header_ok l'
}.

(** Two states that differ in the headers and the internal flags of their
    display lists only. *)
Record only_commit_writes (s s' : vsp1_dl_manager) : Prop := OnlyCommitWrites {
  ocw_index : index s' = index s;
  ocw_mode : mode s' = mode s;
  ocw_singleshot : singleshot s' = singleshot s;
  ocw_active : active s' = active s;
  ocw_queued : queued s' = queued s;
  ocw_pending : pending s' = pending s;
  ocw_links : links s' = links s;
  ocw_dlbs : dlbs s' = dlbs s;
  ocw_mmio : mmio s' = mmio s;
  ocw_gc_work : gc_work s' = gc_work s;
  ocw_warnings : warnings s' = warnings s;
  ocw_dls : ∀ d, option_Forall2 written_by_commit (dls s !! d) (dls s' !! d)
}.

(** [wf], as a property that can be decided by computation: the
    conditions on every allocated display list are stated on the map of
    the display lists. *)
Global Instance header_ok_dec l : Decision (header_ok l).
Proof. unfold header_ok. destruct (header l); apply _. Defined.

Definition wf_dl (s : vsp1_dl_manager) (v : dl_view) (d : nat)
    (l : vsp1_dl_list) : Prop :=
  fragments_are s d (fragments v d) ∧
  is_Some (links s !! DL_LIST d) ∧ is_Some (links s !! DL_CHAIN d) ∧
  Forall (λ b, is_Some (dlbs s !! b) ∧ b ∉ gc_fragments v) (fragments v d) ∧
  header_ok l ∧
  map_Forall (λ d2 _, d2 = d ∨ Forall (λ b, b ∉ fragments v d2) (fragments v d))
             (dls s).

Definition wf_list (s : vsp1_dl_manager) (v : dl_view) : Prop :=
  pool_is s (free_pool v) ∧
  Forall (λ d, is_Some (dls s !! d)) (free_pool v) ∧
  gc_is s (gc_fragments v) ∧
  Forall (λ b, is_Some (dlbs s !! b)) (gc_fragments v) ∧
  map_Forall (wf_dl s v) (dls s).

Global Instance wf_dl_dec s v d l : Decision (wf_dl s v d l).
Proof. unfold wf_dl, fragments_are. apply _. Defined.
Global Instance wf_list_dec s v : Decision (wf_list s v).
Proof. unfold wf_list, pool_is, gc_is. apply _. Defined.

(** Concrete register addresses and bits, for the examples. *)
Definition example_regs : vsp1_regs :=
  Vsp1Regs (λ n, 4 * n)%Z 16 (λ n, 260 + 4 * n)%Z 288 (Z.shiftl 1 24).

Definition example_setup_regs : vsp1_setup_regs :=
  Vsp1SetupRegs 256 16 (Z.shiftl 1 12) (Z.shiftl 1 8) (Z.shiftl 1 4)
                (Z.shiftl 1 2) (Z.shiftl 1 1) (Z.shiftl 1 0)
                276 (Z.shiftl 1 2).

(** Two states that differ in their links only. *)
Record links_only (s s' : vsp1_dl_manager) : Prop := LinksOnly {
  lo_index : index s' = index s;
  lo_mode : mode s' = mode s;
  lo_singleshot : singleshot s' = singleshot s;
  lo_active : active s' = active s;
  lo_queued : queued s' = queued s;
  lo_pending : pending s' = pending s;
  lo_dls : dls s' = dls s;
  lo_dlbs : dlbs s' = dlbs s;
  lo_mmio : mmio s' = mmio s;
  lo_gc_work : gc_work s' = gc_work s;
  lo_warnings : warnings s' = warnings s
}.

(** A display list in the state in which the pool keeps it: no entry
    written, no chain, no fragment. *)
Definition clean (s : vsp1_dl_manager) (v : dl_view) (d : nat) : Prop :=
  match dls s !! d with
  | None => False
  | Some l =>
      dlb_num_entries (body0 l) = 0%Z ∧ has_chain l = false ∧
      fragments v d = []
  end.

Definition pool_clean (s : vsp1_dl_manager) (v : dl_view) : Prop :=
  Forall (clean s v) (free_pool v).

Global Instance clean_dec s v d : Decision (clean s v d).
Proof. unfold clean. destruct (dls s !! d); apply _. Defined.

(** The registers after display list [l] was programmed into the
    hardware of a manager in state [s]: in headerless mode the address
    and the size of the body, with the update bit; in header mode the
    address of the header. *)
Definition hw_program `{vsp1_regs} (s : vsp1_dl_manager) (l : vsp1_dl_list)
    : gmap Z Z :=
  match mode s with
  | VSP1_DL_MODE_HEADERLESS =>
      <[VI6_DL_BODY_SIZE :=
          u32 (Z.lor VI6_DL_BODY_SIZE_UPD
                 (dlb_num_entries (body0 l) * sizeof_header_list))]>
        (<[VI6_DL_HDR_ADDR 0 := u32 (dlb_dma (body0 l))]> (mmio s))
  | VSP1_DL_MODE_HEADER =>
      <[VI6_DL_HDR_ADDR (index s) := u32 (dma l)]> (mmio s)
  end.

(** The internal flag of the display list of a slot. *)
Definition slot_internal (s : vsp1_dl_manager) (o : option nat) : bool :=
  match o with
  | None => false
  | Some p => default false (internal <$> dls s !! p)
  end.

(** What vsp1_dl_list_commit() needs of the display list [dl] with the
    chained lists [C]: it is allocated and, in header mode, its chain is
    well formed and every list on it has a header with room for its
    fragments. *)
Definition committable (s : vsp1_dl_manager) (v : dl_view) (dl : nat)
    (C : list nat) : Prop :=
  is_Some (dls s !! dl) ∧
  (mode s = VSP1_DL_MODE_HEADER →
   chain_is s dl C ∧
   Forall (λ e, match dls s !! e with
                | Some l => is_Some (header l) ∧
                            length (fragments v e) < HEADER_LISTS
                | None => False
                end) (dl :: C)).

Global Instance committable_dec s v dl C : Decision (committable s v dl C).
Proof.
  unfold committable, chain_is. apply and_dec; [apply _|].
  apply impl_dec; [apply _|]. apply and_dec; [apply _|].
  apply Forall_dec. intros e. destruct (dls s !! e); apply _.
Defined.

(** The slot whose display list vsp1_dl_list_commit() releases: none in
    single-shot mode; in continuous mode the pending slot when the
    hardware has not accepted the previous program, and the queued slot
    when it has. *)
Definition commit_releases `{vsp1_regs} (s : vsp1_dl_manager) : option nat :=
  if singleshot s then None
  else if vsp1_dl_list_hw_update_pending s then pending s
  else queued s.

Global Instance no_chain_dec s c : Decision (no_chain s c).
Proof. unfold no_chain. destruct (dls s !! c); apply _. Defined.

Global Instance chain_of_dec s x C : Decision (chain_of s x C).
Proof.
  unfold chain_of, chain_is. destruct (dls s !! x) as [l|]; [|apply _].
  destruct (has_chain l); apply _.
Defined.

Global Instance slot_chain_dec s o C : Decision (slot_chain s o C).
Proof. destruct o; simpl; apply _. Defined.

(** A body whose byte length and device address fit the 32-bit fields of
    a header: at most 2^29 - 1 entries of 8 bytes, and an address below
    2^32. *)
Definition body_in_range (b : vsp1_dl_body) : Prop :=
  (0 ≤ dlb_num_entries b < 2 ^ 29)%Z ∧ (0 ≤ dlb_dma b < 2 ^ 32)%Z.

Global Instance body_in_range_dec b : Decision (body_in_range b).
Proof. unfold body_in_range. apply _. Defined.

(** Every display list of [E] is allocated, has a header, and has fewer
    fragments than the header has slots. *)
Definition headers_fit (s : vsp1_dl_manager) (v : dl_view) (E : list nat)
    : Prop :=
  Forall (λ e, match dls s !! e with
               | Some l => is_Some (header l) ∧
                           length (fragments v e) < HEADER_LISTS
               | None => False
               end) E.

Global Instance headers_fit_dec s v E : Decision (headers_fit s v E).
Proof.
  unfold headers_fit. apply Forall_dec. intros e.
  destruct (dls s !! e); apply _.
Defined.

(** ** Example states *)

(** The result of a computation that is known to return. *)
Definition returned {A} (r : result A) (otherwise : A) : A :=
  match r with Done a => a | _ => otherwise end.

(** The allocator of the examples: allocation [i] is at device address
    0x10000 * (i + 1). *)
Definition example_mems (i : nat) : option Z :=
  Some (65536 * (Z.of_nat i + 1))%Z.

Definition no_manager : vsp1_dl_manager :=
  Manager 0 VSP1_DL_MODE_HEADER false None None None ∅ ∅ ∅ ∅ false 0.

(** A manager in header mode, with five display lists. *)
Definition created (single : bool) : vsp1_dl_manager :=
  default no_manager
    (returned (vsp1_dlm_create (Device single ∅) 1 5 true example_mems)
              None).

Definition then_do (f : vsp1_dl_manager → result vsp1_dl_manager)
    (s : vsp1_dl_manager) : vsp1_dl_manager :=
  returned (f s) no_manager.

(** Display lists 0, 1 and 2 are taken from the pool; list 0 has three
    entries and one fragment, body 0, with two entries; list 1 is chained
    to list 0; list 2 has one entry.  Lists 3 and 4 stay in the pool. *)
Definition prepared (single : bool) : vsp1_dl_manager :=
  let s := created single in
  let s := (returned (vsp1_dl_list_get s) (None, s)).2 in
  let s := (returned (vsp1_dl_list_get s) (None, s)).2 in
  let s := (returned (vsp1_dl_list_get s) (None, s)).2 in
  let s := then_do (vsp1_dl_list_write 0 256 1) s in
  let s := then_do (vsp1_dl_list_write 0 260 2) s in
  let s := then_do (vsp1_dl_list_write 0 264 3) s in
  let s := (vsp1_dl_fragment_alloc 16 (Some 1048576%Z) s).2 in
  let s := then_do (vsp1_dl_fragment_write 0 512 7) s in
  let s := then_do (vsp1_dl_fragment_write 0 516 8) s in
  let s := (returned (vsp1_dl_list_add_fragment 0 0 s) (0%Z, s)).2 in
  let s := (returned (vsp1_dl_list_add_chain 0 1 s) (0%Z, s)).2 in
  then_do (vsp1_dl_list_write 2 256 9) s.

(** The prepared manager in continuous mode, evaluated. *)
Definition ready : vsp1_dl_manager := Eval vm_compute in prepared false.

Definition prepared_view : dl_view :=
  View [3; 4] [] (λ d, if decide (d = 0) then [0] else []).

(** Display list 0 of a single-shot manager with eight fragments, each
    attached by vsp1_dl_list_add_fragment(); [attached] collects the
    values these calls returned. *)
Fixpoint attach_fragments (n : nat) (acc : list Z * vsp1_dl_manager)
    : list Z * vsp1_dl_manager :=
  match n with
  | O => acc
  | S n =>
      let '(rets, s) := acc in
      let '(b, s) := vsp1_dl_fragment_alloc 4 (Some 1048576%Z) s in
      let '(ret, s) :=
        returned (vsp1_dl_list_add_fragment 0 (default 0 b) s) (1%Z, s) in
      attach_fragments n (rets ++ [ret], s)
  end.

Definition eight_fragments : list Z * vsp1_dl_manager :=
  Eval vm_compute in
  let s := created true in
  let s := (returned (vsp1_dl_list_get s) (None, s)).2 in
  attach_fragments 8 ([], s).

(** Lists 0 and 1 of a manager with five lists were taken from the pool
    and released again; list 0 is then released a second time.  The
    first component is the state before the second release, the second
    one its outcome. *)
Definition released_twice : vsp1_dl_manager * result vsp1_dl_manager :=
  Eval vm_compute in
  let s := created false in
  let s := (returned (vsp1_dl_list_get s) (None, s)).2 in
  let s := (returned (vsp1_dl_list_get s) (None, s)).2 in
  let s := then_do (vsp1_dl_list_put 2 (Some 0)) s in
  let s := then_do (vsp1_dl_list_put 2 (Some 1)) s in
  (s, vsp1_dl_list_put 2 (Some 0) s).

(** The hardware changes a register. *)
Definition hw_sets (reg val : Z) (s : vsp1_dl_manager) : vsp1_dl_manager :=
  set_mmio (<[reg := val]> (mmio s)) s.

(** The display list behind a handle, and its header. *)
Definition list_at (s : vsp1_dl_manager) (d : nat) : vsp1_dl_list :=
  default (DisplayList None 0 (Body ∅ 0 0 0) false false) (dls s !! d).
Definition header_at (s : vsp1_dl_manager) (d : nat) : vsp1_dl_header :=
  default empty_header (header (list_at s d)).

(** A continuous manager at work: list 0, with its chain and fragment,
    was committed and became active at a frame end; list 2 was committed
    with the internal flag and is queued; the hardware has not accepted
    it yet ([VI6_CMD_UPDHDR] is set) when list 3 is committed, also with
    the internal flag, and so is pending.  List 4 is then taken from the
    pool, which is empty after that. *)
Definition busy : vsp1_dl_manager :=
  Eval vm_compute in
  let s := prepared false in
  let s := then_do (vsp1_dl_list_commit (H := example_regs) 10 0 false) s in
  let s := (returned (vsp1_dlm_irq_frame_end (H := example_regs) 10 s)
                     (0%Z, s)).2 in
  let s := then_do (vsp1_dl_list_commit (H := example_regs) 10 2 true) s in
  let s := hw_sets 4 16 s in
  let s := (returned (vsp1_dl_list_get s) (None, s)).2 in
  let s := then_do (vsp1_dl_list_commit (H := example_regs) 10 3 true) s in
  (returned (vsp1_dl_list_get s) (None, s)).2.

Definition busy_view : dl_view :=
  View [] [] (λ d, if decide (d = 0) then [0] else []).

(** The same, when the hardware has accepted list 2. *)
Definition accepted : vsp1_dl_manager :=
  Eval vm_compute in hw_sets 4 0 busy.

(** A single-shot manager with list 0, its chain and fragment,
    committed. *)
Definition shot : vsp1_dl_manager :=
  Eval vm_compute in
  then_do (vsp1_dl_list_commit (H := example_regs) 10 0 false)
          (prepared true).

(** A headerless manager, with display list 0 taken from the pool. *)
Definition headerless : vsp1_dl_manager :=
  Eval vm_compute in
  let s := default no_manager
             (returned (vsp1_dlm_create (Device false ∅) 0 2 true
                                        example_mems)
                       None) in
  (returned (vsp1_dl_list_get s) (None, s)).2.

(** The forward link of display list [d]: next_header and flags. *)
Definition link_at (s : vsp1_dl_manager) (d : nat) : option (Z * Z) :=
  match dls s !! d with
  | None => None
  | Some l =>
      match header l with
      | None => None
      | Some h => Some (next_header h, flags h)
      end
  end.

Definition slot_alloc (s : vsp1_dl_manager) (o : option nat) : Prop :=
  match o with
  | None => True
  | Some d => is_Some (dls s !! d)
  end.

Global Instance slot_alloc_dec s o : Decision (slot_alloc s o).
Proof. destruct o; simpl; apply _. Defined.

(** ** Releasing memory *)

(** Modelled from the spec: list_for_each_entry_safe() is one of the list
    primitives of the kernel (include/linux/list.h), which are not among
    the source files; it is the walk over the "embedded link nodes" of
    section 9 of the spec that allows the body to remove the current
    entry.  [for (pos = first, n = next of pos; pos != head;
    pos = n, n = next of n)]: the cursor that follows is read before the
    body runs. *)
Section for_each_safe.
Context `{Countable K} {St : Type} (st_links : St → gmap K (list_head K))
        (head : K) (body : K → St → result St).

Fixpoint list_for_each_safe_from (fuel : nat) (pos n : K) (s : St)
    : result St :=
  match fuel with
  | O => OutOfFuel
  | S fuel =>
      if decide (pos = head) then Done s
      else
        s ← body pos s;
        nn ← rd_next n (st_links s);
        nn ← deref nn;
        list_for_each_safe_from fuel n nn s
  end.

Definition list_for_each_entry_safe (fuel : nat) (s : St) : result St :=
  p ← rd_next head (st_links s);
  pos ← deref p;
  p ← rd_next pos (st_links s);
  n ← deref p;
  list_for_each_safe_from fuel pos n s.
End for_each_safe.

(** vsp1_dl_body_cleanup(): dma_free_wc() gives the DMA memory of the
    body back to the platform; the body is left without its entries. *)
Definition vsp1_dl_body_cleanup (dlb : vsp1_dl_body) : vsp1_dl_body :=
  Body ∅ (dlb_dma dlb) (dlb_size dlb) (dlb_num_entries dlb).

(** kfree(dlb): the body is no longer allocated, and its [list] member
    goes with it. *)
Definition kfree_dlb (b : nat) (s : vsp1_dl_manager) : vsp1_dl_manager :=
  set_links (delete (DLB_LIST b) (links s)) (set_dlbs (delete b (dlbs s)) s).

(** kfree(dl): the display list is no longer allocated, and its members
    [list], [fragments] and [chain] go with it. *)
Definition kfree_dl (d : nat) (s : vsp1_dl_manager) : vsp1_dl_manager :=
  set_links (delete (DL_LIST d)
               (delete (DL_FRAGMENTS d) (delete (DL_CHAIN d) (links s))))
            (set_dls (delete d (dls s)) s).

(** vsp1_dl_fragment_free() *)
Definition vsp1_dl_fragment_free (dlb : option nat) (s : vsp1_dl_manager)
    : result vsp1_dl_manager :=
  match dlb with
  | None => Done s
  | Some b =>
      s ← modify_dlb b vsp1_dl_body_cleanup s;
      Done (kfree_dlb b s)
  end.

(** vsp1_dl_list_free() *)
Definition vsp1_dl_list_free (d : nat) (s : vsp1_dl_manager)
    : result vsp1_dl_manager :=
  s ← modify_dl d (λ l, set_body0 (vsp1_dl_body_cleanup (body0 l)) l) s;
  s ← on_links (list_splice_init (DL_FRAGMENTS d) DLM_GC_FRAGMENTS) s;
  Done (kfree_dl d s).

(** vsp1_dlm_fragments_free(): [fuel] bounds the number of turns of the
    loop.  The lock that the loop drops around the release of a body is
    not part of the model. *)
Fixpoint vsp1_dlm_fragments_free (fuel : nat) (s : vsp1_dl_manager)
    : result vsp1_dl_manager :=
  match fuel with
  | O => OutOfFuel
  | S fuel =>
      e ← list_empty DLM_GC_FRAGMENTS (links s);
      if (e : bool) then Done s
      else
        n ← rd_next DLM_GC_FRAGMENTS (links s);
        a ← deref n;
        dlb ← list_entry_dlb a;
        s ← on_links (list_del (DLB_LIST dlb)) s;
        s ← vsp1_dl_fragment_free (Some dlb) s;
        vsp1_dlm_fragments_free fuel s
  end.

(** vsp1_dlm_garbage_collect(): the work function of [gc_work]. *)
Definition vsp1_dlm_garbage_collect (fuel : nat) (s : vsp1_dl_manager)
    : result vsp1_dl_manager :=
  vsp1_dlm_fragments_free fuel s.

(** cancel_work_sync(&dlm->gc_work): the work is no longer scheduled. *)
Definition cancel_work_sync (s : vsp1_dl_manager) : vsp1_dl_manager :=
  set_gc_work false s.

(** vsp1_dlm_destroy(): [None] is the null pointer. *)
Definition vsp1_dlm_destroy (fuel : nat) (dlm : option vsp1_dl_manager)
    : result (option vsp1_dl_manager) :=
  match dlm with
  | None => Done None
  | Some s =>
      let s := cancel_work_sync s in
      s ← list_for_each_entry_safe links DLM_FREE
            (λ a s, dl ← list_entry_dl a;
                    s ← on_links (list_del (DL_LIST dl)) s;
                    vsp1_dl_list_free dl s)
            fuel s;
      s ← vsp1_dlm_fragments_free fuel s;
      Done (Some s)
  end.

(** ** Sequences of calls *)

(** A caller that writes the registers [ws] to display list [dl], one
    vsp1_dl_list_write() after the other. *)
Fixpoint write_sequence (dl : nat) (ws : list (Z * Z)) (s : vsp1_dl_manager)
    : result vsp1_dl_manager :=
  match ws with
  | [] => Done s
  | w :: ws =>
      s ← vsp1_dl_list_write dl w.1 w.2 s;
      write_sequence dl ws s
  end.

(** The same for a fragment, with vsp1_dl_fragment_write(). *)
Fixpoint fragment_write_sequence (b : nat) (ws : list (Z * Z))
    (s : vsp1_dl_manager) : result vsp1_dl_manager :=
  match ws with
  | [] => Done s
  | w :: ws =>
      s ← vsp1_dl_fragment_write b w.1 w.2 s;
      fragment_write_sequence b ws s
  end.

(** The body after the writes [ws]. *)
Fixpoint body_writes (ws : list (Z * Z)) (dlb : vsp1_dl_body) : vsp1_dl_body :=
  match ws with
  | [] => dlb
  | w :: ws => body_writes ws (body_write w.1 w.2 dlb)
  end.

(** A body written within its capacity: the entries written lie in its
    DMA memory. *)
Definition within_capacity (dlb : vsp1_dl_body) : Prop :=
  (0 ≤ dlb_num_entries dlb)%Z ∧
  (dlb_num_entries dlb * sizeof_entry ≤ dlb_size dlb)%Z.

(** A caller that calls vsp1_dl_list_get() [n] times, and what the calls
    returned. *)
Fixpoint get_sequence (n : nat) (s : vsp1_dl_manager)
    : result (list (option nat) * vsp1_dl_manager) :=
  match n with
  | O => Done ([], s)
  | S n =>
      '(o, s) ← vsp1_dl_list_get s;
      '(os, s) ← get_sequence n s;
      Done (o :: os, s)
  end.

(** The fragments of the display lists [D], in the order of [D]. *)
Definition fragments_of (v : dl_view) (D : list nat) : list nat :=
  concat (fragments v <$> D).

(** The display lists of the three slots with their chains, as
    vsp1_dlm_reset() releases them. *)
Definition reset_lists (s : vsp1_dl_manager) (Ca Cq Cp : list nat)
    : list nat :=
  slot_lists (active s) Ca ++ slot_lists (queued s) Cq ++
  slot_lists (pending s) Cp.

(** What the release of memory leaves as it was: the configuration, the
    slots, the registers and the warnings. *)
Record slots_kept (s s' : vsp1_dl_manager) : Prop := SlotsKept {
  sk_index : index s' = index s;
  sk_mode : mode s' = mode s;
  sk_singleshot : singleshot s' = singleshot s;
  sk_active : active s' = active s;
  sk_queued : queued s' = queued s;
  sk_pending : pending s' = pending s;
  sk_mmio : mmio s' = mmio s;
  sk_warnings : warnings s' = warnings s
}.

(** The display lists of the manager are where they should be: the
    state is well formed, each slot holds a display list that can be
    released with its chain, and no display list is twice among those of
    the free pool and of the slots. *)
Record pipeline_ok (s : vsp1_dl_manager) (v : dl_view) (Ca Cq Cp : list nat)
    : Prop := PipelineOk {
  po_wf : wf s v;
  po_active : slot_chain s (active s) Ca;
  po_queued : slot_chain s (queued s) Cq;
  po_pending : slot_chain s (pending s) Cp;
  po_nodup : NoDup (free_pool v ++ reset_lists s Ca Cq Cp)
}.

(** The display list as vsp1_dl_list_alloc() leaves it, in the mode
    [m] of its manager.  It has no entry, no chain and no internal flag.
    In header mode its memory has 2128 bytes: the 256 entries of the
    primary body and, right after them, where entry 256 would be, the
    header, which ends within the memory, is zero, and has the address
    of the primary body in its first descriptor.  In headerless mode the
    memory has the 2048 bytes of the entries and there is no header. *)
Definition list_layout (m : vsp1_dl_mode) (l : vsp1_dl_list) : Prop :=
  dlb_num_entries (body0 l) = 0%Z ∧ dlb_entries (body0 l) = ∅ ∧
  has_chain l = false ∧ internal l = false ∧
  match m with
  | VSP1_DL_MODE_HEADER =>
      dlb_size (body0 l) = 2128%Z ∧
      dma l = (dlb_dma (body0 l) + VSP1_DL_NUM_ENTRIES * sizeof_entry)%Z ∧
      (dma l + sizeof_header ≤ dlb_dma (body0 l) + dlb_size (body0 l))%Z ∧
      header l =
        Some (Header 0 (HeaderList 0 (u32 (dlb_dma (body0 l)))
                        :: replicate 7 (HeaderList 0 0)) 0 0)
  | VSP1_DL_MODE_HEADERLESS =>
      dlb_size (body0 l) = 2048%Z ∧ header l = None
  end.

(** ** The calls to a manager *)

(** A display list at the same place in memory: the address and the
    size of its primary body, the address of its header, and, in the
    header, the number of descriptors and the address in the first
    one. *)
Definition same_place (l l' : vsp1_dl_list) : Prop :=
  dma l' = dma l ∧
  dlb_dma (body0 l') = dlb_dma (body0 l) ∧
  dlb_size (body0 l') = dlb_size (body0 l) ∧
  option_Forall2
    (λ h h', length (lists h') = length (lists h) ∧
             addr <$> lists h' !! 0 = addr <$> lists h !! 0)
    (header l) (header l').

(** Two states of a manager with the same configuration and the same
    display lists, each at the same place, and with the same value in
    every register outside [W]. *)
Record kept (W : Z → Prop) (s s' : vsp1_dl_manager) : Prop := Kept {
  k_index : index s' = index s;
  k_mode : mode s' = mode s;
  k_singleshot : singleshot s' = singleshot s;
  k_dls : ∀ d, option_Forall2 same_place (dls s !! d) (dls s' !! d);
  k_mmio : ∀ r, ¬ W r → mmio s' !! r = mmio s !! r
}.

(** The addresses that vsp1_dl_list_alloc() gives to a display list: in
    header mode the header is right after the 256 entries of the
    primary body and has, in the first of its eight descriptors, the
    address of that body. *)
Definition placed (m : vsp1_dl_mode) (l : vsp1_dl_list) : Prop :=
  match m with
  | VSP1_DL_MODE_HEADER =>
      dlb_size (body0 l) = 2128%Z ∧
      dma l = (dlb_dma (body0 l) + VSP1_DL_NUM_ENTRIES * sizeof_entry)%Z ∧
      match header l with
      | Some h =>
          length (lists h) = HEADER_LISTS ∧
          addr <$> lists h !! 0 = Some (u32 (dlb_dma (body0 l)))
      | None => False
      end
  | VSP1_DL_MODE_HEADERLESS =>
      dlb_size (body0 l) = 2048%Z ∧ header l = None
  end.

Global Instance placed_dec m l : Decision (placed m l).
Proof. unfold placed. destruct m, (header l); apply _. Defined.

(** The calls that a user of the manager and its hardware can make
    between vsp1_dlm_create() and vsp1_dlm_destroy(); [Hardware] is the
    device changing its registers. *)
Inductive api_call : Type :=
  | Setup (drm : bool)
  | Get
  | Put (dl : option nat)
  | Write (dl : nat) (reg data : Z)
  | FragmentAlloc (num_entries : Z) (mem : option Z)
  | FragmentWrite (dlb : nat) (reg data : Z)
  | FragmentFree (dlb : option nat)
  | AddFragment (dl dlb : nat)
  | AddChain (head dl : nat)
  | Commit (dl : nat) (internal : bool)
  | FrameEnd
  | Reset
  | GarbageCollect
  | Hardware (regs : gmap Z Z).

Section calls.
Context `{vsp1_regs} `{vsp1_setup_regs}.

Definition call (fuel : nat) (c : api_call) (s : vsp1_dl_manager)
    : result vsp1_dl_manager :=
  match c with
  | Setup drm => Done (vsp1_dlm_setup drm s)
  | Get => '(_, s) ← vsp1_dl_list_get s; Done s
  | Put dl => vsp1_dl_list_put fuel dl s
  | Write dl reg data => vsp1_dl_list_write dl reg data s
  | FragmentAlloc n mem => Done (vsp1_dl_fragment_alloc n mem s).2
  | FragmentWrite b reg data => vsp1_dl_fragment_write b reg data s
  | FragmentFree b => vsp1_dl_fragment_free b s
  | AddFragment dl b => '(_, s) ← vsp1_dl_list_add_fragment dl b s; Done s
  | AddChain head dl => '(_, s) ← vsp1_dl_list_add_chain head dl s; Done s
  | Commit dl i => vsp1_dl_list_commit fuel dl i s
  | FrameEnd => '(_, s) ← vsp1_dlm_irq_frame_end fuel s; Done s
  | Reset => vsp1_dlm_reset fuel s
  | GarbageCollect => vsp1_dlm_garbage_collect fuel s
  | Hardware regs => Done (set_mmio regs s)
  end.

Fixpoint calls (fuel : nat) (cs : list api_call) (s : vsp1_dl_manager)
    : result vsp1_dl_manager :=
  match cs with
  | [] => Done s
  | c :: cs => s ← call fuel c s; calls fuel cs s
  end.

(** The registers that vsp1_dl_list_hw_enqueue() writes. *)
Definition dl_registers (s : vsp1_dl_manager) : list Z :=
  if decide (mode s = VSP1_DL_MODE_HEADERLESS)
  then [VI6_DL_HDR_ADDR 0; VI6_DL_BODY_SIZE]
  else [VI6_DL_HDR_ADDR (index s)].

(** Whether register [r] is one that call [c] can change. *)
Definition may_write (s : vsp1_dl_manager) (r : Z) (c : api_call) : bool :=
  match c with
  | Hardware _ => true
  | Setup _ => bool_decide (r ∈ [VI6_DL_CTRL; VI6_DL_SWAP])
  | Commit _ _ | FrameEnd => bool_decide (r ∈ dl_registers s)
  | _ => false
  end.

(** Whether call [c], made in state [s], stays within the memory of
    the body it concerns: a write to a display list finds fewer than
    256 entries in the primary body, a write to a fragment finds room
    for one more entry in the memory of the fragment, and a fragment is
    allocated for fewer than 2^29 entries, so that its size in bytes is
    below 2^32. *)
Definition call_fits (s : vsp1_dl_manager) (c : api_call) : bool :=
  match c with
  | Write dl _ _ =>
      match dls s !! dl with
      | Some l =>
          bool_decide
            (0 ≤ dlb_num_entries (body0 l) < VSP1_DL_NUM_ENTRIES)%Z
      | None => true
      end
  | FragmentWrite b _ _ =>
      match dlbs s !! b with
      | Some dlb =>
          bool_decide
            (0 ≤ dlb_num_entries dlb ∧
             (dlb_num_entries dlb + 1) * sizeof_entry ≤ dlb_size dlb)%Z
      | None => true
      end
  | FragmentAlloc n _ => bool_decide (0 ≤ n < 2 ^ 29)%Z
  | _ => true
  end.

(** Whether every call of a sequence fits, each in the state in which
    it is made. *)
Fixpoint calls_fit (fuel : nat) (cs : list api_call) (s : vsp1_dl_manager)
    : bool :=
  match cs with
  | [] => true
  | c :: cs =>
      call_fits s c &&
      match call fuel c s with
      | Done s => calls_fit fuel cs s
      | _ => true
      end
  end.
End calls.

(** ** Further example states *)

(** The manager of the examples, before any call, evaluated. *)
Definition fresh_manager : vsp1_dl_manager :=
  Eval vm_compute in created false.

(** The manager [ready] after the release of display list 0: lists 1 and
    0 are back in the free pool, and body 0, the fragment of list 0, is
    on the garbage list. *)
Definition released : vsp1_dl_manager :=
  Eval vm_compute in then_do (vsp1_dl_list_put 10 (Some 0)) ready.
Definition released_view : dl_view := View [3; 4; 1; 0] [0] (λ _, []).

(** A continuous manager with every display list in the pool or in a
    slot: list 0 is active, with list 1 chained to it and with its
    fragment, list 2 is queued, lists 3 and 4 are in the pool. *)
Definition running : vsp1_dl_manager :=
  Eval vm_compute in
  let s := prepared false in
  let s := then_do (vsp1_dl_list_commit (H := example_regs) 10 0 false) s in
  let s := (returned (vsp1_dlm_irq_frame_end (H := example_regs) 10 s)
                     (0%Z, s)).2 in
  then_do (vsp1_dl_list_commit (H := example_regs) 10 2 true) s.
Definition running_view : dl_view :=
  View [3; 4] [] (λ d, if decide (d = 0) then [0] else []).

(** The manager [ready] after the commit of display list 0 with the
    internal flag. *)
Definition committed : vsp1_dl_manager :=
  Eval vm_compute in
  then_do (vsp1_dl_list_commit (H := example_regs) 10 0 true) ready.

(** A sequence of calls to the manager of the examples: the device is
    set up and three display lists are taken; list 0 is given two entries, a fragment and list 1
    as its chain, and is committed; after the frame end list 2 is
    committed; after the next frame end a list is taken and put back,
    the collector runs and the manager is reset. *)
Definition example_calls : list api_call :=
  [Setup true; Get; Get; Get; Write 0 256 1; Write 0 260 2;
   FragmentAlloc 16 (Some 1048576%Z); FragmentWrite 0 512 7;
   AddFragment 0 0; AddChain 0 1; Commit 0 false; FrameEnd;
   Write 2 256 9; Commit 2 true; FrameEnd; Get; Put (Some 3);
   GarbageCollect; Reset].

(** The manager after these calls. *)
Definition after_calls : vsp1_dl_manager :=
  Eval vm_compute in
  then_do (calls (H := example_regs) (H0 := example_setup_regs) 10
             example_calls) fresh_manager.

(** * Properties *)

(** A decidable property of a concrete state, by evaluation. *)
Ltac by_computation := apply (bool_decide_unpack _); vm_compute; exact I.

(** ** The result monad *)

Lemma bind_Done {A B} (f : A → result B) (a : A) : (Done a ≫= f) = f a.
Proof. reflexivity. Qed.

(** ** Kernel lists: the primitives *)

Section klist_facts.
Context `{Countable K}.
Implicit Types (m : gmap K (list_head K)) (a b h : K) (l : list K).

Lemma nxt_Some_valid m a p : nxt m a = Some p → is_Some (m !! a).
Proof. unfold nxt. destruct (m !! a); naive_solver. Qed.

Lemma prv_Some_valid m a p : prv m a = Some p → is_Some (m !! a).
Proof. unfold prv. destruct (m !! a); naive_solver. Qed.

Lemma rd_next_Done m a p : nxt m a = Some p → rd_next a m = Done p.
Proof.
  unfold nxt, rd_next, load. destruct (m !! a); simpl; congruence.
Qed.

Lemma rd_prev_Done m a p : prv m a = Some p → rd_prev a m = Done p.
Proof.
  unfold prv, rd_prev, load. destruct (m !! a); simpl; congruence.
Qed.

Lemma wr_next_spec a v m :
  is_Some (m !! a) →
  ∃ m', wr_next a v m = Done m' ∧
    (∀ b, is_Some (m' !! b) ↔ is_Some (m !! b)) ∧
    (∀ b, nxt m' b = if decide (b = a) then Some v else nxt m b) ∧
    (∀ b, prv m' b = prv m b) ∧
    (∀ b, b ≠ a → m' !! b = m !! b).
Proof.
  intros [c Hc]. unfold wr_next, load. rewrite Hc. simpl.
  eexists. split; [reflexivity|]. unfold nxt, prv.
  split; [|split; [|split]]; intros b.
  - destruct (decide (b = a)) as [->|];
      [rewrite lookup_insert_eq, Hc; split; eauto|by rewrite lookup_insert_ne by congruence].
  - destruct (decide (b = a)) as [->|]; [by rewrite lookup_insert_eq|].
    by rewrite lookup_insert_ne by congruence.
  - destruct (decide (b = a)) as [->|];
      [by rewrite lookup_insert_eq, Hc|by rewrite lookup_insert_ne by congruence].
  - intros Hb. by rewrite lookup_insert_ne by congruence.
Qed.

Lemma wr_prev_spec a v m :
  is_Some (m !! a) →
  ∃ m', wr_prev a v m = Done m' ∧
    (∀ b, is_Some (m' !! b) ↔ is_Some (m !! b)) ∧
    (∀ b, nxt m' b = nxt m b) ∧
    (∀ b, prv m' b = if decide (b = a) then Some v else prv m b) ∧
    (∀ b, b ≠ a → m' !! b = m !! b).
Proof.
  intros [c Hc]. unfold wr_prev, load. rewrite Hc. simpl.
  eexists. split; [reflexivity|]. unfold nxt, prv.
  split; [|split; [|split]]; intros b.
  - destruct (decide (b = a)) as [->|];
      [rewrite lookup_insert_eq, Hc; split; eauto|by rewrite lookup_insert_ne by congruence].
  - destruct (decide (b = a)) as [->|];
      [by rewrite lookup_insert_eq, Hc|by rewrite lookup_insert_ne by congruence].
  - destruct (decide (b = a)) as [->|]; [by rewrite lookup_insert_eq|].
    by rewrite lookup_insert_ne by congruence.
  - intros Hb. by rewrite lookup_insert_ne by congruence.
Qed.

Lemma INIT_LIST_HEAD_spec a m :
  is_Some (m !! a) →
  ∃ m', INIT_LIST_HEAD a m = Done m' ∧
    (∀ b, is_Some (m' !! b) ↔ is_Some (m !! b)) ∧
    (∀ b, nxt m' b = if decide (b = a) then Some (Ptr a) else nxt m b) ∧
    (∀ b, prv m' b = if decide (b = a) then Some (Ptr a) else prv m b) ∧
    (∀ b, b ≠ a → m' !! b = m !! b).
Proof.
  intros Ha. unfold INIT_LIST_HEAD.
  destruct (wr_next_spec a (Ptr a) m Ha) as (m1 & -> & D1 & N1 & P1 & F1).
  rewrite bind_Done.
  destruct (wr_prev_spec a (Ptr a) m1) as (m2 & -> & D2 & N2 & P2 & F2);
    [by apply D1|].
  eexists; split; [reflexivity|].
  split; [|split; [|split]]; intros b.
  - by rewrite D2, D1.
  - by rewrite N2, N1.
  - by rewrite P2, P1.
  - intros Hb. by rewrite F2, F1.
Qed.

Lemma list_add_tail_spec new h q m :
  prv m h = Some (Ptr q) → is_Some (m !! new) → is_Some (m !! q) →
  ∃ m', list_add_tail new h m = Done m' ∧
    (∀ b, is_Some (m' !! b) ↔ is_Some (m !! b)) ∧
    (∀ b, nxt m' b = if decide (b = q) then Some (Ptr new)
                     else if decide (b = new) then Some (Ptr h)
                     else nxt m b) ∧
    (∀ b, prv m' b = if decide (b = new) then Some (Ptr q)
                     else if decide (b = h) then Some (Ptr new)
                     else prv m b) ∧
    (∀ b, b ≠ h → b ≠ new → b ≠ q → m' !! b = m !! b).
Proof.
  intros Hq Hnew Hqv. pose proof (prv_Some_valid _ _ _ Hq) as Hh.
  unfold list_add_tail. rewrite (rd_prev_Done _ _ _ Hq), bind_Done.
  simpl. unfold __list_add.
  destruct (wr_prev_spec h (Ptr new) m Hh) as (m1 & -> & D1 & N1 & P1 & F1).
  rewrite bind_Done.
  destruct (wr_next_spec new (Ptr h) m1) as (m2 & -> & D2 & N2 & P2 & F2);
    [by apply D1|]. rewrite bind_Done.
  destruct (wr_prev_spec new (Ptr q) m2) as (m3 & -> & D3 & N3 & P3 & F3);
    [by apply D2, D1|]. rewrite bind_Done.
  destruct (wr_next_spec q (Ptr new) m3) as (m4 & -> & D4 & N4 & P4 & F4);
    [by apply D3, D2, D1|].
  eexists; split; [reflexivity|].
  split; [|split; [|split]]; intros b.
  - by rewrite D4, D3, D2, D1.
  - by rewrite N4, N3, N2, N1.
  - by rewrite P4, P3, P2, P1.
  - intros. by rewrite F4, F3, F2, F1.
Qed.

Lemma list_del_spec e p n m :
  prv m e = Some (Ptr p) → nxt m e = Some (Ptr n) →
  is_Some (m !! p) → is_Some (m !! n) →
  ∃ m', list_del e m = Done m' ∧
    (∀ b, is_Some (m' !! b) ↔ is_Some (m !! b)) ∧
    (∀ b, nxt m' b = if decide (b = e) then Some LIST_POISON1
                     else if decide (b = p) then Some (Ptr n)
                     else nxt m b) ∧
    (∀ b, prv m' b = if decide (b = e) then Some LIST_POISON2
                     else if decide (b = n) then Some (Ptr p)
                     else prv m b) ∧
    (∀ b, b ≠ e → b ≠ p → b ≠ n → m' !! b = m !! b).
Proof.
  intros Hp Hn Hpv Hnv. pose proof (prv_Some_valid _ _ _ Hp) as He.
  unfold list_del.
  rewrite (rd_prev_Done _ _ _ Hp), bind_Done.
  rewrite (rd_next_Done _ _ _ Hn), bind_Done.
  simpl. unfold __list_del.
  destruct (wr_prev_spec n (Ptr p) m Hnv) as (m1 & -> & D1 & N1 & P1 & F1).
  rewrite bind_Done.
  destruct (wr_next_spec p (Ptr n) m1) as (m2 & -> & D2 & N2 & P2 & F2);
    [by apply D1|]. rewrite bind_Done.
  destruct (wr_next_spec e LIST_POISON1 m2) as (m3 & -> & D3 & N3 & P3 & F3);
    [by apply D2, D1|]. rewrite bind_Done.
  destruct (wr_prev_spec e LIST_POISON2 m3) as (m4 & -> & D4 & N4 & P4 & F4);
    [by apply D3, D2, D1|].
  eexists; split; [reflexivity|].
  split; [|split; [|split]]; intros b.
  - by rewrite D4, D3, D2, D1.
  - by rewrite N4, N3, N2, N1.
  - by rewrite P4, P3, P2, P1.
  - intros. by rewrite F4, F3, F2, F1.
Qed.

Lemma list_empty_Done m h p :
  nxt m h = Some p → list_empty h m = Done (bool_decide (p = Ptr h)).
Proof. intros Hp. unfold list_empty. by rewrite (rd_next_Done _ _ _ Hp). Qed.

Lemma list_is_last_Done m a h p :
  nxt m a = Some p → list_is_last a h m = Done (bool_decide (p = Ptr h)).
Proof. intros Hp. unfold list_is_last. by rewrite (rd_next_Done _ _ _ Hp). Qed.

Lemma list_splice_init_spec list head first last n m :
  nxt m list = Some (Ptr first) → prv m list = Some (Ptr last) →
  nxt m head = Some (Ptr n) → first ≠ list →
  is_Some (m !! first) → is_Some (m !! last) → is_Some (m !! n) →
  ∃ m', list_splice_init list head m = Done m' ∧
    (∀ b, is_Some (m' !! b) ↔ is_Some (m !! b)) ∧
    (∀ b, nxt m' b = if decide (b = list) then Some (Ptr list)
                     else if decide (b = last) then Some (Ptr n)
                     else if decide (b = head) then Some (Ptr first)
                     else nxt m b) ∧
    (∀ b, prv m' b = if decide (b = list) then Some (Ptr list)
                     else if decide (b = n) then Some (Ptr last)
                     else if decide (b = first) then Some (Ptr head)
                     else prv m b) ∧
    (∀ b, b ≠ list → b ≠ head → b ≠ first → b ≠ last → b ≠ n →
          m' !! b = m !! b).
Proof.
  intros Hf Hl Hn Hne Hfv Hlv Hnv.
  pose proof (nxt_Some_valid _ _ _ Hf) as Hlist.
  pose proof (nxt_Some_valid _ _ _ Hn) as Hhead.
  unfold list_splice_init. rewrite (list_empty_Done _ _ _ Hf), bind_Done.
  rewrite bool_decide_eq_false_2 by congruence.
  rewrite (rd_next_Done _ _ _ Hn), bind_Done. simpl.
  unfold __list_splice.
  rewrite (rd_next_Done _ _ _ Hf), bind_Done.
  rewrite (rd_prev_Done _ _ _ Hl), bind_Done. simpl.
  destruct (wr_prev_spec first (Ptr head) m Hfv)
    as (m1 & -> & D1 & N1 & P1 & F1). rewrite bind_Done.
  destruct (wr_next_spec head (Ptr first) m1) as (m2 & -> & D2 & N2 & P2 & F2);
    [by apply D1|]. rewrite bind_Done.
  destruct (wr_next_spec last (Ptr n) m2) as (m3 & -> & D3 & N3 & P3 & F3);
    [by apply D2, D1|]. rewrite bind_Done.
  destruct (wr_prev_spec n (Ptr last) m3) as (m4 & -> & D4 & N4 & P4 & F4);
    [by apply D3, D2, D1|]. rewrite bind_Done.
  destruct (INIT_LIST_HEAD_spec list m4) as (m5 & -> & D5 & N5 & P5 & F5);
    [by apply D4, D3, D2, D1|].
  eexists; split; [reflexivity|].
  split; [|split; [|split]]; intros b.
  - by rewrite D5, D4, D3, D2, D1.
  - by rewrite N5, N4, N3, N2, N1.
  - by rewrite P5, P4, P3, P2, P1.
  - intros. by rewrite F5, F4, F3, F2, F1.
Qed.
End klist_facts.

(** ** Kernel lists: well-formed lists *)

Section ring_facts.
Context `{Countable K}.
Implicit Types (m : gmap K (list_head K)) (a b h : K) (l : list K).

Lemma last_cons_default {A} (x y : A) (l : list A) :
  List.last (x :: l) y = List.last l x.
Proof.
  revert x y. induction l as [|z l IH]; intros x y; [done|].
  change (List.last (z :: l) y = List.last (z :: l) x). by rewrite !IH.
Qed.

Lemma last_elem_of {A} (x : A) (l : list A) : List.last l x ∈ x :: l.
Proof.
  revert x. induction l as [|y l IH]; intros x; [set_solver|].
  rewrite last_cons_default. specialize (IH y). set_solver.
Qed.

Lemma linked_app m a l1 b l2 z :
  linked m a (l1 ++ b :: l2) z ↔ linked m a l1 b ∧ linked m b l2 z.
Proof.
  revert a. induction l1 as [|c l1 IH]; intros a; simpl; [done|].
  rewrite IH. tauto.
Qed.

Lemma linked_first m a l z : linked m a l z → nxt m a = Some (Ptr (hd z l)).
Proof. destruct l; simpl; unfold link; tauto. Qed.

Lemma linked_last m a l z :
  linked m a l z → prv m z = Some (Ptr (List.last l a)).
Proof.
  revert a. induction l as [|c l IH]; intros a.
  - simpl. unfold link. tauto.
  - intros [_ Hl]. rewrite last_cons_default. by apply IH.
Qed.

Lemma linked_valid m a l z x :
  linked m a l z → x ∈ a :: l ++ [z] → is_Some (m !! x).
Proof.
  revert a. induction l as [|c l IH]; intros a; simpl.
  - intros [Hn Hp] Hx. apply elem_of_cons in Hx as [->|Hx];
      [by eapply nxt_Some_valid|].
    apply list_elem_of_singleton in Hx as ->. by eapply prv_Some_valid.
  - intros [[Hn Hp] Hl] Hx. apply elem_of_cons in Hx as [->|Hx];
      [by eapply nxt_Some_valid|]. by apply (IH c).
Qed.

(** A list only depends on the cells of its head and nodes. *)
Lemma linked_ext m m' a l z :
  linked m a l z →
  (∀ x, x ∈ a :: l → nxt m' x = nxt m x) →
  (∀ y, y ∈ l ++ [z] → prv m' y = prv m y) →
  linked m' a l z.
Proof.
  revert a. induction l as [|c l IH]; intros a; simpl.
  - intros [Hn Hp] HN HP. split; [rewrite HN|rewrite HP]; set_solver.
  - intros [[Hn Hp] Hl] HN HP. split; [split|].
    + rewrite HN; set_solver.
    + rewrite HP; set_solver.
    + apply IH; [done|intros; apply HN|intros; apply HP]; set_solver.
Qed.

(** The last node of a list is linked to a new end. *)
Lemma linked_retarget m m' a l z z' :
  linked m a l z → NoDup (a :: l) →
  nxt m' (List.last l a) = Some (Ptr z') →
  prv m' z' = Some (Ptr (List.last l a)) →
  (∀ x, x ∈ a :: l → x ≠ List.last l a → nxt m' x = nxt m x) →
  (∀ y, y ∈ l → prv m' y = prv m y) →
  linked m' a l z'.
Proof.
  revert a. induction l as [|c l IH]; intros a.
  - simpl. intros. by split.
  - rewrite last_cons_default.
    intros [[Hn Hp] Hl] Hnd HN' HP' HN HP.
    apply NoDup_cons in Hnd as [Ha Hnd].
    assert (a ≠ List.last l c).
    { intros ->. apply Ha, last_elem_of. }
    split; [split|].
    + rewrite HN; [done|set_solver|done].
    + rewrite HP; set_solver.
    + apply IH; try done.
      * intros x Hx Hne. apply HN; [set_solver|done].
      * intros y Hy. apply HP. set_solver.
Qed.

Lemma ring_ext m m' h l :
  ring m h l → (∀ x, x ∈ h :: l → m' !! x = m !! x) → ring m' h l.
Proof.
  intros [Hnd Hl] Hx. split; [done|].
  eapply linked_ext; [done| |]; intros y Hy; unfold nxt, prv;
    rewrite Hx; set_solver.
Qed.

Lemma ring_valid m h l x : ring m h l → x ∈ h :: l → is_Some (m !! x).
Proof. intros [_ Hl] Hx. eapply linked_valid; [done|set_solver]. Qed.

Lemma ring_first m h l : ring m h l → nxt m h = Some (Ptr (hd h l)).
Proof. intros [_ Hl]. by apply linked_first. Qed.

Lemma ring_last m h l : ring m h l → prv m h = Some (Ptr (List.last l h)).
Proof. intros [_ Hl]. by apply linked_last. Qed.

Lemma ring_list_empty m h l :
  ring m h l → list_empty h m = Done (bool_decide (l = [])).
Proof.
  intros Hr. rewrite (list_empty_Done _ _ _ (ring_first _ _ _ Hr)).
  f_equal. destruct Hr as [Hnd _]. destruct l as [|c l]; simpl.
  - by rewrite !bool_decide_eq_true_2.
  - apply bool_decide_eq_false_2.
    intros [= ->]. apply NoDup_cons in Hnd. set_solver.
Qed.

(** INIT_LIST_HEAD() makes an empty list. *)
Lemma ring_init m a :
  is_Some (m !! a) →
  ∃ m', INIT_LIST_HEAD a m = Done m' ∧ ring m' a [] ∧
    (∀ b, is_Some (m' !! b) ↔ is_Some (m !! b)) ∧
    (∀ b, b ≠ a → m' !! b = m !! b).
Proof.
  intros Ha.
  destruct (INIT_LIST_HEAD_spec a m Ha) as (m' & E & D & N & P & F).
  exists m'. split; [done|]. split; [|done].
  split; [apply NoDup_singleton|]. simpl. split.
  - rewrite N. by rewrite decide_True.
  - rewrite P. by rewrite decide_True.
Qed.

(** list_add_tail() appends a node. *)
Lemma ring_add_tail m h l new :
  ring m h l → new ∉ h :: l → is_Some (m !! new) →
  ∃ m', list_add_tail new h m = Done m' ∧ ring m' h (l ++ [new]) ∧
    (∀ b, is_Some (m' !! b) ↔ is_Some (m !! b)) ∧
    (∀ b, b ≠ new → b ∉ h :: l → m' !! b = m !! b).
Proof.
  intros Hr Hnew Hv. pose proof Hr as [Hnd Hl].
  pose proof (ring_last _ _ _ Hr) as Hq.
  pose proof (last_elem_of h l) as Hql.
  destruct (list_add_tail_spec new h (List.last l h) m Hq Hv)
    as (m' & E & D & N & P & F); [by eapply ring_valid|].
  assert (new ≠ h) by set_solver.
  assert (new ≠ List.last l h) by (intros ->; done).
  exists m'. split; [done|]. split; [|split; [done|]].
  - split.
    + rewrite app_comm_cons. apply NoDup_app. split; [done|].
      split; [|apply NoDup_singleton]. set_solver.
    + apply linked_app. split.
      * eapply linked_retarget; [done|done| | | |].
        -- rewrite N. by rewrite decide_True.
        -- rewrite P. by rewrite decide_True.
        -- intros x Hx Hne. rewrite N.
           rewrite decide_False by done. rewrite decide_False; [done|].
           intros ->. done.
        -- intros y Hy. rewrite P.
           rewrite decide_False by (intros ->; set_solver).
           rewrite decide_False; [done|]. intros ->.
           apply NoDup_cons in Hnd. tauto.
      * simpl. split.
        -- rewrite N. rewrite decide_False by done. by rewrite decide_True.
        -- rewrite P. rewrite decide_False by done. by rewrite decide_True.
  - intros b Hb Hbl. apply F; [set_solver|done|].
    intros ->. done.
Qed.

(** list_del() of the first node. *)
Lemma ring_del_first m h e l :
  ring m h (e :: l) →
  ∃ m', list_del e m = Done m' ∧ ring m' h l ∧
    (∀ b, is_Some (m' !! b) ↔ is_Some (m !! b)) ∧
    (∀ b, b ∉ h :: e :: l → m' !! b = m !! b).
Proof.
  intros Hr. pose proof Hr as [Hnd [[Hhe Heh] Hl]].
  pose proof (linked_first _ _ _ _ Hl) as Hn.
  apply NoDup_cons in Hnd as [Hh Hnd].
  apply NoDup_cons in Hnd as [He Hnd].
  assert (h ≠ e) by set_solver.
  destruct (list_del_spec e h (hd h l) m Heh Hn)
    as (m' & E & D & N & P & F).
  { eapply ring_valid; [done|set_solver]. }
  { eapply ring_valid; [done|]. destruct l; set_solver. }
  exists m'. split; [done|]. split; [|split; [done|]].
  - split; [apply NoDup_cons; set_solver|].
    destruct l as [|c l]; simpl in *.
    + split.
      * rewrite N. rewrite decide_False by done. by rewrite decide_True.
      * rewrite P. rewrite decide_False by done. by rewrite decide_True.
    + destruct Hl as [Hec Hl].
      apply NoDup_cons in Hnd as [Hc Hnd].
      split; [split|].
      * rewrite N. rewrite decide_False by done. by rewrite decide_True.
      * rewrite P. rewrite decide_False by set_solver. by rewrite decide_True.
      * eapply linked_ext; [done| |].
        -- intros x Hx. rewrite N.
           rewrite decide_False by (intros ->; set_solver).
           rewrite decide_False; [done|]. intros ->. set_solver.
        -- intros y Hy. rewrite P.
           rewrite decide_False by (intros ->; set_solver).
           rewrite decide_False; [done|]. intros ->.
           apply elem_of_app in Hy as [Hy|Hy]; set_solver.
  - intros b Hb. apply F; [set_solver|set_solver|].
    intros ->. destruct l; set_solver.
Qed.

(** list_splice_init() moves the nodes of a list to the front of
    another one. *)
Lemma ring_splice m h1 l1 h2 l2 :
  ring m h1 l1 → ring m h2 l2 → (∀ x, x ∈ h1 :: l1 → x ∉ h2 :: l2) →
  ∃ m', list_splice_init h1 h2 m = Done m' ∧
    ring m' h1 [] ∧ ring m' h2 (l1 ++ l2) ∧
    (∀ b, is_Some (m' !! b) ↔ is_Some (m !! b)) ∧
    (∀ b, b ∉ h1 :: l1 → b ∉ h2 :: l2 → m' !! b = m !! b).
Proof.
  intros Hr1 Hr2 Hdisj.
  destruct l1 as [|f l1].
  { exists m. unfold list_splice_init.
    rewrite (ring_list_empty _ _ _ Hr1). simpl. done. }
  pose proof Hr1 as [Hnd1 [[Hhf Hfh] Hl1]].
  pose proof Hr2 as [Hnd2 Hl2].
  pose proof (ring_last _ _ _ Hr1) as Hlast.
  rewrite last_cons_default in Hlast.
  pose proof (ring_first _ _ _ Hr2) as Hn.
  pose proof (last_elem_of f l1) as Hlastin.
  apply NoDup_cons in Hnd1 as [Hh1 Hnd1].
  pose proof Hnd1 as Hnd1'.
  apply NoDup_cons in Hnd1 as [Hf Hnd1].
  pose proof Hnd2 as Hnd2'.
  apply NoDup_cons in Hnd2 as [Hh2 Hnd2].
  assert (hd h2 l2 ∈ h2 :: l2) as Hnin by (destruct l2; set_solver).
  assert (f ≠ h1) by set_solver.
  destruct (list_splice_init_spec h1 h2 f (List.last l1 f) (hd h2 l2) m)
    as (m' & E & D & N & P & F); try done.
  { eapply ring_valid; [exact Hr1|set_solver]. }
  { eapply ring_valid; [exact Hr1|set_solver]. }
  { eapply ring_valid; [exact Hr2|done]. }
  assert (List.last l1 f ≠ h1) by (intros Heq; rewrite Heq in Hlastin; set_solver).
  assert (h2 ≠ h1) by (intros ->; set_solver).
  assert (List.last l1 f ≠ h2).
  { intros Heq. rewrite Heq in Hlastin. apply (Hdisj h2); set_solver. }
  assert (hd h2 l2 ≠ h1).
  { intros Heq. rewrite Heq in Hnin. apply (Hdisj h1); set_solver. }
  assert (hd h2 l2 ≠ f).
  { intros Heq. rewrite Heq in Hnin. apply (Hdisj f); set_solver. }
  exists m'. split; [done|].
  split; [|split; [|split; [done|]]].
  - split; [apply NoDup_singleton|]. simpl. split.
    + rewrite N. by rewrite decide_True.
    + rewrite P. by rewrite decide_True.
  - split.
    + apply NoDup_cons. split.
      * intros Hin.
        apply elem_of_app in Hin as [Hin|Hin]; [|done].
        apply (Hdisj h2); set_solver.
      * apply NoDup_app. split; [done|]. split; [|done].
        intros x Hx Hx2. apply (Hdisj x); set_solver.
    + rewrite <- app_comm_cons. split; [split|].
      * rewrite N. rewrite decide_False by done.
        rewrite decide_False by done. by rewrite decide_True.
      * rewrite P. rewrite decide_False by done.
        rewrite decide_False by done. by rewrite decide_True.
      * assert (linked m' f l1 (hd h2 l2)) as Hpart1.
        { eapply linked_retarget; [exact Hl1|done| | | |].
          - rewrite N. rewrite decide_False by done. by rewrite decide_True.
          - rewrite P. rewrite decide_False by done. by rewrite decide_True.
          - intros x Hx Hne. rewrite N.
            rewrite decide_False by (intros ->; set_solver).
            rewrite decide_False by done.
            rewrite decide_False; [done|].
            intros ->. apply (Hdisj h2); set_solver.
          - intros y Hy. rewrite P.
            rewrite decide_False by (intros ->; set_solver).
            rewrite decide_False.
            2:{ intros Heq. rewrite <- Heq in Hnin. apply (Hdisj y); set_solver. }
            rewrite decide_False; [done|]. intros ->. set_solver. }
        destruct l2 as [|g l2]; simpl in *.
        { by rewrite app_nil_r. }
        apply linked_app. split; [done|].
        destruct Hl2 as [Hh2g Hl2].
        apply NoDup_cons in Hnd2 as [Hg Hnd2].
        eapply linked_ext; [exact Hl2| |].
        -- intros x Hx. rewrite N.
           rewrite decide_False.
           2:{ intros ->. apply (Hdisj h1); set_solver. }
           rewrite decide_False.
           2:{ intros Heq. rewrite <- Heq in Hlastin.
               apply (Hdisj x); set_solver. }
           rewrite decide_False; [done|]. intros ->. set_solver.
        -- intros y Hy. rewrite P.
           rewrite decide_False.
           2:{ intros ->. apply (Hdisj h1); set_solver. }
           rewrite decide_False.
           2:{ intros ->. apply elem_of_app in Hy as [Hy|Hy]; set_solver. }
           rewrite decide_False; [done|].
           intros ->. apply (Hdisj f); [set_solver|].
           apply elem_of_app in Hy as [Hy|Hy]; set_solver.
  - intros b Hb1 Hb2. apply F; set_solver.
Qed.

Lemma linked_middle m a l1 c l2 z :
  linked m a (l1 ++ c :: l2) z → nxt m c = Some (Ptr (hd z l2)).
Proof. intros [_ Hl]%linked_app. by apply linked_first. Qed.

(** A walk over a list, with an invariant [I] of the nodes still to be
    visited and of the state: enough fuel takes it to the end. *)
Lemma list_for_each_from_spec {S} (links : S → gmap K (list_head K))
    (head : K) (body : K → S → result S) (I : list K → S → Prop) :
  (∀ a l s, I (a :: l) s →
     a ≠ head ∧
     ∃ s', body a s = Done s' ∧ I l s' ∧
           nxt (links s') a = Some (Ptr (hd head l))) →
  ∀ ns s fuel, length ns < fuel → I ns s →
  ∃ s', list_for_each_from links head body fuel (hd head ns) s = Done s' ∧
        I [] s'.
Proof.
  intros Hstep ns. induction ns as [|a l IH]; intros s fuel Hfuel HI.
  - destruct fuel as [|fuel]; [simpl in Hfuel; lia|]. simpl.
    rewrite decide_True by done. eauto.
  - destruct fuel as [|fuel]; [simpl in Hfuel; lia|]. simpl.
    destruct (Hstep a l s HI) as (Hne & s' & Hb & HI' & Hn).
    rewrite decide_False by done. rewrite Hb, bind_Done.
    rewrite (rd_next_Done _ _ _ Hn), bind_Done. simpl.
    apply IH; [simpl in Hfuel; lia|done].
Qed.

Lemma list_for_each_entry_spec {S} (links : S → gmap K (list_head K))
    (head : K) (body : K → S → result S) (I : list K → S → Prop) :
  (∀ a l s, I (a :: l) s →
     a ≠ head ∧
     ∃ s', body a s = Done s' ∧ I l s' ∧
           nxt (links s') a = Some (Ptr (hd head l))) →
  ∀ ns s fuel, length ns < fuel → I ns s →
  nxt (links s) head = Some (Ptr (hd head ns)) →
  ∃ s', list_for_each_entry links head body fuel s = Done s' ∧ I [] s'.
Proof.
  intros Hstep ns s fuel Hfuel HI Hn. unfold list_for_each_entry.
  rewrite (rd_next_Done _ _ _ Hn), bind_Done. simpl.
  by eapply list_for_each_from_spec.
Qed.
End ring_facts.

(** ** Releasing a display list *)

Lemma modify_dl_Done d f s l :
  dls s !! d = Some l →
  modify_dl d f s = Done (set_dls (<[d := f l]> (dls s)) s).
Proof. intros Hl. unfold modify_dl, get_dl. by rewrite Hl. Qed.

Lemma on_links_Done f s m :
  f (links s) = Done m → on_links f s = Done (set_links m s).
Proof. intros Hm. unfold on_links. by rewrite Hm. Qed.

Lemma released_only_refl s : released_only s s.
Proof. by constructor. Qed.

Lemma released_only_trans s1 s2 s3 :
  released_only s1 s2 → released_only s2 s3 → released_only s1 s3.
Proof.
  intros [] []. constructor; congruence.
Qed.

(** The release of a display list without its chain. *)
Lemma put_self_spec s v d l :
  wf s v → dls s !! d = Some l → d ∉ free_pool v →
  ∃ s', put_self d s = Done s' ∧
    wf s' (release1 v d) ∧ released_only s s' ∧
    dls s' = <[d := recycled l]> (dls s) ∧
    gc_work s' = (if bool_decide (fragments v d = []) then gc_work s else true).
Proof.
  intros Hwf Hl Hd. pose proof Hwf as [].
  assert (is_Some (dls s !! d)) as Hdv by eauto.
  unfold put_self. rewrite (modify_dl_Done _ _ _ _ Hl), bind_Done.
  set (s1 := set_dls _ s).
  pose proof (wf_frags0 d Hdv) as Hfr. unfold fragments_are in Hfr.
  change (links s1) with (links s).
  rewrite (ring_list_empty _ _ _ Hfr), bind_Done.
  destruct (ring_splice (links s) (DL_FRAGMENTS d) _ DLM_GC_FRAGMENTS _ Hfr
              wf_gc0) as (m2 & E2 & R2a & R2b & D2 & F2).
  { specialize (wf_frags_gc0 d). set_solver. }
  set (g := if bool_decide (fragments v d = []) then gc_work s else true).
  assert ((if bool_decide (DLB_LIST <$> fragments v d = [])
           then Done s1
           else s0 ← on_links
                  (list_splice_init (DL_FRAGMENTS d) DLM_GC_FRAGMENTS) s1;
                Done (schedule_work s0))
          = Done (set_gc_work g (set_links m2 s1))) as ->.
  { subst g. destruct (fragments v d) as [|b F] eqn:HF; simpl.
    - unfold list_splice_init in E2.
      rewrite (ring_list_empty _ _ _ Hfr) in E2. simpl in E2.
      injection E2 as <-. by destruct s.
    - by rewrite (on_links_Done _ s1 _ E2). }
  rewrite bind_Done.
  rewrite (modify_dl_Done _ _ _ (set_has_chain false l))
    by apply lookup_insert_eq.
  rewrite bind_Done. simpl.
  destruct (ring_add_tail m2 DLM_FREE (DL_LIST <$> free_pool v) (DL_LIST d))
    as (m3 & E3 & R3 & D3 & F3).
  { apply (ring_ext (links s)); [done|]. intros x Hx. apply F2; set_solver. }
  { set_solver. }
  { apply D2, wf_cells0, Hdv. }
  unfold on_links. simpl. rewrite E3, bind_Done. simpl.
  rewrite insert_insert_eq.
  eexists; split; [reflexivity|].
  assert (∀ d', is_Some (<[d := recycled l]> (dls s) !! d')
                ↔ is_Some (dls s !! d')) as Hdom.
  { intros d'. rewrite lookup_insert_is_Some. split.
    - intros [<-|[_ ?]]; done.
    - intros Hs. destruct (decide (d = d')); [by left|by right]. }
  split; [|split; [|split]].
  - constructor; simpl.
    + unfold pool_is. simpl. by rewrite fmap_app.
    + intros d' Hd'. apply Hdom. set_solver.
    + unfold gc_is. simpl. rewrite fmap_app.
      apply (ring_ext m2); [done|]. intros x Hx. apply F3; set_solver.
    + intros b Hb. apply elem_of_app in Hb as [Hb|Hb]; eauto.
    + intros d' Hd'. apply Hdom in Hd'. unfold fragments_are. simpl.
      apply (ring_ext m2).
      2:{ intros x Hx. apply F3; [|case_decide]; set_solver. }
      case_decide as Hdd; [by subst|].
      apply (ring_ext (links s)); [by apply wf_frags0|].
      intros x Hx. apply F2.
      * pose proof (wf_frags_disj0 d d'). set_solver.
      * pose proof (wf_frags_gc0 d'). set_solver.
    + intros d' Hd'. apply Hdom in Hd'. rewrite !D3, !D2. by apply wf_cells0.
    + intros d' b Hd'. apply Hdom in Hd'. case_decide; [set_solver|]. eauto.
    + intros d' b Hd'. apply Hdom in Hd'. case_decide; [set_solver|].
      intros Hb Hin. apply elem_of_app in Hin as [Hin|Hin].
      * by pose proof (wf_frags_disj0 d d' b Hdv Hd' Hin Hb).
      * by eapply wf_frags_gc0.
    + intros d1 d2 b H1 H2. apply Hdom in H1. apply Hdom in H2.
      repeat case_decide; set_solver.
    + intros d' l' Hl'. apply lookup_insert_Some in Hl' as [[<- <-]|[_ Hl']];
        [|by eapply wf_headers0].
      by apply (wf_headers0 d l).
  - constructor; simpl; try done.
    intros c. rewrite F3, F2 by set_solver. done.
  - done.
  - done.
Qed.

Lemma insert_as_alter {A} (f : A → A) (m : gmap nat A) d x :
  m !! d = Some x → <[d := f x]> m = alter f d m.
Proof.
  intros Hx. apply map_eq. intros i. destruct (decide (i = d)) as [->|].
  - by rewrite lookup_insert_eq, lookup_alter_eq, Hx.
  - by rewrite lookup_insert_ne, lookup_alter_ne.
Qed.

Lemma recycle_all_snoc D d m :
  recycle_all (D ++ [d]) m = alter recycled d (recycle_all D m).
Proof. unfold recycle_all. by rewrite foldl_app. Qed.

Lemma recycle_all_lookup_notin D m c :
  c ∉ D → recycle_all D m !! c = m !! c.
Proof.
  revert m. induction D as [|d D IH]; intros m Hc; [done|].
  simpl. rewrite IH by set_solver. apply lookup_alter_ne. set_solver.
Qed.

Lemma recycle_all_no_chain D m c lc :
  m !! c = Some lc → has_chain lc = false →
  ∃ lc', recycle_all D m !! c = Some lc' ∧ has_chain lc' = false.
Proof.
  revert m lc. induction D as [|d D IH]; intros m lc Hc Hlc; [eauto|].
  simpl. destruct (decide (c = d)) as [->|].
  - apply (IH _ (recycled lc)); [|done].
    by rewrite lookup_alter_eq, Hc.
  - apply (IH _ lc); [|done]. by rewrite lookup_alter_ne.
Qed.

Lemma recycle_all_dom D m c :
  is_Some (recycle_all D m !! c) ↔ is_Some (m !! c).
Proof.
  revert m. induction D as [|d D IH]; intros m; [done|].
  simpl. rewrite IH. destruct (decide (c = d)) as [->|].
  - rewrite lookup_alter_eq. by rewrite fmap_is_Some.
  - by rewrite lookup_alter_ne.
Qed.

Lemma release_view_snoc D d v :
  release_view (D ++ [d]) v = release1 (release_view D v) d.
Proof. unfold release_view. by rewrite foldl_app. Qed.

Lemma release_view_free_pool D v :
  free_pool (release_view D v) = free_pool v ++ D.
Proof.
  revert v. induction D as [|d D IH]; intros v; simpl.
  - by rewrite app_nil_r.
  - rewrite IH. simpl. by rewrite <- app_assoc.
Qed.

Lemma release_view_fragments D v d :
  fragments (release_view D v) d =
  if decide (d ∈ D) then [] else fragments v d.
Proof.
  revert v. induction D as [|d' D IH]; intros v.
  - change (release_view [] v) with v.
    destruct (decide (d ∈ [])); [set_solver|done].
  - change (release_view (d' :: D) v) with (release_view D (release1 v d')).
    rewrite IH. simpl. repeat case_decide; set_solver.
Qed.

Lemma no_chain_elim s C c :
  Forall (no_chain s) C → c ∈ C →
  ∃ lc, dls s !! c = Some lc ∧ has_chain lc = false.
Proof.
  intros HC Hc. pose proof (proj1 (Forall_forall _ _) HC c Hc) as Hn.
  unfold no_chain in Hn. destruct (dls s !! c); [eauto|done].
Qed.

Lemma put_None fuel s : __vsp1_dl_list_put fuel None s = Done s.
Proof. by destruct fuel. Qed.

Lemma put_unfold fuel d s :
  __vsp1_dl_list_put (S fuel) (Some d) s =
  (l ← get_dl d s;
   s ← (if has_chain l then
          list_for_each_entry links (DL_CHAIN d)
            (λ a s, dl_child ← chain_entry_dl a;
                    __vsp1_dl_list_put fuel (Some dl_child) s)
            fuel s
        else Done s);
   put_self d s).
Proof. reflexivity. Qed.

Lemma get_dl_Done d s l : dls s !! d = Some l → get_dl d s = Done l.
Proof. intros Hl. unfold get_dl. by rewrite Hl. Qed.

Lemma put_no_chain fuel d s l :
  dls s !! d = Some l → has_chain l = false →
  __vsp1_dl_list_put (S fuel) (Some d) s = put_self d s.
Proof.
  intros Hl Hc. by rewrite put_unfold, (get_dl_Done _ _ _ Hl), bind_Done, Hc.
Qed.

(** The release of the display list of a slot, with what it does to the
    garbage collector: the work is scheduled as soon as a fragment has
    moved to the garbage list, and is never cancelled. *)
Lemma put_spec_work fuel s v o C :
  wf s v → slot_chain s o C →
  (∀ d, d ∈ slot_lists o C → d ∉ free_pool v) →
  length C + 2 ≤ fuel →
  ∃ s', __vsp1_dl_list_put fuel o s = Done s' ∧
    wf s' (release_view (slot_lists o C) v) ∧ released_only s s' ∧
    dls s' = recycle_all (slot_lists o C) (dls s) ∧
    (gc_work s' = true ∨
     gc_work s' = gc_work s ∧
     gc_fragments (release_view (slot_lists o C) v) = gc_fragments v).
Proof.
  intros Hwf Hch Hfree Hfuel. destruct o as [x|]; simpl in Hch.
  2:{ subst C. exists s. simpl.
      split; [apply put_None|]. split; [done|].
      split; [apply released_only_refl|]. split; [done|]. by right. }
  unfold slot_lists in *. simpl in *. unfold chain_of in Hch.
  destruct (dls s !! x) as [l|] eqn:Hl; [|done].
  destruct fuel as [|fuel]; [lia|].
  rewrite put_unfold, (get_dl_Done _ _ _ Hl), bind_Done.
  assert (∃ s1, (if has_chain l
                 then list_for_each_entry links (DL_CHAIN x)
                        (λ a s0, dl_child ← chain_entry_dl a;
                                 __vsp1_dl_list_put fuel (Some dl_child) s0)
                        fuel s
                 else Done s) = Done s1 ∧
          wf s1 (release_view C v) ∧ released_only s s1 ∧
          dls s1 = recycle_all C (dls s) ∧ x ∉ C ∧
          (gc_work s1 = true ∨
           gc_work s1 = gc_work s ∧
           gc_fragments (release_view C v) = gc_fragments v))
    as (s1 & -> & Hwf1 & Hro1 & Hdls1 & HxC & Hw1).
  { destruct (has_chain l) eqn:Hhc.
    2:{ subst C. exists s. split; [done|]. split; [done|].
        split; [apply released_only_refl|]. split; [done|].
        split; [set_solver|by right]. }
    destruct Hch as [Hring Hflat]. pose proof Hring as [Hnd Hlinked].
    assert (x ∉ C) as HxC.
    { apply NoDup_cons in Hnd as [Hx _]. set_solver. }
    assert (NoDup C) as HndC.
    { apply NoDup_cons in Hnd as [_ Hnd]. by apply NoDup_fmap in Hnd; [|intros ?? [=]]. }
    pose (I := λ (ns : list lh_addr) (s1 : vsp1_dl_manager),
            ∃ C1 C2, ns = DL_CHAIN <$> C2 ∧ C = C1 ++ C2 ∧
              wf s1 (release_view C1 v) ∧ released_only s s1 ∧
              dls s1 = recycle_all C1 (dls s) ∧
              (gc_work s1 = true ∨
               gc_work s1 = gc_work s ∧
               gc_fragments (release_view C1 v) = gc_fragments v)).
    destruct (list_for_each_entry_spec links (DL_CHAIN x)
                (λ a s0, dl_child ← chain_entry_dl a;
                         __vsp1_dl_list_put fuel (Some dl_child) s0) I)
      with (ns := DL_CHAIN <$> C) (s := s) (fuel := fuel)
      as (s1 & E1 & (C1 & C2 & HC2 & HC & Hwf1 & Hro1 & Hdls1 & Hw1)).
    - intros a ns s1 (C1 & C2 & HC2 & HC & Hwf1 & Hro1 & Hdls1 & Hw1).
      destruct C2 as [|c C2]; [done|]. simpl in HC2.
      injection HC2 as -> ->.
      split; [intros [= ->]; set_solver|].
      cbv beta.
      destruct (no_chain_elim _ _ c Hflat) as (lc & Hlc & Hlcf); [set_solver|].
      destruct (recycle_all_no_chain C1 _ _ _ Hlc Hlcf) as (lc' & Hlc' & Hlcf').
      rewrite <- Hdls1 in Hlc'.
      destruct fuel as [|fuel']; [lia|].
      change (chain_entry_dl (DL_CHAIN c)) with (Done c). rewrite bind_Done.
      rewrite (put_no_chain _ _ _ _ Hlc' Hlcf').
      destruct (put_self_spec s1 _ c lc' Hwf1 Hlc')
        as (s2 & E2 & Hwf2 & Hro2 & Hdls2 & Hw2).
      { rewrite release_view_free_pool. intros Hin.
        apply elem_of_app in Hin as [Hin|Hin].
        - apply (Hfree c); [set_solver|done].
        - subst C. apply NoDup_app in HndC as (_ & Hdisj & _).
          apply (Hdisj c); set_solver. }
      exists s2. split; [done|]. split.
      + exists (C1 ++ [c]), C2. split; [done|].
        split; [by rewrite <- app_assoc|].
        split; [by rewrite release_view_snoc|].
        split; [by eapply released_only_trans|].
        split.
        { rewrite recycle_all_snoc, Hdls2, Hdls1.
          apply insert_as_alter. by rewrite <- Hdls1. }
        rewrite Hw2, release_view_snoc. simpl.
        case_bool_decide as Hf; [|by left].
        rewrite Hf. simpl. done.
      + unfold nxt. rewrite (ro_chain _ _ Hro2), (ro_chain _ _ Hro1).
        subst C. rewrite fmap_app, fmap_cons in Hlinked.
        apply (linked_middle _ _ _ _ _ _ Hlinked).
    - rewrite length_fmap. lia.
    - exists [], C. split; [done|]. split; [done|]. split; [done|].
      split; [apply released_only_refl|]. split; [done|]. by right.
    - by apply ring_first.
    - destruct C2; [|done]. rewrite app_nil_r in HC. subst C1.
      exists s1. done. }
  assert (dls s1 !! x = Some l) as Hl1.
  { by rewrite Hdls1, recycle_all_lookup_notin. }
  destruct (put_self_spec s1 _ x l Hwf1 Hl1) as (s2 & E2 & Hwf2 & Hro2 & Hdls2 & Hw2).
  { rewrite release_view_free_pool. intros Hin.
    apply elem_of_app in Hin as [Hin|Hin]; [|done].
    apply (Hfree x); [set_solver|done]. }
  exists s2. split; [done|].
  split; [by rewrite release_view_snoc|].
  split; [by eapply released_only_trans|].
  split.
  { rewrite recycle_all_snoc, Hdls2, Hdls1.
    apply insert_as_alter. by rewrite <- Hdls1. }
  rewrite Hw2, release_view_snoc. simpl.
  case_bool_decide as Hf; [|by left].
  rewrite Hf. simpl. done.
Qed.

(** The release of the display list of a slot, with its chain:
    __vsp1_dl_list_put() returns, the lists released are appended to the
    free pool, the chained ones first. *)
Lemma put_spec fuel s v o C :
  wf s v → slot_chain s o C →
  (∀ d, d ∈ slot_lists o C → d ∉ free_pool v) →
  length C + 2 ≤ fuel →
  ∃ s', __vsp1_dl_list_put fuel o s = Done s' ∧
    wf s' (release_view (slot_lists o C) v) ∧ released_only s s' ∧
    dls s' = recycle_all (slot_lists o C) (dls s).
Proof.
  intros Hwf Hch Hfree Hfuel.
  destruct (put_spec_work fuel s v o C Hwf Hch Hfree Hfuel)
    as (s' & E & Hwf' & Hro & Hdls & _).
  by exists s'.
Qed.

(** ** Filling a header *)

Lemma with_dl_with_dl d l1 l2 s : with_dl d l2 (with_dl d l1 s) = with_dl d l2 s.
Proof. unfold with_dl. simpl. by rewrite insert_insert_eq. Qed.

Lemma with_dl_id d l s : dls s !! d = Some l → with_dl d l s = s.
Proof. intros Hl. unfold with_dl. rewrite insert_id by done. by destruct s. Qed.

Lemma with_dl_lookup d l s : dls (with_dl d l s) !! d = Some l.
Proof. apply lookup_insert_eq. Qed.

Lemma with_dl_lookup_ne d d' l s :
  d ≠ d' → dls (with_dl d l s) !! d' = dls s !! d'.
Proof. intros. by apply lookup_insert_ne. Qed.

Lemma header_list_store_Done d i f s l h e :
  dls s !! d = Some l → header l = Some h → lists h !! i = Some e →
  header_list_store d i f s =
  Done (with_dl d (set_header (Some (Header (num_lists h) (<[i := f e]> (lists h))
                                            (next_header h) (flags h))) l) s).
Proof.
  intros Hl Hh He. unfold header_list_store.
  rewrite (get_dl_Done _ _ _ Hl), bind_Done, Hh. simpl. rewrite He.
  by rewrite (modify_dl_Done _ _ _ _ Hl).
Qed.

Lemma header_store_Done d f s l h :
  dls s !! d = Some l → header l = Some h →
  header_store d f s = Done (with_dl d (set_header (Some (f h)) l) s).
Proof.
  intros Hl Hh. unfold header_store.
  rewrite (get_dl_Done _ _ _ Hl), bind_Done, Hh. simpl.
  by rewrite (modify_dl_Done _ _ _ _ Hl).
Qed.

Lemma set_header_set_header v w l :
  set_header v (set_header w l) = set_header v l.
Proof. reflexivity. Qed.

Lemma u32_small z : (0 ≤ z < 2 ^ 32)%Z → u32 z = z.
Proof. intros. unfold u32. by apply Z.mod_small. Qed.

(** The loop of fill_header over the fragments [F], with bodies
    [bodies]: the descriptors are stored in the slots after the first
    one, as long as there are slots. *)
Lemma fill_fragments_spec fuel s d l h e0 keep F bodies :
  ring (links s) (DL_FRAGMENTS d) (DLB_LIST <$> F) →
  dls s !! d = Some l → header l = Some h →
  lists h = e0 :: keep → length (lists h) = HEADER_LISTS →
  bodies_of s F bodies →
  length bodies < HEADER_LISTS → length bodies < fuel →
  list_for_each_entry fill_links (DL_FRAGMENTS d) (fill_fragment d) fuel
    (0%Z, 0, s) =
  Done (Z.of_nat (length bodies), length bodies,
        with_dl d (set_header
          (Some (Header (num_lists h)
                   (e0 :: (body_desc <$> bodies) ++ drop (length bodies) keep)
                   (next_header h) (flags h))) l) s).
Proof.
  intros Hring Hl Hh Hls Hlen Hbodies Hk Hfuel.
  pose (st := λ (B1 : list vsp1_dl_body),
          (Z.of_nat (length B1), length B1,
           with_dl d (set_header
             (Some (Header (num_lists h)
                      (e0 :: (body_desc <$> B1) ++ drop (length B1) keep)
                      (next_header h) (flags h))) l) s) : fill_state).
  pose (I := λ (ns : list lh_addr) (t : fill_state),
          ∃ F1 F2 B1 B2, ns = DLB_LIST <$> F2 ∧ F = F1 ++ F2 ∧
            bodies = B1 ++ B2 ∧ length F1 = length B1 ∧
            bodies_of s F2 B2 ∧ t = st B1).
  destruct (list_for_each_entry_spec fill_links (DL_FRAGMENTS d)
              (fill_fragment d) I)
    with (ns := DLB_LIST <$> F) (s := ((0%Z, 0, s) : fill_state))
         (fuel := fuel)
    as (t & -> & (F1 & F2 & B1 & B2 & HF2 & HF & HB & Hlen12 & HB2 & ->)).
  - intros a ns t (F1 & F2 & B1 & B2 & HF2 & HF & HB & Hlen12 & HB2 & ->).
    destruct F2 as [|b F2]; [done|]. simpl in HF2. injection HF2 as -> ->.
    split; [done|].
    apply Forall2_cons_inv_l in HB2 as (body & B2' & Hbody & HB2 & ->).
    assert (length B1 < length keep) as Hidx.
    { rewrite Hls in Hlen. simpl in Hlen. subst bodies.
      rewrite length_app in Hk. simpl in Hk. unfold HEADER_LISTS in *. lia. }
    destruct (lookup_lt_is_Some_2 keep (length B1) Hidx) as [e He].
    unfold st, fill_fragment.
    change (list_entry_dlb (DLB_LIST b)) with (Done b). rewrite bind_Done.
    unfold get_dlb. change (dlbs (with_dl _ _ s)) with (dlbs s).
    rewrite Hbody. simpl of_option. rewrite bind_Done.
    assert (∀ x, (e0 :: (body_desc <$> B1) ++ drop (length B1) keep)
                   !! S (length B1) = Some x ↔ x = e) as Hslot.
    { intros x. simpl. rewrite lookup_app_r by (rewrite length_fmap; lia).
      rewrite length_fmap, lookup_drop.
      replace (length B1 + (length B1 - length B1)) with (length B1) by lia.
      rewrite He. naive_solver. }
    erewrite header_list_store_Done;
      [|apply with_dl_lookup|reflexivity|by apply Hslot].
    rewrite bind_Done, with_dl_with_dl.
    erewrite header_list_store_Done;
      [|apply with_dl_lookup|reflexivity|].
    2:{ simpl. apply list_lookup_insert_eq.
        rewrite length_app, length_fmap, length_drop. lia. }
    rewrite bind_Done, with_dl_with_dl. simpl.
    eexists. split; [reflexivity|]. split.
    + exists (F1 ++ [b]), F2, (B1 ++ [body]), B2'.
      split; [done|]. split; [by rewrite <- app_assoc|].
      split; [by rewrite <- app_assoc|].
      split; [rewrite !length_app; simpl; lia|]. split; [done|].
      unfold st. rewrite length_app. simpl.
      rewrite u32_small.
      2:{ subst bodies. rewrite length_app in Hk. simpl in Hk.
          unfold HEADER_LISTS in Hk. lia. }
      rewrite !set_header_set_header.
      assert (<[length B1 := set_num_bytes
                  (u32 (dlb_num_entries body * sizeof_header_list))
                  (set_addr (u32 (dlb_dma body)) e)]>
                (<[length B1 := set_addr (u32 (dlb_dma body)) e]>
                   ((body_desc <$> B1) ++ drop (length B1) keep))
              = (body_desc <$> B1 ++ [body]) ++ drop (length B1 + 1) keep)
        as ->.
      { rewrite list_insert_insert_eq.
        rewrite fmap_app. simpl.
        rewrite <- app_assoc. simpl.
        replace (length B1) with (length (body_desc <$> B1) + 0)
          at 1 by (rewrite length_fmap; lia).
        rewrite insert_app_r.
        rewrite (drop_S _ _ _ He). simpl.
        by replace (length B1 + 1) with (S (length B1)) by lia. }
      f_equal. f_equal; lia.
    + unfold fill_links. simpl. eapply linked_middle.
      destruct Hring as [_ Hlinked]. subst F.
      rewrite fmap_app, fmap_cons in Hlinked. exact Hlinked.
  - rewrite length_fmap. apply Forall2_length in Hbodies. lia.
  - exists [], F, [], bodies. do 5 (split; [done|]).
    unfold st. simpl. rewrite drop_0. f_equal. symmetry.
    apply with_dl_id. rewrite Hl. f_equal.
    destruct l as [? ? ? ? ?]. simpl in Hh. subst.
    destruct h as [? ? ? ?]. simpl in Hls. by subst.
  - by apply ring_first.
  - destruct F2; [|done]. apply Forall2_nil_inv_l in HB2 as ->.
    rewrite app_nil_r in HB. by subst bodies.
Qed.

(** vsp1_dl_list_fill_header() on a display list with fewer than eight
    fragments returns, and leaves the header the spec describes. *)
Lemma fill_header_spec fuel s v d l h bodies is_last nx nl :
  wf s v → dls s !! d = Some l → header l = Some h →
  bodies_of s (fragments v d) bodies →
  length bodies < HEADER_LISTS → length bodies < fuel →
  nxt (links s) (DL_CHAIN d) = Some (Ptr (DL_CHAIN nx)) →
  dls s !! nx = Some nl →
  vsp1_dl_list_fill_header fuel d is_last s =
  Done (with_dl d
          (set_header
             (Some (filled_header (singleshot s) d l h bodies nx (dma nl)
                                  is_last)) l) s).
Proof.
  intros Hwf Hl Hh Hbodies Hk Hfuel Hnx Hnl.
  assert (length (lists h) = HEADER_LISTS) as Hlen.
  { pose proof (wf_headers _ _ Hwf d l Hl) as Hok.
    unfold header_ok in Hok. by rewrite Hh in Hok. }
  destruct (lists h) as [|e0 keep] eqn:Hls; [done|].
  unfold vsp1_dl_list_fill_header.
  rewrite (get_dl_Done _ _ _ Hl), bind_Done.
  erewrite header_list_store_Done; [|done|done|by rewrite Hls].
  rewrite bind_Done, Hls. simpl insert.
  erewrite fill_fragments_spec with (bodies := bodies) (keep := keep);
    [|by apply (wf_frags _ _ Hwf d)|apply with_dl_lookup|reflexivity
     |reflexivity|done|done|done|done].
  rewrite bind_Done. simpl num_lists. simpl next_header. simpl flags.
  rewrite with_dl_with_dl, set_header_set_header.
  erewrite header_store_Done; [|apply with_dl_lookup|reflexivity].
  rewrite bind_Done, with_dl_with_dl, set_header_set_header.
  change (links (with_dl _ _ s)) with (links s).
  rewrite (list_empty_Done _ _ _ Hnx), bind_Done.
  change (singleshot (with_dl _ _ s)) with (singleshot s).
  unfold filled_header, filled_link, filled_lists. rewrite Hls.
  destruct (decide (nx = d)) as [->|Hne].
  - rewrite !bool_decide_eq_true_2 by done. simpl andb.
    destruct (singleshot s); simpl negb; cbv iota.
    + erewrite header_store_Done; [|apply with_dl_lookup|reflexivity].
      by rewrite with_dl_with_dl, set_header_set_header.
    + erewrite header_store_Done; [|apply with_dl_lookup|reflexivity].
      rewrite bind_Done, with_dl_with_dl, set_header_set_header.
      erewrite header_store_Done; [|apply with_dl_lookup|reflexivity].
      by rewrite with_dl_with_dl, set_header_set_header.
  - rewrite !bool_decide_eq_false_2 by congruence. simpl negb at 1.
    rewrite !andb_true_l.
    destruct is_last; simpl negb; cbv iota.
    + destruct (singleshot s); simpl negb; cbv iota.
      * erewrite header_store_Done; [|apply with_dl_lookup|reflexivity].
        by rewrite with_dl_with_dl, set_header_set_header.
      * erewrite header_store_Done; [|apply with_dl_lookup|reflexivity].
        rewrite bind_Done, with_dl_with_dl, set_header_set_header.
        erewrite header_store_Done; [|apply with_dl_lookup|reflexivity].
        by rewrite with_dl_with_dl, set_header_set_header.
    + rewrite (rd_next_Done _ _ _ Hnx), bind_Done. simpl deref.
      rewrite bind_Done. simpl chain_entry_dl. rewrite bind_Done.
      rewrite (get_dl_Done nx _ nl)
        by (by rewrite with_dl_lookup_ne by done).
      rewrite bind_Done.
      erewrite header_store_Done; [|apply with_dl_lookup|reflexivity].
      rewrite bind_Done, with_dl_with_dl, set_header_set_header.
      erewrite header_store_Done; [|apply with_dl_lookup|reflexivity].
      by rewrite with_dl_with_dl, set_header_set_header.
Qed.

(** ** States that differ in what a commit writes *)

Lemma written_by_commit_refl l : header_ok l → written_by_commit l l.
Proof. by constructor. Qed.

Lemma written_by_commit_trans l1 l2 l3 :
  written_by_commit l1 l2 → written_by_commit l2 l3 → written_by_commit l1 l3.
Proof. intros [] []. constructor; [congruence..|tauto|done]. Qed.

Lemma only_commit_writes_refl s v : wf s v → only_commit_writes s s.
Proof.
  intros Hwf. constructor; try done. intros d.
  destruct (dls s !! d) as [l|] eqn:Hl; constructor.
  apply written_by_commit_refl. by eapply wf_headers.
Qed.

Lemma only_commit_writes_trans s1 s2 s3 :
  only_commit_writes s1 s2 → only_commit_writes s2 s3 → only_commit_writes s1 s3.
Proof.
  intros [] []. constructor; try congruence. intros d.
  specialize (ocw_dls0 d). specialize (ocw_dls1 d).
  destruct ocw_dls0; inversion ocw_dls1; subst; constructor.
  by eapply written_by_commit_trans.
Qed.

Lemma only_commit_writes_lookup s s' d l :
  only_commit_writes s s' → dls s !! d = Some l →
  ∃ l', dls s' !! d = Some l' ∧ written_by_commit l l'.
Proof.
  intros Hho Hl. pose proof (ocw_dls _ _ Hho d) as Hd. rewrite Hl in Hd.
  inversion Hd; subst. eauto.
Qed.

Lemma only_commit_writes_dom s s' d :
  only_commit_writes s s' → is_Some (dls s' !! d) ↔ is_Some (dls s !! d).
Proof.
  intros Hho. pose proof (ocw_dls _ _ Hho d) as Hd.
  inversion Hd; split; intros [? ?]; eauto; congruence.
Qed.

Lemma only_commit_writes_wf s s' v : only_commit_writes s s' → wf s v → wf s' v.
Proof.
  intros Hho [].
  pose proof (λ d, only_commit_writes_dom s s' d Hho) as Hdom.
  destruct Hho. constructor.
  - unfold pool_is. by rewrite ocw_links0.
  - intros d Hd. apply Hdom. eauto.
  - unfold gc_is. by rewrite ocw_links0.
  - intros b Hb. rewrite ocw_dlbs0. eauto.
  - intros d Hd. unfold fragments_are. rewrite ocw_links0.
    apply wf_frags0. by apply Hdom.
  - intros d Hd. rewrite ocw_links0. apply wf_cells0. by apply Hdom.
  - intros d b Hd Hb. rewrite ocw_dlbs0. eapply wf_frags_alloc0; [|done].
    by apply Hdom.
  - intros d b Hd. apply wf_frags_gc0. by apply Hdom.
  - intros d1 d2 b H1 H2. apply wf_frags_disj0; by apply Hdom.
  - intros d l' Hl'. specialize (ocw_dls0 d). rewrite Hl' in ocw_dls0.
    inversion ocw_dls0 as [l0 ? Hsbh|]; subst. by destruct Hsbh.
Qed.

Lemma only_commit_writes_chain_of s s' x C :
  only_commit_writes s s' → chain_of s x C → chain_of s' x C.
Proof.
  intros Hho. unfold chain_of.
  destruct (dls s !! x) as [l|] eqn:Hl; [|done].
  destruct (only_commit_writes_lookup _ _ _ _ Hho Hl) as (l' & -> & Hsbh).
  rewrite (wbc_has_chain _ _ Hsbh). destruct (has_chain l); [|done].
  intros [Hring Hflat]. split.
  - unfold chain_is. by rewrite (ocw_links _ _ Hho).
  - apply Forall_forall. intros c Hc.
    destruct (no_chain_elim _ _ c Hflat Hc) as (lc & Hlc & Hf).
    destruct (only_commit_writes_lookup _ _ _ _ Hho Hlc) as (lc' & Hlc' & Hsbh').
    unfold no_chain. rewrite Hlc'. by rewrite (wbc_has_chain _ _ Hsbh').
Qed.

Lemma only_commit_writes_slot_chain s s' o C :
  only_commit_writes s s' → slot_chain s o C → slot_chain s' o C.
Proof. destruct o; [apply only_commit_writes_chain_of|done]. Qed.

Lemma only_commit_writes_with_dl s d l l' :
  dls s !! d = Some l → written_by_commit l l' →
  (∀ d' l0, dls s !! d' = Some l0 → header_ok l0) →
  only_commit_writes s (with_dl d l' s).
Proof.
  intros Hl Hsbh Hok. constructor; try done. intros d'.
  destruct (decide (d = d')) as [<-|Hne].
  - rewrite with_dl_lookup, Hl. by constructor.
  - rewrite with_dl_lookup_ne by done.
    destruct (dls s !! d') as [l0|] eqn:Hl0; constructor.
    apply written_by_commit_refl. by eapply Hok.
Qed.

Lemma filled_lists_length l keep bodies :
  length keep = HEADER_LISTS → length bodies < HEADER_LISTS →
  length (filled_lists l keep bodies) = HEADER_LISTS.
Proof.
  intros Hlen Hk. destruct keep as [|e0 keep]; [done|].
  unfold filled_lists. simpl length in *.
  rewrite length_app, length_fmap. simpl.
  rewrite length_drop. unfold HEADER_LISTS in *. lia.
Qed.

Lemma written_by_commit_filled single d l h bodies nx nd is_last :
  header l = Some h → length (lists h) = HEADER_LISTS →
  length bodies < HEADER_LISTS →
  written_by_commit l
    (set_header (Some (filled_header single d l h bodies nx nd is_last)) l).
Proof.
  intros Hh Hlen Hk. constructor; [done|done|done| |].
  - rewrite Hh. simpl. split; eauto.
  - unfold header_ok. simpl. by apply filled_lists_length.
Qed.

Lemma frag_bodies_of s F :
  (∀ b, b ∈ F → is_Some (dlbs s !! b)) → bodies_of s F (frag_bodies s F).
Proof.
  induction F as [|b F IH]; intros HF; [constructor|].
  unfold frag_bodies. simpl.
  destruct (HF b) as [body Hb]; [set_solver|]. rewrite Hb. simpl.
  constructor; [done|]. apply IH. intros. apply HF. set_solver.
Qed.

Lemma frag_bodies_length s F :
  (∀ b, b ∈ F → is_Some (dlbs s !! b)) →
  length (frag_bodies s F) = length F.
Proof.
  intros HF. symmetry. eapply Forall2_length. by apply frag_bodies_of.
Qed.

(** ** The headers of a chain *)

Lemma chain_next_head dl C : chain_next (dl :: C) 0 = hd dl C.
Proof. by destruct C. Qed.

Lemma chain_next_mid dl C1 c C2 :
  chain_next (dl :: C1 ++ c :: C2) (S (length C1)) = hd dl C2.
Proof.
  unfold chain_next. simpl.
  rewrite lookup_app_r by lia.
  replace (S (length C1) - length C1) with 1 by lia. by destruct C2.
Qed.

Lemma hd_fmap_chain dl (C : list nat) :
  hd (DL_CHAIN dl) (DL_CHAIN <$> C) = DL_CHAIN (hd dl C).
Proof. by destruct C. Qed.

Lemma dma_of_lookup s d l : dls s !! d = Some l → dma_of s d = dma l.
Proof. intros Hl. unfold dma_of. by rewrite Hl. Qed.

(** The first part of vsp1_dl_list_commit() on a head with the chained
    lists [C]: every header is filled, the one of position [i] with the
    link to the next list and with [is_last] true at the last position
    only. *)
Lemma commit_fill_headers_spec fuel s v dl C :
  wf s v → chain_is s dl C →
  (∀ e, e ∈ dl :: C →
     ∃ l h, dls s !! e = Some l ∧ header l = Some h ∧
            length (fragments v e) < HEADER_LISTS) →
  HEADER_LISTS ≤ fuel → length C < fuel →
  ∃ s', commit_fill_headers fuel dl s = Done s' ∧ only_commit_writes s s' ∧
    (∀ i e l h, (dl :: C) !! i = Some e → dls s !! e = Some l →
       header l = Some h →
       dls s' !! e =
       Some (set_header
               (Some (filled_header (singleshot s) e l h
                        (frag_bodies s (fragments v e))
                        (chain_next (dl :: C) i)
                        (dma_of s (chain_next (dl :: C) i))
                        (bool_decide (S i = length (dl :: C))))) l)) ∧
    (∀ e, e ∉ dl :: C → dls s' !! e = dls s !! e).
Proof.
  intros Hwf Hring Hel Hfuel8 HfuelC.
  pose proof Hring as [Hnd Hlinked].
  assert (NoDup (dl :: C)) as HndE.
  { eapply (NoDup_fmap DL_CHAIN). by rewrite fmap_cons. }
  assert (∀ s1 e l h nx il,
            only_commit_writes s s1 → e ∈ dl :: C → nx ∈ dl :: C →
            dls s1 !! e = Some l → header l = Some h →
            nxt (links s) (DL_CHAIN e) = Some (Ptr (DL_CHAIN nx)) →
            vsp1_dl_list_fill_header fuel e il s1 =
            Done (with_dl e
                    (set_header
                       (Some (filled_header (singleshot s) e l h
                                (frag_bodies s (fragments v e)) nx
                                (dma_of s nx) il)) l) s1) ∧
            only_commit_writes s1
              (with_dl e
                    (set_header
                       (Some (filled_header (singleshot s) e l h
                                (frag_bodies s (fragments v e)) nx
                                (dma_of s nx) il)) l) s1)) as Hfill.
  { intros s1 e l h nx il Hho He Hnx Hl Hh Hn.
    pose proof (only_commit_writes_wf _ _ _ Hho Hwf) as Hwf1.
    destruct (Hel e He) as (l0 & h0 & Hl0 & Hh0 & Hlen).
    destruct (Hel nx Hnx) as (nl0 & nh0 & Hnl0 & _ & _).
    destruct (only_commit_writes_lookup _ _ _ _ Hho Hnl0) as (nl & Hnl & Hsbh).
    assert (∀ b, b ∈ fragments v e → is_Some (dlbs s !! b)) as Hall.
    { intros b Hb. eapply wf_frags_alloc; [done| |done]. eauto. }
    rewrite (dma_of_lookup _ _ _ Hnl0), <- (wbc_dma _ _ Hsbh).
    rewrite <- (ocw_singleshot _ _ Hho).
    split.
    - eapply fill_header_spec; try done.
      + unfold bodies_of. rewrite (ocw_dlbs _ _ Hho). by apply frag_bodies_of.
      + by rewrite frag_bodies_length.
      + rewrite frag_bodies_length by done. lia.
      + by rewrite (ocw_links _ _ Hho).
    - eapply only_commit_writes_with_dl; [done| |by eapply wf_headers].
      apply written_by_commit_filled; [done| |by rewrite frag_bodies_length].
      pose proof (wf_headers _ _ Hwf1 e l Hl) as Hok.
      unfold header_ok in Hok. by rewrite Hh in Hok. }
  unfold commit_fill_headers.
  rewrite (ring_list_empty _ _ _ Hring), bind_Done.
  destruct (Hel dl) as (l & h & Hl & Hh & Hlen); [set_solver|].
  pose proof (ring_first _ _ _ Hring) as Hn0. rewrite hd_fmap_chain in Hn0.
  destruct (Hfill s dl l h (hd dl C) (bool_decide (DL_CHAIN <$> C = [])))
    as [-> Hho0]; try done.
  { by eapply only_commit_writes_refl. }
  { set_solver. }
  { destruct C; set_solver. }
  rewrite bind_Done.
  set (s0 := with_dl dl _ s) in *.
  pose (I := λ (ns : list lh_addr) (sj : vsp1_dl_manager),
          ∃ C1 C2, ns = DL_CHAIN <$> C2 ∧ C = C1 ++ C2 ∧
            only_commit_writes s sj ∧
            (∀ i e l h, i ≤ length C1 → (dl :: C) !! i = Some e →
               dls s !! e = Some l → header l = Some h →
               dls sj !! e =
               Some (set_header
                 (Some (filled_header (singleshot s) e l h
                          (frag_bodies s (fragments v e))
                          (chain_next (dl :: C) i)
                          (dma_of s (chain_next (dl :: C) i))
                          (bool_decide (S i = length (dl :: C))))) l)) ∧
            (∀ e, e ∉ dl :: C1 → dls sj !! e = dls s !! e)).
  destruct (list_for_each_entry_spec links (DL_CHAIN dl)
              (λ a s, dl_child ← chain_entry_dl a;
                      last ← list_is_last a (DL_CHAIN dl) (links s);
                      vsp1_dl_list_fill_header fuel dl_child last s) I)
    with (ns := DL_CHAIN <$> C) (s := s0) (fuel := fuel)
    as (s' & -> & (C1 & C2 & HC2 & HC & Hho & Hfilled & Hrest)).
  - intros a ns sj (C1 & C2 & HC2 & HC & Hho & Hfilled & Hrest).
    destruct C2 as [|c C2]; [done|]. simpl in HC2. injection HC2 as -> ->.
    assert (c ∈ dl :: C) as HcE by (subst C; set_solver).
    assert (c ∉ dl :: C1) as HcC1.
    { subst C. rewrite app_comm_cons in HndE.
      apply NoDup_app in HndE as (_ & Hdisj & _).
      intros Hin. apply (Hdisj c Hin). set_solver. }
    split; [intros [= ->]; apply NoDup_cons in HndE; set_solver|].
    cbv beta. change (chain_entry_dl (DL_CHAIN c)) with (Done c).
    rewrite bind_Done.
    assert (nxt (links s) (DL_CHAIN c) = Some (Ptr (DL_CHAIN (hd dl C2))))
      as Hnc.
    { rewrite <- hd_fmap_chain. subst C.
      rewrite fmap_app, fmap_cons in Hlinked.
      apply (linked_middle _ _ _ _ _ _ Hlinked). }
    rewrite (ocw_links _ _ Hho).
    rewrite (list_is_last_Done _ _ _ _ Hnc), bind_Done.
    destruct (Hel c HcE) as (lc & hc & Hlc & Hhc & Hlenc).
    destruct (Hfill sj c lc hc (hd dl C2)
                (bool_decide (Ptr (DL_CHAIN (hd dl C2)) = Ptr (DL_CHAIN dl))))
      as [-> Hho']; try done.
    { subst C. destruct C2; set_solver. }
    { by rewrite Hrest. }
    eexists. split; [reflexivity|]. split.
    + exists (C1 ++ [c]), C2. split; [done|].
      split; [by rewrite <- app_assoc|].
      split; [by eapply only_commit_writes_trans|]. split.
      * intros i e l0 h0 Hi He Hl0 Hh0.
        rewrite length_app in Hi. simpl in Hi.
        destruct (decide (i = S (length C1))) as [->|Hne].
        -- assert (e = c) as ->.
           { subst C. simpl in He. rewrite lookup_app_r in He by lia.
             replace (length C1 - length C1) with 0 in He by lia.
             by injection He. }
           rewrite with_dl_lookup. rewrite Hlc in Hl0.
           injection Hl0 as <-. rewrite Hhc in Hh0. injection Hh0 as <-.
           subst C. rewrite chain_next_mid. do 4 f_equal.
           apply bool_decide_ext. simpl. rewrite length_app. simpl.
           split.
           ++ intros [= Heq]. destruct C2 as [|c2 C2]; [simpl; lia|].
              simpl in Heq. subst c2. apply NoDup_cons in HndE as [Hd _].
              set_solver.
           ++ intros Hlen2. destruct C2; [done|simpl in Hlen2; lia].
        -- assert (e ≠ c) as Hec.
           { intros ->. subst C.
             assert ((dl :: C1 ++ c :: C2) !! S (length C1) = Some c) as Hc.
             { simpl. rewrite lookup_app_r by lia.
               by replace (length C1 - length C1) with 0 by lia. }
             pose proof (NoDup_lookup _ _ _ _ HndE He Hc). lia. }
           rewrite with_dl_lookup_ne by done.
           apply Hfilled; try done. lia.
      * intros e He. rewrite with_dl_lookup_ne by set_solver.
        apply Hrest. set_solver.
    + change (links (with_dl _ _ sj)) with (links sj).
      rewrite (ocw_links _ _ Hho), hd_fmap_chain. exact Hnc.
  - rewrite length_fmap. lia.
  - exists [], C. split; [done|]. split; [done|]. split; [done|]. split.
    + intros i e l0 h0 Hi He Hl0 Hh0. simpl in Hi.
      assert (i = 0) as -> by lia. simpl in He. injection He as <-.
      rewrite Hl in Hl0. injection Hl0 as <-.
      rewrite Hh in Hh0. injection Hh0 as <-.
      unfold s0. rewrite with_dl_lookup, chain_next_head.
      do 4 f_equal. apply bool_decide_ext. simpl.
      destruct C; simpl; split; intros; try done; lia.
    + intros e He. unfold s0. rewrite with_dl_lookup_ne by set_solver. done.
  - change (links s0) with (links s). by apply ring_first.
  - destruct C2; [|done]. rewrite app_nil_r in HC. subst C1.
    exists s'. split; [done|]. split; [done|]. split; [|done].
    intros i e l0 h0 He. apply Hfilled; [|done].
    apply lookup_lt_Some in He. simpl in He. lia.
Qed.

(** ** Deciding well-formedness *)

Lemma wf_list_wf s v : wf_list s v → wf s v.
Proof.
  intros (Hpool & Hpa & Hgc & Hga & Hdls).
  assert (∀ d, is_Some (dls s !! d) → ∃ l, wf_dl s v d l) as Hd.
  { intros d [l Hl]. exists l. by apply (Hdls d l). }
  constructor; try done.
  - intros d Hin. by apply (proj1 (Forall_forall _ _) Hpa).
  - intros b Hin. by apply (proj1 (Forall_forall _ _) Hga).
  - intros d Hs. destruct (Hd d Hs) as (l & H1 & _). done.
  - intros d Hs. destruct (Hd d Hs) as (l & _ & H2 & H3 & _). done.
  - intros d b Hs Hb. destruct (Hd d Hs) as (l & _ & _ & _ & H4 & _).
    by apply (proj1 (Forall_forall _ _) H4 b).
  - intros d b Hs Hb. destruct (Hd d Hs) as (l & _ & _ & _ & H4 & _).
    by apply (proj1 (Forall_forall _ _) H4 b).
  - intros d1 d2 b Hs1 [l2 Hl2] Hb1 Hb2.
    destruct (Hd d1 Hs1) as (l & _ & _ & _ & _ & _ & H6).
    destruct (H6 d2 l2 Hl2) as [->|Hno]; [done|].
    by pose proof (proj1 (Forall_forall _ _) Hno b Hb1).
  - intros d l Hl. by destruct (Hdls d l Hl) as (_ & _ & _ & _ & H5 & _).
Qed.

Lemma wf_by_computation s v : bool_decide (wf_list s v) = true → wf s v.
Proof. intros Hb. apply wf_list_wf. by apply bool_decide_eq_true_1 in Hb. Qed.

(** ** Committing a display list *)

Lemma wf_ext s s' v :
  links s' = links s → dls s' = dls s → dlbs s' = dlbs s → wf s v → wf s' v.
Proof.
  intros Hl Hd Hb []. constructor;
    unfold pool_is, gc_is, fragments_are in *; rewrite ?Hl, ?Hd, ?Hb; done.
Qed.

Lemma slot_chain_ext s s' o C :
  links s' = links s → dls s' = dls s → slot_chain s o C → slot_chain s' o C.
Proof.
  intros Hl Hd. destruct o as [x|]; [|done]. simpl.
  unfold chain_of, chain_is, no_chain. by rewrite Hl, Hd.
Qed.

Lemma written_by_commit_internal l i :
  header_ok l → written_by_commit l (set_internal i l).
Proof. by constructor. Qed.

Lemma committable_elim s v dl C :
  committable s v dl C → mode s = VSP1_DL_MODE_HEADER →
  chain_is s dl C ∧
  ∀ e, e ∈ dl :: C →
    ∃ l h, dls s !! e = Some l ∧ header l = Some h ∧
           length (fragments v e) < HEADER_LISTS.
Proof.
  intros [_ Hc] Hm. destruct (Hc Hm) as [Hring Hall]. split; [done|].
  intros e He. pose proof (proj1 (Forall_forall _ _) Hall e He) as Hx.
  cbv beta in Hx.
  destruct (dls s !! e) as [l|]; [|done]. destruct Hx as [[h Hh] Hlen].
  eauto.
Qed.

(** The part of vsp1_dl_list_commit() before the lock is taken: the
    headers and the internal flag. *)
Lemma commit_prepare_spec fuel s v dl C i :
  wf s v → committable s v dl C → HEADER_LISTS ≤ fuel → length C < fuel →
  ∃ s1,
    (s0 ← (if decide (mode s = VSP1_DL_MODE_HEADER)
           then commit_fill_headers fuel dl s else Done s);
     modify_dl dl (set_internal i) s0) = Done s1 ∧
    only_commit_writes s s1 ∧
    slot_internal s1 (Some dl) = i ∧
    (∀ p, p ≠ dl → slot_internal s1 (Some p) = slot_internal s (Some p)).
Proof.
  intros Hwf Hc Hfuel8 HfuelC.
  assert (∃ s0, (if decide (mode s = VSP1_DL_MODE_HEADER)
                 then commit_fill_headers fuel dl s else Done s) = Done s0 ∧
            only_commit_writes s s0 ∧
            (∀ p, slot_internal s0 (Some p) = slot_internal s (Some p)))
    as (s0 & -> & Hocw & Hint).
  { destruct (decide (mode s = VSP1_DL_MODE_HEADER)) as [Hm|Hm].
    2:{ exists s. split; [done|]. split; [by eapply only_commit_writes_refl|done]. }
    destruct (committable_elim _ _ _ _ Hc Hm) as [Hring Hel].
    destruct (commit_fill_headers_spec fuel s v dl C Hwf Hring Hel Hfuel8 HfuelC)
      as (s0 & E & Hocw & Hfilled & Hrest).
    exists s0. split; [done|]. split; [done|].
    intros p. simpl. destruct (decide (p ∈ dl :: C)) as [Hp|Hp].
    - destruct (Hel p Hp) as (l & h & Hl & Hh & _).
      apply list_elem_of_lookup in Hp as [k Hk].
      by rewrite (Hfilled k p l h Hk Hl Hh), Hl.
    - by rewrite Hrest. }
  rewrite bind_Done.
  destruct Hc as [[l Hl] _].
  destruct (only_commit_writes_lookup _ _ _ _ Hocw Hl) as (l0 & Hl0 & Hwbc).
  rewrite (modify_dl_Done _ _ _ _ Hl0).
  eexists. split; [reflexivity|]. split; [|split].
  - eapply only_commit_writes_trans; [done|].
    apply (only_commit_writes_with_dl s0 dl l0); [done| |].
    + apply written_by_commit_internal. by destruct Hwbc.
    + intros d' l' Hl'.
      eapply (wf_headers _ _ (only_commit_writes_wf _ _ _ Hocw Hwf)), Hl'.
  - simpl. by rewrite lookup_insert_eq.
  - intros p Hp. rewrite <- Hint. simpl. by rewrite lookup_insert_ne.
Qed.

Section hw_facts.
Context `{vsp1_regs}.

Lemma hw_enqueue_Done d s l :
  dls s !! d = Some l →
  vsp1_dl_list_hw_enqueue d s = Done (set_mmio (hw_program s l) s).
Proof.
  intros Hl. unfold vsp1_dl_list_hw_enqueue, hw_program.
  rewrite (get_dl_Done _ _ _ Hl), bind_Done.
  by destruct (mode s).
Qed.

Lemma hw_update_pending_ext s s' :
  queued s' = queued s → mode s' = mode s → index s' = index s →
  mmio s' = mmio s →
  vsp1_dl_list_hw_update_pending s' = vsp1_dl_list_hw_update_pending s.
Proof.
  intros Hq Hm Hi Hr. unfold vsp1_dl_list_hw_update_pending, vsp1_read.
  by rewrite Hq, Hm, Hi, Hr.
Qed.

Lemma hw_program_ext s s' l l' :
  mode s' = mode s → index s' = index s → mmio s' = mmio s →
  dma l' = dma l → body0 l' = body0 l →
  hw_program s' l' = hw_program s l.
Proof.
  intros Hm Hi Hr Hd Hb. unfold hw_program. by rewrite Hm, Hi, Hr, Hd, Hb.
Qed.

Lemma commit_unfold fuel dl i s :
  vsp1_dl_list_commit fuel dl i s =
  (s1 ← (s0 ← (if decide (mode s = VSP1_DL_MODE_HEADER)
               then commit_fill_headers fuel dl s else Done s);
         modify_dl dl (set_internal i) s0);
   if singleshot s1 then vsp1_dl_list_commit_singleshot dl s1
   else vsp1_dl_list_commit_continuous fuel dl s1).
Proof.
  unfold vsp1_dl_list_commit.
  by destruct (if decide (mode s = VSP1_DL_MODE_HEADER)
               then commit_fill_headers fuel dl s else Done s).
Qed.
End hw_facts.

Lemma wf_release_pool s D v :
  wf s (release_view D v) → pool_is s (free_pool v ++ D).
Proof.
  intros Hwf. pose proof (wf_pool _ _ Hwf) as Hp.
  by rewrite release_view_free_pool in Hp.
Qed.

Section commit_theorems.
Context `{vsp1_regs}.

(** C1: in continuous mode, vsp1_dl_list_commit() returns and is a
    two-way case split on the hardware acceptance query.  When the
    previous program has not been accepted yet, the list that was pending
    (with its chained lists [Cp]) is appended to the free pool, a warning
    fires exactly when that list had its internal flag set, the new list
    becomes pending, and no register is written.  When it has been
    accepted, the registers are programmed with the new list, the list
    that was queued is appended to the free pool, and the new list
    becomes queued.  The active slot is never changed. *)
Theorem commit_continuous_cases fuel s v dl i C Cp :
  wf s v → singleshot s = false → committable s v dl C →
  slot_chain s (if vsp1_dl_list_hw_update_pending s then pending s
                else queued s) Cp →
  Forall (λ d, d ∉ free_pool v)
         (slot_lists (if vsp1_dl_list_hw_update_pending s then pending s
                      else queued s) Cp) →
  HEADER_LISTS ≤ fuel → length C < fuel → length Cp + 2 ≤ fuel →
  ∃ s', vsp1_dl_list_commit fuel dl i s = Done s' ∧ active s' = active s ∧
    if vsp1_dl_list_hw_update_pending s then
      wf s' (release_view (slot_lists (pending s) Cp) v) ∧
      pool_is s' (free_pool v ++ slot_lists (pending s) Cp) ∧
      pending s' = Some dl ∧ queued s' = queued s ∧ mmio s' = mmio s ∧
      warnings s' =
        (if match pending s with
            | Some p => if decide (p = dl) then i else slot_internal s (Some p)
            | None => false
            end
         then S (warnings s) else warnings s)
    else
      wf s' (release_view (slot_lists (queued s) Cp) v) ∧
      pool_is s' (free_pool v ++ slot_lists (queued s) Cp) ∧
      queued s' = Some dl ∧ pending s' = pending s ∧
      warnings s' = warnings s ∧
      ∀ l, dls s !! dl = Some l → mmio s' = hw_program s l.
Proof.
  intros Hwf Hss Hc Hch Hfree0 Hfuel8 HfuelC HfuelCp.
  pose proof (proj1 (Forall_forall _ _) Hfree0) as Hfree.
  rewrite commit_unfold.
  destruct (commit_prepare_spec fuel s v dl C i Hwf Hc Hfuel8 HfuelC)
    as (s1 & -> & Hocw & Hint1 & Hint2).
  rewrite bind_Done.
  pose proof (only_commit_writes_wf _ _ _ Hocw Hwf) as Hwf1.
  pose proof Hocw as [].
  rewrite ocw_singleshot0, Hss.
  unfold vsp1_dl_list_commit_continuous.
  rewrite (hw_update_pending_ext s s1) by done.
  destruct (vsp1_dl_list_hw_update_pending s) eqn:Hup.
  - (* the previous program has not been accepted *)
    unfold warn_pending_internal. rewrite ocw_pending0.
    destruct (pending s) as [p|] eqn:Hp.
    + assert (∃ lp1, dls s1 !! p = Some lp1 ∧
                     internal lp1 = if decide (p = dl) then i
                                    else slot_internal s (Some p))
        as (lp1 & Hlp1 & Hilp1).
      { simpl in Hch. unfold chain_of in Hch.
        destruct (dls s !! p) as [lp|] eqn:Hlp; [|done].
        destruct (only_commit_writes_lookup _ _ _ _ Hocw Hlp)
          as (lp1 & Hlp1 & _).
        exists lp1. split; [done|]. destruct (decide (p = dl)) as [->|Hne].
        - rewrite <- Hint1. simpl. by rewrite Hlp1.
        - rewrite <- (Hint2 p Hne). simpl. by rewrite Hlp1. }
      rewrite (get_dl_Done _ _ _ Hlp1), bind_Done. rewrite bind_Done.
      set (s1w := if internal lp1 then set_warnings (S (warnings s1)) s1
                  else s1).
      assert (links s1w = links s1 ∧ dls s1w = dls s1 ∧ dlbs s1w = dlbs s1 ∧
              pending s1w = pending s1 ∧ active s1w = active s1 ∧
              queued s1w = queued s1 ∧ mmio s1w = mmio s1 ∧
              warnings s1w = if internal lp1 then S (warnings s1)
                             else warnings s1)
        as (Hl & Hd & Hb & Hpw & Haw & Hqw & Hmw & Hww).
      { unfold s1w. by destruct (internal lp1). }
      rewrite Hpw, ocw_pending0, ?Hp.
      destruct (put_spec fuel s1w v (Some p) Cp)
        as (s3 & -> & Hwf3 & Hro & _); try done.
      { by apply (wf_ext s1). }
      { apply (slot_chain_ext s1); [done|done|].
        by apply (only_commit_writes_slot_chain s). }
      rewrite bind_Done. destruct Hro.
      eexists. split; [reflexivity|]. simpl.
      split; [congruence|]. split; [by apply (wf_ext s3)|].
      split; [apply wf_release_pool; by apply (wf_ext s3)|].
      split; [done|]. split; [congruence|]. split; [congruence|].
      rewrite ro_warnings0, Hww, Hilp1, ocw_warnings0. done.
    + simpl in Hch. subst Cp.
      rewrite bind_Done, ocw_pending0, put_None, bind_Done.
      eexists. split; [reflexivity|]. simpl.
      split; [done|]. split; [by apply (wf_ext s1)|].
      split; [|done].
      apply (wf_release_pool _ [] v). by apply (wf_ext s1).
  - (* the previous program has been accepted *)
    destruct Hc as [[l Hl] _].
    destruct (only_commit_writes_lookup _ _ _ _ Hocw Hl) as (l1 & Hl1 & Hwbc).
    rewrite (hw_enqueue_Done _ _ _ Hl1), bind_Done.
    change (queued (set_mmio _ s1)) with (queued s1). rewrite ocw_queued0.
    destruct (put_spec fuel (set_mmio (hw_program s1 l1) s1) v (queued s) Cp)
      as (s3 & -> & Hwf3 & Hro & _); try done.
    { by apply (wf_ext s1). }
    { apply (slot_chain_ext s1); [done|done|].
      by apply (only_commit_writes_slot_chain s). }
    rewrite bind_Done. destruct Hro.
    change (active (set_mmio (hw_program s1 l1) s1)) with (active s1)
      in ro_active0.
    change (pending (set_mmio (hw_program s1 l1) s1)) with (pending s1)
      in ro_pending0.
    change (warnings (set_mmio (hw_program s1 l1) s1)) with (warnings s1)
      in ro_warnings0.
    eexists. split; [reflexivity|]. simpl.
    split; [congruence|]. split; [by apply (wf_ext s3)|].
    split; [apply wf_release_pool; by apply (wf_ext s3)|].
    split; [done|]. split; [congruence|]. split; [congruence|].
    intros l' Hl'. rewrite Hl in Hl'. injection Hl' as <-.
    rewrite ro_mmio0. simpl. destruct Hwbc. by apply hw_program_ext.
Qed.

(** C9: the hardware acceptance query answers "no update pending"
    whenever no list is queued, whatever the registers hold.  So, with an
    empty queued slot, vsp1_dl_list_commit_continuous() takes the second
    branch: it programs the registers with the new list and makes it the
    queued list; and vsp1_dl_list_commit() in continuous mode returns
    with the new list queued, the registers programmed, and the pending
    slot and the free pool as they were. *)
Theorem commit_without_queued s :
  queued s = None →
  vsp1_dl_list_hw_update_pending s = false ∧
  (∀ fuel dl l, dls s !! dl = Some l →
     vsp1_dl_list_commit_continuous fuel dl s =
     Done (set_queued (Some dl) (set_mmio (hw_program s l) s))) ∧
  (∀ fuel v dl i C l,
     wf s v → singleshot s = false → committable s v dl C →
     dls s !! dl = Some l → HEADER_LISTS ≤ fuel → length C < fuel →
     ∃ s', vsp1_dl_list_commit fuel dl i s = Done s' ∧
       queued s' = Some dl ∧ pending s' = pending s ∧
       active s' = active s ∧ mmio s' = hw_program s l ∧ wf s' v).
Proof.
  intros Hq.
  assert (vsp1_dl_list_hw_update_pending s = false) as Hup.
  { unfold vsp1_dl_list_hw_update_pending. by rewrite Hq. }
  split; [done|]. split.
  { intros fuel dl l Hl. unfold vsp1_dl_list_commit_continuous.
    rewrite Hup, (hw_enqueue_Done _ _ _ Hl), bind_Done.
    change (queued (set_mmio _ s)) with (queued s).
    by rewrite Hq, put_None, bind_Done. }
  intros fuel v dl i C l Hwf Hss Hc Hl Hfuel8 HfuelC.
  rewrite commit_unfold.
  destruct (commit_prepare_spec fuel s v dl C i Hwf Hc Hfuel8 HfuelC)
    as (s1 & -> & Hocw & _ & _).
  rewrite bind_Done.
  pose proof (only_commit_writes_wf _ _ _ Hocw Hwf) as Hwf1.
  destruct (only_commit_writes_lookup _ _ _ _ Hocw Hl) as (l1 & Hl1 & Hwbc).
  destruct Hocw. rewrite ocw_singleshot0, Hss.
  unfold vsp1_dl_list_commit_continuous.
  rewrite (hw_update_pending_ext s s1), Hup by done.
  rewrite (hw_enqueue_Done _ _ _ Hl1), bind_Done.
  change (queued (set_mmio _ s1)) with (queued s1).
  rewrite ocw_queued0, Hq, put_None, bind_Done.
  eexists. split; [reflexivity|]. simpl.
  split; [done|]. split; [done|]. split; [done|].
  split; [destruct Hwbc; by apply hw_program_ext|].
  by apply (wf_ext s1).
Qed.

Lemma recycle_all_internal D m q :
  internal <$> recycle_all D m !! q = internal <$> m !! q.
Proof.
  revert m. induction D as [|d D IH]; intros m; [done|].
  simpl. rewrite IH. destruct (decide (q = d)) as [->|].
  - rewrite lookup_alter_eq. by destruct (m !! d).
  - by rewrite lookup_alter_ne.
Qed.

(** C2: in continuous mode, the frame end handler returns.  When the
    hardware has not accepted the last program, it reports nothing and
    leaves the state as it is.  Otherwise, when a list is queued, it
    reports the completion, together with the internal flag of that
    list, clears this flag, appends the list that was active (with its
    chained lists [Ca]) to the free pool and makes the queued list the
    active one; and, in both cases, a pending list is programmed into the
    registers and becomes the queued list, the pending slot being
    cleared. *)
Theorem irq_frame_end_continuous fuel s v Ca :
  wf s v → singleshot s = false →
  slot_chain s (active s) Ca →
  Forall (λ d, d ∉ free_pool v) (slot_lists (active s) Ca) →
  slot_alloc s (queued s) → slot_alloc s (pending s) →
  length Ca + 2 ≤ fuel →
  ∃ fl s', vsp1_dlm_irq_frame_end fuel s = Done (fl, s') ∧
    if vsp1_dl_list_hw_update_pending s then fl = 0%Z ∧ s' = s
    else
      match queued s with
      | Some q =>
          fl = Z.lor (if slot_internal s (Some q)
                      then Z.lor 0 VSP1_DL_FRAME_END_INTERNAL else 0%Z)
                     VSP1_DL_FRAME_END_COMPLETED ∧
          slot_internal s' (Some q) = false ∧
          wf s' (release_view (slot_lists (active s) Ca) v) ∧
          pool_is s' (free_pool v ++ slot_lists (active s) Ca) ∧
          active s' = Some q
      | None => fl = 0%Z ∧ wf s' v ∧ active s' = active s
      end ∧
      queued s' = pending s ∧ pending s' = None ∧
      warnings s' = warnings s ∧
      match pending s with
      | Some p => ∃ lp, dls s' !! p = Some lp ∧ mmio s' = hw_program s lp
      | None => mmio s' = mmio s
      end.
Proof.
  intros Hwf Hss Hch Hfree0 Hqv0 Hpv0 Hfuel.
  pose proof (proj1 (Forall_forall _ _) Hfree0) as Hfree.
  assert (∀ q, queued s = Some q → is_Some (dls s !! q)) as Hqv.
  { intros q Hq. by rewrite Hq in Hqv0. }
  assert (∀ p, pending s = Some p → is_Some (dls s !! p)) as Hpv.
  { intros p Hp. by rewrite Hp in Hpv0. }
  unfold vsp1_dlm_irq_frame_end. rewrite Hss.
  destruct (vsp1_dl_list_hw_update_pending s) eqn:Hup; [by eauto|].
  assert (∃ fl s2,
    frame_end_queued fuel 0 s = Done (fl, s2) ∧
    match queued s with
    | Some q =>
        fl = Z.lor (if slot_internal s (Some q)
                    then Z.lor 0 VSP1_DL_FRAME_END_INTERNAL else 0%Z)
                   VSP1_DL_FRAME_END_COMPLETED ∧
        slot_internal s2 (Some q) = false ∧
        wf s2 (release_view (slot_lists (active s) Ca) v) ∧
        active s2 = Some q
    | None => fl = 0%Z ∧ wf s2 v ∧ active s2 = active s
    end ∧
    queued s2 = None ∧
    pending s2 = pending s ∧ warnings s2 = warnings s ∧
    mmio s2 = mmio s ∧ mode s2 = mode s ∧ index s2 = index s ∧
    (∀ d, is_Some (dls s2 !! d) ↔ is_Some (dls s !! d)))
    as (fl & s2 & -> & Hcase & Hq2 & Hp2 & Hw2 & Hm2 & Hmode2 & Hidx2 & Hdom2).
  { unfold frame_end_queued. destruct (queued s) as [q|] eqn:Hq.
    2:{ exists 0%Z, s. done. }
    destruct (Hqv q eq_refl) as [lq Hlq].
    rewrite (get_dl_Done _ _ _ Hlq), bind_Done.
    rewrite (modify_dl_Done _ _ _ _ Hlq), bind_Done.
    set (s0 := set_dls _ s).
    assert (only_commit_writes s s0) as Hocw.
    { apply (only_commit_writes_with_dl s q lq); [done| |by eapply wf_headers].
      apply written_by_commit_internal. by eapply wf_headers. }
    change (active s0) with (active s).
    destruct (put_spec fuel s0 v (active s) Ca)
      as (s1 & -> & Hwf1 & Hro & Hdls1); try done.
    { by eapply only_commit_writes_wf. }
    { by eapply only_commit_writes_slot_chain. }
    rewrite bind_Done. destruct Hro.
    eexists _, _. split; [reflexivity|]. simpl.
    split; [|split; [done|split; [done|split; [done|split; [done|split; [done|split; [done|]]]]]]].
    - split; [by rewrite Hlq|]. split.
      + rewrite Hdls1, recycle_all_internal. unfold s0. simpl.
        by rewrite lookup_insert_eq.
      + split; [by apply (wf_ext s1)|]. by rewrite ro_queued0.
    - intros d. rewrite Hdls1, recycle_all_dom. unfold s0. simpl.
      rewrite lookup_insert_is_Some. split; [intros [<-|[_ ?]]; eauto|].
      intros Hd. destruct (decide (q = d)); [by left|by right]. }
  rewrite bind_Done. unfold frame_end_pending. rewrite Hp2.
  destruct (pending s) as [p|] eqn:Hp.
  - destruct (Hpv p eq_refl) as [lp0 Hlp0].
    destruct (proj2 (Hdom2 p)) as [lp Hlp]; [eauto|].
    rewrite (hw_enqueue_Done _ _ _ Hlp), !bind_Done.
    eexists _, _. split; [reflexivity|]. simpl.
    split.
    { destruct (queued s); [|destruct Hcase as (? & ? & ?); split; [done|];
                               split; [by apply (wf_ext s2)|done]].
      destruct Hcase as (? & ? & ? & ?). split; [done|]. split; [done|].
      split; [by apply (wf_ext s2)|].
      split; [apply wf_release_pool; by apply (wf_ext s2)|done]. }
    split; [done|]. split; [done|]. split; [done|].
    exists lp. split; [done|]. by apply hw_program_ext.
  - rewrite bind_Done. eexists _, _. split; [reflexivity|].
    split; [|by rewrite Hp2].
    destruct (queued s); [|done]. destruct Hcase as (? & ? & ? & ?).
    split; [done|]. split; [done|]. split; [done|].
    split; [by apply wf_release_pool|done].
Qed.

(** C6: in single-shot mode, vsp1_dl_list_commit() returns, programs the
    registers with the list and makes it the active list, and changes
    neither the queued nor the pending slot; and the frame end handler
    always returns with the completion flag alone, appends the list that
    was active (with its chained lists [Ca]) to the free pool and clears
    the active slot, whatever the registers hold. *)
Theorem singleshot_commit_and_frame_end fuel s v :
  wf s v → singleshot s = true → HEADER_LISTS ≤ fuel →
  (∀ dl i C l,
     committable s v dl C → dls s !! dl = Some l → length C < fuel →
     ∃ s', vsp1_dl_list_commit fuel dl i s = Done s' ∧
       active s' = Some dl ∧ queued s' = queued s ∧
       pending s' = pending s ∧ mmio s' = hw_program s l ∧ wf s' v) ∧
  (∀ Ca,
     slot_chain s (active s) Ca →
     Forall (λ d, d ∉ free_pool v) (slot_lists (active s) Ca) →
     length Ca + 2 ≤ fuel →
     ∃ s', vsp1_dlm_irq_frame_end fuel s =
             Done (VSP1_DL_FRAME_END_COMPLETED, s') ∧
       active s' = None ∧ queued s' = queued s ∧ pending s' = pending s ∧
       mmio s' = mmio s ∧
       wf s' (release_view (slot_lists (active s) Ca) v) ∧
       pool_is s' (free_pool v ++ slot_lists (active s) Ca)).
Proof.
  intros Hwf Hss Hfuel8. split.
  - intros dl i C l Hc Hl HfuelC.
    rewrite commit_unfold.
    destruct (commit_prepare_spec fuel s v dl C i Hwf Hc Hfuel8 HfuelC)
      as (s1 & -> & Hocw & _ & _).
    rewrite bind_Done.
    pose proof (only_commit_writes_wf _ _ _ Hocw Hwf) as Hwf1.
    destruct (only_commit_writes_lookup _ _ _ _ Hocw Hl) as (l1 & Hl1 & Hwbc).
    destruct Hocw. rewrite ocw_singleshot0, Hss.
    unfold vsp1_dl_list_commit_singleshot.
    rewrite (hw_enqueue_Done _ _ _ Hl1), bind_Done.
    eexists. split; [reflexivity|]. simpl.
    split; [done|]. split; [done|]. split; [done|].
    split; [destruct Hwbc; by apply hw_program_ext|].
    by apply (wf_ext s1).
  - intros Ca Hch Hfree0 Hfuel.
    pose proof (proj1 (Forall_forall _ _) Hfree0) as Hfree.
    unfold vsp1_dlm_irq_frame_end. rewrite Hss.
    destruct (put_spec fuel s v (active s) Ca)
      as (s1 & -> & Hwf1 & Hro & _); try done.
    rewrite bind_Done. destruct Hro.
    eexists. split; [reflexivity|]. simpl.
    split; [done|]. split; [done|]. split; [done|]. split; [done|].
    split; [by apply (wf_ext s1)|].
    apply wf_release_pool. by apply (wf_ext s1).
Qed.
End commit_theorems.

(** ** The header of a display list *)

Lemma headers_fit_elim s v E e :
  headers_fit s v E → e ∈ E →
  ∃ l h, dls s !! e = Some l ∧ header l = Some h ∧
         length (fragments v e) < HEADER_LISTS.
Proof.
  intros Hall He. pose proof (proj1 (Forall_forall _ _) Hall e He) as Hx.
  cbv beta in Hx.
  destruct (dls s !! e) as [l|]; [|done]. destruct Hx as [[h Hh] Hlen].
  eauto.
Qed.

Lemma frag_bodies_lookup s F j f b :
  (∀ x, x ∈ F → is_Some (dlbs s !! x)) →
  F !! j = Some f → dlbs s !! f = Some b →
  frag_bodies s F !! j = Some b.
Proof.
  intros Hall Hj Hb.
  pose proof (frag_bodies_of s F Hall) as HF2.
  destruct (Forall2_lookup_l _ _ _ _ _ HF2 Hj) as (b' & Hb' & Hfb).
  congruence.
Qed.

(** C4: fill_header on a display list with fragments F1..Fk (k < 8)
    returns, and leaves the descriptors in the order primary, F1, ..., Fk:
    the byte length of each is the number of entries of its body times
    the 8 bytes of an entry, the address of a fragment descriptor is the
    device address of the fragment, and the list count is k. *)
Theorem fill_header_descriptors fuel s v d l h is_last nx nl :
  wf s v → dls s !! d = Some l → header l = Some h →
  length (fragments v d) < HEADER_LISTS → length (fragments v d) < fuel →
  nxt (links s) (DL_CHAIN d) = Some (Ptr (DL_CHAIN nx)) →
  dls s !! nx = Some nl →
  Forall body_in_range (body0 l :: frag_bodies s (fragments v d)) →
  ∃ s' l' h',
    vsp1_dl_list_fill_header fuel d is_last s = Done s' ∧
    dls s' !! d = Some l' ∧ header l' = Some h' ∧
    num_lists h' = Z.of_nat (length (fragments v d)) ∧
    (num_bytes <$> lists h' !! 0) =
      Some (dlb_num_entries (body0 l) * sizeof_entry)%Z ∧
    (addr <$> lists h' !! 0) = (addr <$> lists h !! 0) ∧
    ∀ j f b, fragments v d !! j = Some f → dlbs s !! f = Some b →
      lists h' !! S j =
      Some (HeaderList (dlb_num_entries b * sizeof_entry) (dlb_dma b)).
Proof.
  intros Hwf Hl Hh Hk Hfuel Hnx Hnl Hrange.
  assert (∀ x, x ∈ fragments v d → is_Some (dlbs s !! x)) as Hall.
  { intros x Hx. eapply wf_frags_alloc; [done| |done]. eauto. }
  pose proof (frag_bodies_length s _ Hall) as Hlen.
  rewrite (fill_header_spec fuel s v d l h (frag_bodies s (fragments v d))
             is_last nx nl); try done; try lia.
  2:{ by apply frag_bodies_of. }
  eexists _, _, _. split; [reflexivity|].
  split; [apply with_dl_lookup|]. split; [reflexivity|].
  assert (length (lists h) = HEADER_LISTS) as Hlh.
  { pose proof (wf_headers _ _ Hwf d l Hl) as Hok.
    unfold header_ok in Hok. by rewrite Hh in Hok. }
  destruct (lists h) as [|e0 keep] eqn:Hls; [done|].
  apply Forall_cons in Hrange as [[Hn0 _] Hrange].
  unfold filled_header, filled_lists. rewrite ?Hls.
  simpl. split; [by rewrite Hlen|]. split.
  { f_equal. unfold sizeof_header_list, sizeof_entry.
    apply u32_small. lia. }
  split; [done|].
  intros j f b Hj Hb.
  pose proof (frag_bodies_lookup _ _ _ _ _ Hall Hj Hb) as Hfb.
  rewrite lookup_app_l.
  2:{ rewrite length_fmap. by eapply lookup_lt_Some. }
  rewrite list_lookup_fmap, Hfb. simpl. f_equal.
  pose proof (proj1 (Forall_forall _ _) Hrange b) as [Hnb Hdb].
  { eapply list_elem_of_lookup_2. exact Hfb. }
  unfold body_desc, sizeof_header_list, sizeof_entry.
  rewrite !u32_small by lia. done.
Qed.

(** C10: the header has eight descriptor slots.  On a display list with
    at most seven fragments, fill_header returns: no store goes past the
    end of the descriptor array, the array keeps its eight slots, and the
    two fields that follow it hold the forward link.  Nothing checks the
    bound: an eighth fragment is accepted by
    vsp1_dl_list_add_fragment() like the others, and fill_header then
    stores past the end of the array. *)
Theorem fill_header_within_bounds fuel s v d l h is_last nx nl :
  wf s v → dls s !! d = Some l → header l = Some h →
  length (fragments v d) ≤ 7 → length (fragments v d) < fuel →
  nxt (links s) (DL_CHAIN d) = Some (Ptr (DL_CHAIN nx)) →
  dls s !! nx = Some nl →
  HEADER_LISTS = 8 ∧
  (∃ s' l' h',
     vsp1_dl_list_fill_header fuel d is_last s = Done s' ∧
     dls s' !! d = Some l' ∧ header l' = Some h' ∧
     length (lists h') = HEADER_LISTS ∧
     (next_header h', flags h') =
       filled_link (singleshot s) d l h nx (dma nl) is_last) ∧
  eight_fragments.1 = [0; 0; 0; 0; 0; 0; 0; 0]%Z ∧
  vsp1_dl_list_fill_header 9 0 true eight_fragments.2 = Fault Overrun.
Proof.
  intros Hwf Hl Hh Hk Hfuel Hnx Hnl. split; [done|]. split.
  - assert (∀ x, x ∈ fragments v d → is_Some (dlbs s !! x)) as Hall.
    { intros x Hx. eapply wf_frags_alloc; [done| |done]. eauto. }
    pose proof (frag_bodies_length s _ Hall) as Hlen.
    assert (length (lists h) = HEADER_LISTS) as Hlh.
    { pose proof (wf_headers _ _ Hwf d l Hl) as Hok.
      unfold header_ok in Hok. by rewrite Hh in Hok. }
    rewrite (fill_header_spec fuel s v d l h (frag_bodies s (fragments v d))
               is_last nx nl); try done.
    + eexists _, _, _. split; [reflexivity|].
      split; [apply with_dl_lookup|]. split; [reflexivity|].
      split; [|unfold filled_header; simpl;
                by destruct (filled_link _ _ _ _ _ _ _)].
      simpl. apply filled_lists_length; [done|].
      rewrite Hlen. unfold HEADER_LISTS. lia.
    + by apply frag_bodies_of.
    + rewrite Hlen. unfold HEADER_LISTS. lia.
    + by rewrite Hlen.
  - split; by vm_compute.
Qed.

Lemma chain_last_test dl (C : list nat) j c :
  NoDup (dl :: C) → C !! j = Some c →
  bool_decide (Ptr (DL_CHAIN (hd dl (drop (S j) C))) = Ptr (DL_CHAIN dl))
  = bool_decide (S j = length C).
Proof.
  intros Hnd Hj. apply bool_decide_ext.
  pose proof (lookup_lt_Some _ _ _ Hj) as Hlt.
  destruct (drop (S j) C) as [|x D] eqn:HD.
  - apply (f_equal length) in HD. rewrite length_drop in HD. simpl in HD.
    simpl. split; [lia|done].
  - simpl. split.
    + intros [= ->]. apply NoDup_cons in Hnd as [Hx _].
      exfalso. apply Hx. apply (subseteq_drop (S j) C). rewrite HD.
      set_solver.
    + intros Heq. apply (f_equal length) in HD.
      rewrite length_drop in HD. simpl in HD. lia.
Qed.

Lemma recycle_all_header D m e :
  header <$> recycle_all D m !! e = header <$> m !! e.
Proof.
  revert m. induction D as [|d D IH]; intros m; [done|].
  simpl. rewrite IH. destruct (decide (e = d)) as [->|].
  - rewrite lookup_alter_eq. by destruct (m !! d).
  - by rewrite lookup_alter_ne.
Qed.

Section commit_chain.
Context `{vsp1_regs}.

(** The part of vsp1_dl_list_commit() under the lock returns, and
    leaves the headers as they are. *)
Lemma commit_locked_spec fuel s v dl Cr :
  wf s v → is_Some (dls s !! dl) →
  slot_chain s (commit_releases s) Cr →
  Forall (λ d, d ∉ free_pool v) (slot_lists (commit_releases s) Cr) →
  length Cr + 2 ≤ fuel →
  ∃ s', (if singleshot s then vsp1_dl_list_commit_singleshot dl s
         else vsp1_dl_list_commit_continuous fuel dl s) = Done s' ∧
    ∀ e, header <$> dls s' !! e = header <$> dls s !! e.
Proof.
  intros Hwf [l Hl] Hch Hfree0 Hfuel.
  pose proof (proj1 (Forall_forall _ _) Hfree0) as Hfree.
  unfold commit_releases in Hch, Hfree.
  destruct (singleshot s) eqn:Hss.
  { unfold vsp1_dl_list_commit_singleshot.
    rewrite (hw_enqueue_Done _ _ _ Hl), bind_Done. by eexists. }
  unfold vsp1_dl_list_commit_continuous.
  destruct (vsp1_dl_list_hw_update_pending s) eqn:Hup.
  - assert (∃ s1, warn_pending_internal s = Done s1 ∧
              links s1 = links s ∧ dls s1 = dls s ∧ dlbs s1 = dlbs s ∧
              pending s1 = pending s) as (s1 & -> & Hl1 & Hd1 & Hb1 & Hp1).
    { unfold warn_pending_internal.
      destruct (pending s) as [p|] eqn:Hp; [|by exists s].
      simpl in Hch. unfold chain_of in Hch.
      destruct (dls s !! p) as [lp|] eqn:Hlp; [|done].
      rewrite (get_dl_Done _ _ _ Hlp), bind_Done.
      eexists. split; [reflexivity|]. by destruct (internal lp). }
    rewrite bind_Done, Hp1.
    destruct (put_spec fuel s1 v (pending s) Cr)
      as (s3 & -> & _ & _ & Hdls3);
      [by apply (wf_ext s)|by apply (slot_chain_ext s)|done|done|].
    rewrite bind_Done. eexists. split; [reflexivity|]. intros e. simpl.
    by rewrite Hdls3, recycle_all_header, Hd1.
  - rewrite (hw_enqueue_Done _ _ _ Hl), bind_Done.
    change (queued (set_mmio _ s)) with (queued s).
    destruct (put_spec fuel (set_mmio (hw_program s l) s) v (queued s) Cr)
      as (s3 & -> & _ & _ & Hdls3);
      [by apply (wf_ext s)|by apply (slot_chain_ext s)|done|done|].
    rewrite bind_Done. eexists. split; [reflexivity|]. intros e. simpl.
    by rewrite Hdls3, recycle_all_header.
Qed.

(** C3: in header mode vsp1_dl_list_commit(), on a head with the
    chained lists [C], returns and leaves in the header of each list of
    the chain the forward link of the three-way rule.  It passes to
    fill_header an [is_last] that is true for the last list of the chain
    only (for the head, when nothing is chained to it): a list that is
    not the last one links to the device address of the next list, with
    the auto-start flag alone; the last one links to its own header with
    the auto-start and the interrupt-enable flags in continuous mode,
    and has the interrupt-enable flag alone, its link untouched, in
    single-shot mode.  [Cr] is the chain of the display list that the
    commit releases. *)
Theorem commit_links_chain fuel s v dl i C Cr :
  wf s v → mode s = VSP1_DL_MODE_HEADER →
  chain_is s dl C → headers_fit s v (dl :: C) →
  slot_chain s (commit_releases s) Cr →
  Forall (λ d, d ∉ free_pool v) (slot_lists (commit_releases s) Cr) →
  HEADER_LISTS ≤ fuel → length C < fuel → length Cr + 2 ≤ fuel →
  list_empty (DL_CHAIN dl) (links s) = Done (bool_decide (C = [])) ∧
  (∀ j c, C !! j = Some c →
     list_is_last (DL_CHAIN c) (DL_CHAIN dl) (links s) =
     Done (bool_decide (S j = length C))) ∧
  ∃ s', vsp1_dl_list_commit fuel dl i s = Done s' ∧
    ∀ k e l h, (dl :: C) !! k = Some e → dls s !! e = Some l →
      header l = Some h →
      ∃ l' h', dls s' !! e = Some l' ∧ header l' = Some h' ∧
        (next_header h', flags h') =
          filled_link (singleshot s) e l h (chain_next (dl :: C) k)
            (dma_of s (chain_next (dl :: C) k))
            (bool_decide (S k = length (dl :: C))) ∧
        match (dl :: C) !! S k with
        | Some next =>
            next_header h' = u32 (dma_of s next) ∧
            flags h' = VSP1_DLH_AUTO_START
        | None =>
            if singleshot s then
              next_header h' = next_header h ∧
              flags h' = VSP1_DLH_INT_ENABLE
            else
              next_header h' = u32 (dma l) ∧
              flags h' = Z.lor VSP1_DLH_INT_ENABLE VSP1_DLH_AUTO_START
        end.
Proof.
  intros Hwf Hm Hring Hfit Hch Hfree Hfuel8 HfuelC HfuelR.
  pose proof Hring as [Hnd Hlinked].
  assert (NoDup (dl :: C)) as HndE.
  { eapply (NoDup_fmap DL_CHAIN). by rewrite fmap_cons. }
  split; [|split].
  - rewrite (ring_list_empty _ _ _ Hring). f_equal.
    apply bool_decide_ext. by destruct C.
  - intros j c Hj.
    pose proof (take_drop_middle _ _ _ Hj) as HC.
    rewrite <- HC in Hlinked. rewrite fmap_app, fmap_cons in Hlinked.
    pose proof (linked_middle _ _ _ _ _ _ Hlinked) as Hn.
    rewrite hd_fmap_chain in Hn.
    rewrite (list_is_last_Done _ _ _ _ Hn). f_equal.
    by apply (chain_last_test dl C j c).
  - assert (∀ e, e ∈ dl :: C →
              ∃ l h, dls s !! e = Some l ∧ header l = Some h ∧
                     length (fragments v e) < HEADER_LISTS) as Hel.
    { intros e He. by eapply headers_fit_elim. }
    destruct (commit_fill_headers_spec fuel s v dl C Hwf Hring Hel
                Hfuel8 HfuelC) as (s0 & E0 & Hocw0 & Hfilled & _).
    destruct (Hel dl) as (ld & hd & Hld & Hhd & _); [set_solver|].
    pose proof (Hfilled 0 dl ld hd eq_refl Hld Hhd) as Hld0.
    assert (committable s v dl C) as Hc.
    { split; [eauto|]. intros _. split; [done|]. exact Hfit. }
    destruct (commit_prepare_spec fuel s v dl C i Hwf Hc Hfuel8 HfuelC)
      as (s1 & E1 & Hocw & _).
    assert (∀ e, header <$> dls s1 !! e = header <$> dls s0 !! e) as Hh1.
    { rewrite decide_True in E1 by done.
      rewrite E0, bind_Done, (modify_dl_Done _ _ _ _ Hld0) in E1.
      injection E1 as <-. intros e. simpl.
      destruct (decide (e = dl)) as [->|Hne].
      - by rewrite lookup_insert_eq, Hld0.
      - by rewrite lookup_insert_ne. }
    pose proof Hocw as [Hoi Hom Hos Hoa Hoq Hop Hol Hob Homm Hog Howr Hod].
    assert (commit_releases s1 = commit_releases s) as Hrel.
    { unfold commit_releases.
      by rewrite Hos, Hop, Hoq, (hw_update_pending_ext s s1). }
    destruct (commit_locked_spec fuel s1 v dl Cr) as (s' & E' & Hh');
      [by eapply only_commit_writes_wf
      |by eapply only_commit_writes_dom; eauto
      |rewrite Hrel; by eapply only_commit_writes_slot_chain
      |by rewrite Hrel|done|].
    exists s'. split.
    { rewrite commit_unfold, E1, bind_Done. exact E'. }
    intros k e l h Hk Hl Hh.
    pose proof (Hfilled k e l h Hk Hl Hh) as Hl0.
    pose proof (Hh' e) as Hhe. rewrite Hh1, Hl0 in Hhe. simpl in Hhe.
    destruct (dls s' !! e) as [l'|]; [|done]. injection Hhe as Hhe.
    eexists _, _. split; [reflexivity|]. split; [exact Hhe|].
    split; [unfold filled_header; simpl;
            by destruct (filled_link _ _ _ _ _ _ _)|].
    unfold filled_header, filled_link, chain_next.
    destruct ((dl :: C) !! S k) as [next|] eqn:Hnext.
    + assert (next ≠ e) as Hne.
      { intros ->. pose proof (NoDup_lookup _ _ _ _ HndE Hk Hnext). lia. }
      rewrite bool_decide_eq_false_2 by done.
      apply lookup_lt_Some in Hnext.
      rewrite bool_decide_eq_false_2 by (simpl in *; lia). done.
    + apply lookup_ge_None in Hnext. apply lookup_lt_Some in Hk.
      rewrite (bool_decide_eq_true_2 (S k = _)) by (simpl in *; lia).
      rewrite andb_false_r. by destruct (singleshot s).
Qed.
End commit_chain.


(** ** Taking a display list from the pool *)

Lemma get_spec s v :
  wf s v →
  match free_pool v with
  | [] => vsp1_dl_list_get s = Done (None, s)
  | d :: L =>
      ∃ s', vsp1_dl_list_get s = Done (Some d, s') ∧
        wf s' (View L (gc_fragments v) (fragments v)) ∧
        links_only s s' ∧ chain_is s' d []
  end.
Proof.
  intros Hwf. pose proof Hwf as [].
  unfold vsp1_dl_list_get. unfold pool_is in wf_pool0.
  rewrite (ring_list_empty _ _ _ wf_pool0), bind_Done.
  destruct (free_pool v) as [|d L] eqn:Hpool; [done|].
  simpl bool_decide. cbv iota.
  rewrite (rd_next_Done _ _ _ (ring_first _ _ _ wf_pool0)), bind_Done.
  simpl hd. simpl deref. rewrite bind_Done. simpl list_entry_dl.
  rewrite bind_Done.
  destruct (ring_del_first _ _ _ _ wf_pool0) as (m1 & E1 & R1 & D1 & F1).
  rewrite (on_links_Done _ _ _ E1), bind_Done.
  assert (is_Some (dls s !! d)) as Hd by (apply wf_pool_alloc0; set_solver).
  destruct (ring_init m1 (DL_CHAIN d)) as (m2 & E2 & R2 & D2 & F2).
  { apply D1, wf_cells0, Hd. }
  unfold on_links. simpl. rewrite E2, bind_Done. simpl.
  eexists. split; [reflexivity|].
  assert (∀ a, (∀ c, a ≠ DL_CHAIN c) → a ∉ DLM_FREE :: DL_LIST d :: (DL_LIST <$> L) →
               m2 !! a = links s !! a) as Hframe.
  { intros a Ha1 Ha2. rewrite F2 by apply Ha1. by apply F1. }
  split; [|split; [by constructor|done]].
  constructor; simpl.
  - unfold pool_is. simpl. apply (ring_ext m1); [done|].
    intros x Hx. apply F2. set_solver.
  - intros d' Hd'. apply wf_pool_alloc0. set_solver.
  - unfold gc_is. simpl. apply (ring_ext (links s)); [done|].
    intros x Hx. apply Hframe; set_solver.
  - done.
  - intros d' Hd'. unfold fragments_are. simpl.
    apply (ring_ext (links s)); [by apply wf_frags0|].
    intros x Hx. apply Hframe; set_solver.
  - intros d' Hd'. rewrite !D2, !D1. by apply wf_cells0.
  - done.
  - done.
  - done.
  - done.
Qed.

(** ** Attaching fragments and chaining lists *)

Lemma add_fragment_spec s v dl b :
  wf s v → mode s = VSP1_DL_MODE_HEADER → is_Some (dls s !! dl) →
  is_Some (dlbs s !! b) → is_Some (links s !! DLB_LIST b) →
  b ∉ gc_fragments v → (∀ d, is_Some (dls s !! d) → b ∉ fragments v d) →
  ∃ s', vsp1_dl_list_add_fragment dl b s = Done (0%Z, s') ∧
    wf s' (View (free_pool v) (gc_fragments v)
             (λ d, if decide (d = dl) then fragments v dl ++ [b]
                   else fragments v d)) ∧
    links_only s s'.
Proof.
  intros Hwf Hm [l Hl] Hb Hcell Hgc Hfree. pose proof Hwf as [].
  unfold vsp1_dl_list_add_fragment.
  rewrite (get_dl_Done _ _ _ Hl), bind_Done.
  rewrite decide_False by (by intros Hne; apply Hne).
  destruct (ring_add_tail (links s) (DL_FRAGMENTS dl)
              (DLB_LIST <$> fragments v dl) (DLB_LIST b))
    as (m1 & E1 & R1 & D1 & F1); [by apply wf_frags0; eauto| |done|].
  { specialize (Hfree dl). set_solver. }
  rewrite (on_links_Done _ _ _ E1), bind_Done.
  eexists. split; [reflexivity|]. split; [|by constructor].
  constructor; simpl.
  - unfold pool_is. simpl. apply (ring_ext (links s)); [done|].
    intros x Hx. apply F1; set_solver.
  - done.
  - unfold gc_is. simpl. apply (ring_ext (links s)); [done|].
    intros x Hx. apply F1; set_solver.
  - done.
  - intros d Hd. unfold fragments_are. simpl. case_decide as Hdd.
    + subst d. by rewrite fmap_app.
    + apply (ring_ext (links s)); [by apply wf_frags0|].
      intros x Hx. apply F1; [|set_solver].
      specialize (Hfree d Hd). set_solver.
  - intros d Hd. rewrite !D1. by apply wf_cells0.
  - intros d b' Hd. case_decide; [|by eauto].
    intros Hin. apply elem_of_app in Hin as [Hin|Hin]; [by eauto|].
    apply list_elem_of_singleton in Hin. by subst.
  - intros d b' Hd. case_decide; [|by eauto].
    intros Hin. apply elem_of_app in Hin as [Hin|Hin]; [by eauto|].
    apply list_elem_of_singleton in Hin. by subst.
  - intros d1 d2 b' H1 H2.
    pose proof (Hfree d1 H1). pose proof (Hfree d2 H2).
    pose proof (wf_frags_disj0 d1 d2 b' H1 H2).
    repeat case_decide; set_solver.
  - done.
Qed.

Lemma add_chain_spec s v head c l C :
  wf s v → mode s = VSP1_DL_MODE_HEADER → dls s !! head = Some l →
  chain_is s head C → c ∉ head :: C → is_Some (links s !! DL_CHAIN c) →
  ∃ s', vsp1_dl_list_add_chain head c s = Done (0%Z, s') ∧
    chain_is s' head (C ++ [c]) ∧
    dls s' = <[head := set_has_chain true l]> (dls s) ∧ wf s' v.
Proof.
  intros Hwf Hm Hl Hring Hc Hcell. pose proof Hwf as [].
  unfold vsp1_dl_list_add_chain.
  rewrite (get_dl_Done _ _ _ Hl), bind_Done.
  rewrite decide_False by (by intros Hne; apply Hne).
  rewrite (modify_dl_Done _ _ _ _ Hl), bind_Done.
  destruct (ring_add_tail (links s) (DL_CHAIN head) (DL_CHAIN <$> C)
              (DL_CHAIN c)) as (m1 & E1 & R1 & D1 & F1); [done| |done|].
  { set_solver. }
  unfold on_links. simpl. rewrite E1, !bind_Done. simpl.
  eexists. split; [reflexivity|].
  split; [unfold chain_is; simpl; by rewrite fmap_app|]. split; [done|].
  assert (∀ d', is_Some (<[head := set_has_chain true l]> (dls s) !! d')
                ↔ is_Some (dls s !! d')) as Hdom.
  { intros d'. rewrite lookup_insert_is_Some. split.
    - intros [<-|[_ ?]]; eauto.
    - intros Hs. destruct (decide (head = d')); [by left|by right]. }
  constructor; simpl.
  - unfold pool_is. simpl. apply (ring_ext (links s)); [done|].
    intros x Hx. apply F1; set_solver.
  - intros d' Hd'. apply Hdom. eauto.
  - unfold gc_is. simpl. apply (ring_ext (links s)); [done|].
    intros x Hx. apply F1; set_solver.
  - done.
  - intros d' Hd'. apply Hdom in Hd'. unfold fragments_are. simpl.
    apply (ring_ext (links s)); [by apply wf_frags0|].
    intros x Hx. apply F1; set_solver.
  - intros d' Hd'. apply Hdom in Hd'. rewrite !D1. by apply wf_cells0.
  - intros d' b Hd'. apply Hdom in Hd'. eauto.
  - intros d' b Hd'. apply Hdom in Hd'. eauto.
  - intros d1 d2 b H1 H2. apply Hdom in H1. apply Hdom in H2. eauto.
  - intros d' l' Hl'. apply lookup_insert_Some in Hl' as [[<- <-]|[_ Hl']];
      [|by eapply wf_headers0].
    by apply (wf_headers0 head l).
Qed.

(** ** Creating a manager *)

Lemma alloc_spec s v a :
  wf s v →
  ∃ d l s',
    vsp1_dl_list_alloc (Some a) s = (Some d, s') ∧
    dls s !! d = None ∧ dls s' = <[d := l]> (dls s) ∧
    dlb_num_entries (body0 l) = 0%Z ∧ has_chain l = false ∧
    wf s' (View (free_pool v) (gc_fragments v)
             (λ d', if decide (d' = d) then [] else fragments v d')) ∧
    active s' = active s ∧ queued s' = queued s ∧ pending s' = pending s ∧
    index s' = index s ∧ mode s' = mode s ∧ singleshot s' = singleshot s ∧
    mmio s' = mmio s.
Proof.
  intros Hwf. pose proof Hwf as [].
  unfold vsp1_dl_list_alloc, vsp1_dl_body_init.
  set (d := fresh (dom (dls s))).
  assert (dls s !! d = None) as Hd.
  { apply not_elem_of_dom. apply is_fresh. }
  eexists d, _, _. split; [reflexivity|]. clearbody d. split; [done|].
  split; [reflexivity|].
  split; [by destruct (decide (mode s = VSP1_DL_MODE_HEADER))|].
  split; [by destruct (decide (mode s = VSP1_DL_MODE_HEADER))|].
  split; [|done].
  assert (∀ d', is_Some (dls s !! d') → d' ≠ d) as Hne.
  { intros d' [? ?] ->. congruence. }
  assert (∀ x, (∀ y, x = DL_LIST y ∨ x = DL_CHAIN y ∨ x = DL_FRAGMENTS y →
                     y ≠ d) →
               <[DL_FRAGMENTS d :=
                   ListHead (Ptr (DL_FRAGMENTS d)) (Ptr (DL_FRAGMENTS d))]>
                 (<[DL_CHAIN d := ListHead NULL NULL]>
                    (<[DL_LIST d := ListHead NULL NULL]> (links s))) !! x
               = links s !! x) as Hframe.
  { intros x Hx. rewrite !lookup_insert_ne; [done|..];
      intros <-; by eapply Hx; eauto. }
  assert (∀ (l' : vsp1_dl_list) d', is_Some (<[d := l']> (dls s) !! d') →
                d' = d ∨ is_Some (dls s !! d')) as Hdom.
  { intros l' d'. rewrite lookup_insert_is_Some. intros [<-|[_ ?]]; eauto. }
  constructor; simpl.
  - unfold pool_is. simpl. apply (ring_ext (links s)); [done|].
    intros x Hx. apply Hframe. intros y Hy ->.
    assert (d ∈ free_pool v) as Hin by set_solver.
    apply wf_pool_alloc0 in Hin. by eapply Hne.
  - intros d' Hd'. rewrite lookup_insert_is_Some.
    destruct (decide (d = d')); [by left|right]. eauto.
  - unfold gc_is. simpl. apply (ring_ext (links s)); [done|].
    intros x Hx. apply Hframe. set_solver.
  - done.
  - intros d' Hd'. unfold fragments_are. simpl.
    destruct (decide (d' = d)) as [->|Hdd].
    + split; [apply NoDup_singleton|]. simpl. unfold link, nxt, prv.
      by rewrite lookup_insert_eq.
    + apply Hdom in Hd' as [?|Hd']; [done|].
      apply (ring_ext (links s)); [by apply wf_frags0|].
      intros x Hx. apply Hframe. set_solver.
  - intros d' Hd'. apply Hdom in Hd' as [->|Hd'].
    + rewrite lookup_insert_ne by done. rewrite lookup_insert_ne by done.
      rewrite lookup_insert_eq. rewrite lookup_insert_ne by done.
      rewrite lookup_insert_eq. eauto.
    + rewrite !lookup_insert_is_Some. split; right; (split; [done|]).
      * right. split; [done|]. right. split; [|by apply wf_cells0].
        intros [= ->]. by eapply Hne.
      * right. split; [intros [= ->]; by eapply Hne|].
        right. split; [done|]. by apply wf_cells0.
  - intros d' b Hd'. destruct (decide (d' = d)); [set_solver|].
    apply Hdom in Hd' as [?|Hd']; [done|]. eauto.
  - intros d' b Hd'. destruct (decide (d' = d)); [set_solver|].
    apply Hdom in Hd' as [?|Hd']; [done|]. eauto.
  - intros d1 d2 b H1 H2.
    destruct (decide (d1 = d)); [set_solver|].
    destruct (decide (d2 = d)); [set_solver|].
    apply Hdom in H1 as [?|H1]; [done|].
    apply Hdom in H2 as [?|H2]; [done|]. eauto.
  - intros d' l' Hl'. apply lookup_insert_Some in Hl' as [[<- <-]|[_ Hl']];
      [|by eapply wf_headers0].
    unfold header_ok. by destruct (decide (mode s = VSP1_DL_MODE_HEADER)).
Qed.

Lemma pool_add_tail_spec s v d :
  wf s v → is_Some (dls s !! d) → d ∉ free_pool v →
  ∃ s', on_links (list_add_tail (DL_LIST d) DLM_FREE) s = Done s' ∧
    wf s' (View (free_pool v ++ [d]) (gc_fragments v) (fragments v)) ∧
    links_only s s'.
Proof.
  intros Hwf Hd Hfree. pose proof Hwf as [].
  destruct (ring_add_tail (links s) DLM_FREE (DL_LIST <$> free_pool v)
              (DL_LIST d)) as (m1 & E1 & R1 & D1 & F1); [done| | |].
  { set_solver. }
  { by apply wf_cells0. }
  rewrite (on_links_Done _ _ _ E1).
  eexists. split; [reflexivity|]. split; [|by constructor].
  constructor; simpl; try done.
  - unfold pool_is. simpl. by rewrite fmap_app.
  - intros d' Hd'. apply elem_of_app in Hd' as [Hd'|Hd']; [eauto|].
    apply list_elem_of_singleton in Hd'. by subst.
  - unfold gc_is. simpl. apply (ring_ext (links s)); [done|].
    intros x Hx. apply F1; set_solver.
  - intros d' Hd'. unfold fragments_are. simpl.
    apply (ring_ext (links s)); [by apply wf_frags0|].
    intros x Hx. apply F1; set_solver.
  - intros d' Hd'. rewrite !D1. by apply wf_cells0.
Qed.

Lemma create_prealloc_spec n i mems s v :
  (∀ j, is_Some (mems j)) → wf s v → pool_clean s v →
  ∃ s' v',
    create_prealloc n i mems s = Done (Some s') ∧
    wf s' v' ∧ pool_clean s' v' ∧
    length (free_pool v') = length (free_pool v) + n ∧
    active s' = active s ∧ queued s' = queued s ∧ pending s' = pending s ∧
    index s' = index s ∧ mode s' = mode s ∧ singleshot s' = singleshot s ∧
    mmio s' = mmio s.
Proof.
  intros Hmems. revert i s v.
  induction n as [|n IH]; intros i s v Hwf Hclean.
  { exists s, v. simpl. rewrite Nat.add_0_r. done. }
  simpl. destruct (Hmems i) as [a ->].
  destruct (alloc_spec s v a Hwf)
    as (d & l & s1 & -> & Hd & Hdls1 & Hn0 & Hhc & Hwf1 & Ha1 & Hq1 & Hp1
        & Hi1 & Hm1 & Hs1 & Hr1).
  destruct (pool_add_tail_spec s1 _ d Hwf1) as (s2 & -> & Hwf2 & Hlo).
  { rewrite Hdls1, lookup_insert_eq. eauto. }
  { simpl. intros Hin. apply (wf_pool_alloc _ _ Hwf) in Hin as [? ?].
    congruence. }
  rewrite bind_Done. simpl in Hwf2.
  destruct (IH (S i) s2 _ Hwf2) as (s' & v' & E & Hwf' & Hclean' & Hlen & Hrest).
  { unfold pool_clean. simpl. apply Forall_app. split.
    - apply Forall_forall. intros d' Hd'.
      pose proof (proj1 (Forall_forall _ _) Hclean d' Hd') as Hc.
      unfold clean in *. simpl.
      rewrite (lo_dls _ _ Hlo), Hdls1.
      assert (d ≠ d') as Hne.
      { intros ->. apply (wf_pool_alloc _ _ Hwf) in Hd' as [? ?]. congruence. }
      rewrite lookup_insert_ne by done.
      destruct (dls s !! d'); [|done]. by rewrite decide_False by done.
    - apply Forall_singleton. unfold clean. simpl.
      rewrite (lo_dls _ _ Hlo), Hdls1, lookup_insert_eq.
      by rewrite decide_True. }
  exists s', v'. split; [done|]. split; [done|]. split; [done|].
  destruct Hlo. destruct Hrest as (? & ? & ? & ? & ? & ? & ?).
  split; [simpl in Hlen; rewrite length_app in Hlen; simpl in Hlen; lia|].
  repeat split; congruence.
Qed.

Lemma create_spec vsp1 idx n mems :
  (∀ j, is_Some (mems j)) →
  ∃ s v,
    vsp1_dlm_create vsp1 idx n true mems = Done (Some s) ∧
    wf s v ∧ pool_clean s v ∧ length (free_pool v) = n ∧
    active s = None ∧ queued s = None ∧ pending s = None ∧
    singleshot s = uapi vsp1.
Proof.
  intros Hmems. unfold vsp1_dlm_create.
  set (s0 := Manager _ _ _ _ _ _ _ _ _ _ _ _).
  destruct (create_prealloc_spec n 0 mems s0 (View [] [] (λ _, [])) Hmems)
    as (s & v & E & Hwf & Hclean & Hlen & Ha & Hq & Hp & _ & _ & Hs & _).
  - apply wf_by_computation. unfold s0. by vm_compute.
  - constructor.
  - exists s, v. unfold s0 in *. simpl in *.
    split; [done|]. split; [done|]. split; [done|]. split; [done|].
    split; [done|]. split; [done|]. split; done.
Qed.

(** ** The free pool *)

Lemma recycle_all_clean D m d l :
  m !! d = Some l →
  d ∈ D ∨ (dlb_num_entries (body0 l) = 0%Z ∧ has_chain l = false) →
  ∃ l', recycle_all D m !! d = Some l' ∧
        dlb_num_entries (body0 l') = 0%Z ∧ has_chain l' = false.
Proof.
  revert m l. induction D as [|d0 D IH]; intros m l Hl Hor.
  { destruct Hor as [Hin|Hp]; [set_solver|eauto]. }
  simpl. destruct (decide (d = d0)) as [->|Hne].
  - apply (IH _ (recycled l)); [by rewrite lookup_alter_eq, Hl|].
    by right.
  - apply (IH _ l); [by rewrite lookup_alter_ne|].
    destruct Hor as [Hin|Hp]; [left; set_solver|by right].
Qed.

Lemma release_view_gc_snoc D x v :
  x ∉ D →
  gc_fragments (release_view (D ++ [x]) v) =
  fragments v x ++ gc_fragments (release_view D v).
Proof.
  intros Hx. rewrite release_view_snoc. simpl.
  by rewrite release_view_fragments, decide_False.
Qed.

Lemma pool_clean_release s s' v D :
  pool_clean s v → dls s' = recycle_all D (dls s) →
  (∀ d, d ∈ D → is_Some (dls s !! d)) →
  pool_clean s' (release_view D v).
Proof.
  intros Hclean Hdls HD. unfold pool_clean.
  rewrite release_view_free_pool. apply Forall_app. split.
  - apply Forall_forall. intros d Hd.
    pose proof (proj1 (Forall_forall _ _) Hclean d Hd) as Hc.
    unfold clean in *. destruct (dls s !! d) as [l|] eqn:Hl; [|done].
    destruct Hc as (Hn & Hc & Hf).
    destruct (recycle_all_clean D _ _ _ Hl) as (l' & Hl' & Hn' & Hc');
      [by right|].
    rewrite Hdls, Hl'. split; [done|]. split; [done|].
    rewrite release_view_fragments. by case_decide.
  - apply Forall_forall. intros d Hd.
    destruct (HD d Hd) as [l Hl].
    destruct (recycle_all_clean D _ _ _ Hl) as (l' & Hl' & Hn' & Hc');
      [by left|].
    unfold clean. rewrite Hdls, Hl'. split; [done|]. split; [done|].
    rewrite release_view_fragments. by rewrite decide_True.
Qed.

Lemma chain_of_alloc s x C d :
  chain_of s x C → d ∈ C ++ [x] → is_Some (dls s !! d).
Proof.
  unfold chain_of. intros Hch Hd.
  destruct (dls s !! x) as [l|] eqn:Hl; [|done].
  apply elem_of_app in Hd as [Hd|Hd].
  - destruct (has_chain l); [|subst; set_solver].
    destruct Hch as [_ Hflat].
    destruct (no_chain_elim _ _ _ Hflat Hd) as (? & ? & ?). eauto.
  - apply list_elem_of_singleton in Hd as ->. eauto.
Qed.

(** C7: the display lists of the free pool have no entry written, no
    fragment and no chain flag.  This holds of the pool of a manager
    that was just created; a release keeps it and establishes it for the
    lists released: vsp1_dl_list_put() appends the list [x] (after its
    chained lists [C]) to the pool with its entry count reset and its
    chain flag cleared, and moves its fragments to the front of the
    garbage list; and vsp1_dl_list_get() keeps it, so that the list it
    returns is in this state. *)
Theorem pool_lists_are_clean fuel s v x C :
  wf s v → pool_clean s v → chain_of s x C →
  Forall (λ d, d ∉ free_pool v) (C ++ [x]) → length C + 2 ≤ fuel →
  (∃ s', vsp1_dl_list_put fuel (Some x) s = Done s' ∧
     wf s' (release_view (C ++ [x]) v) ∧
     pool_clean s' (release_view (C ++ [x]) v) ∧
     free_pool (release_view (C ++ [x]) v) = free_pool v ++ C ++ [x] ∧
     gc_fragments (release_view (C ++ [x]) v) =
       fragments v x ++ gc_fragments (release_view C v) ∧
     clean s' (release_view (C ++ [x]) v) x) ∧
  (∃ o s' v', vsp1_dl_list_get s = Done (o, s') ∧
     wf s' v' ∧ pool_clean s' v' ∧
     match o with
     | Some d => free_pool v = d :: free_pool v' ∧ clean s' v' d
     | None => free_pool v = [] ∧ s' = s
     end) ∧
  (∀ vsp1 idx n mems, (∀ j, is_Some (mems j)) →
     ∃ s0 v0, vsp1_dlm_create vsp1 idx n true mems = Done (Some s0) ∧
       wf s0 v0 ∧ pool_clean s0 v0 ∧ length (free_pool v0) = n).
Proof.
  intros Hwf Hclean Hch Hfree Hfuel. split; [|split].
  - destruct (put_spec fuel s v (Some x) C Hwf Hch)
      as (s' & E & Hwf' & _ & Hdls); [|done|].
    { intros d Hd. by apply (proj1 (Forall_forall _ _) Hfree d). }
    unfold slot_lists in *. simpl in *.
    assert (pool_clean s' (release_view (C ++ [x]) v)) as Hclean'.
    { eapply pool_clean_release; [done|done|].
      intros d Hd. by eapply chain_of_alloc. }
    exists s'. split; [done|]. split; [done|]. split; [done|].
    split; [by rewrite release_view_free_pool|]. split.
    + apply release_view_gc_snoc.
      unfold chain_of in Hch. destruct (dls s !! x) as [l|]; [|done].
      destruct (has_chain l); [|subst; set_solver].
      destruct Hch as [[Hnd _] _]. apply NoDup_cons in Hnd as [Hx _].
      set_solver.
    + apply (proj1 (Forall_forall _ _) Hclean').
      rewrite release_view_free_pool. set_solver.
  - pose proof (get_spec s v Hwf) as Hget.
    destruct (free_pool v) as [|d L] eqn:Hpool.
    + exists None, s, v. split; [done|]. split; [done|]. split; [done|].
      by split.
    + destruct Hget as (s' & E & Hwf' & Hlo & _).
      exists (Some d), s', (View L (gc_fragments v) (fragments v)).
      split; [done|]. split; [done|].
      unfold pool_clean in Hclean. rewrite Hpool in Hclean.
      apply Forall_cons in Hclean as [Hd HL].
      unfold pool_clean, clean in *. simpl. rewrite (lo_dls _ _ Hlo).
      done.
  - intros vsp1 idx n mems Hmems.
    destruct (create_spec vsp1 idx n mems Hmems)
      as (s0 & v0 & ? & ? & ? & ? & _).
    by exists s0, v0.
Qed.

(** C8: in headerless mode, vsp1_dl_list_add_fragment() and
    vsp1_dl_list_add_chain() return -EINVAL and leave the state as it
    is.  In header mode both return 0: the fragment is appended to the
    fragments of the list; the display list is appended to the chain of
    the head, whose chain flag is set. *)
Theorem fragments_and_chains_need_header s v dl l :
  wf s v → dls s !! dl = Some l →
  (mode s ≠ VSP1_DL_MODE_HEADER →
     (∀ b, vsp1_dl_list_add_fragment dl b s = Done ((- EINVAL)%Z, s)) ∧
     (∀ c, vsp1_dl_list_add_chain dl c s = Done ((- EINVAL)%Z, s))) ∧
  (mode s = VSP1_DL_MODE_HEADER →
     (∀ b, is_Some (dlbs s !! b) → is_Some (links s !! DLB_LIST b) →
        b ∉ gc_fragments v →
        Forall (λ d, b ∉ fragments v d) (map_to_list (dls s)).*1 →
        ∃ s', vsp1_dl_list_add_fragment dl b s = Done (0%Z, s') ∧
          wf s' (View (free_pool v) (gc_fragments v)
                   (λ d, if decide (d = dl) then fragments v dl ++ [b]
                         else fragments v d)) ∧
          links_only s s') ∧
     (∀ c C, chain_is s dl C → c ∉ dl :: C →
        is_Some (links s !! DL_CHAIN c) →
        ∃ s', vsp1_dl_list_add_chain dl c s = Done (0%Z, s') ∧
          chain_is s' dl (C ++ [c]) ∧
          dls s' = <[dl := set_has_chain true l]> (dls s) ∧ wf s' v)).
Proof.
  intros Hwf Hl. split.
  - intros Hm. split.
    + intros b. unfold vsp1_dl_list_add_fragment.
      rewrite (get_dl_Done _ _ _ Hl), bind_Done. by rewrite decide_True.
    + intros c. unfold vsp1_dl_list_add_chain.
      rewrite (get_dl_Done _ _ _ Hl), bind_Done. by rewrite decide_True.
  - intros Hm. split.
    + intros b Hb Hcell Hgc Hfree.
      apply add_fragment_spec; eauto.
      intros d [ld Hd].
      apply (proj1 (Forall_forall _ _) Hfree d).
      apply list_elem_of_fmap. exists (d, ld). split; [done|].
      by apply elem_of_map_to_list.
    + intros c C Hring Hc Hcell. by eapply add_chain_spec.
Qed.

(** C5, as the code has it: vsp1_dl_list_put() and
    __vsp1_dl_list_put() do nothing for a null pointer, and return a list
    that is not in the free pool to it, after its chained lists.  (A
    list that is already in the pool is not recognised: see
    [put_twice_changes_pool].) *)
Theorem put_null_or_taken fuel s v x C :
  wf s v → chain_of s x C →
  Forall (λ d, d ∉ free_pool v) (C ++ [x]) → length C + 2 ≤ fuel →
  vsp1_dl_list_put fuel None s = Done s ∧
  __vsp1_dl_list_put fuel None s = Done s ∧
  ∃ s', vsp1_dl_list_put fuel (Some x) s = Done s' ∧
    wf s' (release_view (C ++ [x]) v) ∧
    free_pool (release_view (C ++ [x]) v) = free_pool v ++ C ++ [x].
Proof.
  intros Hwf Hch Hfree Hfuel. split; [done|]. split; [apply put_None|].
  destruct (put_spec fuel s v (Some x) C Hwf Hch)
    as (s' & E & Hwf' & _ & _); [|done|].
  { intros d Hd. by apply (proj1 (Forall_forall _ _) Hfree d). }
  exists s'. split; [done|]. split; [done|].
  by rewrite release_view_free_pool.
Qed.

(** C5, as the claim has it, fails: lists 0 and 1 were released and the
    free pool is 2, 3, 4, 0, 1.  A second release of list 0 returns, but
    not with the same state: list_add_tail() links the node of list 0 in
    front of the head again, which cuts list 1 off the walk from the
    head, and the free list is no longer the pool it was.  (List 0 is
    not the tail of the pool here: the links that list_add_tail() starts
    from are consistent, so that the optional sanity check of the kernel
    lists would not stop it either.) *)
Lemma put_twice_changes_pool :
  pool_is released_twice.1 [2; 3; 4; 0; 1] ∧
  ∃ s', released_twice.2 = Done s' ∧ s' ≠ released_twice.1 ∧
    ¬ pool_is s' [2; 3; 4; 0; 1] ∧
    links released_twice.1 !! DL_LIST 0 =
      Some (ListHead (Ptr (DL_LIST 1)) (Ptr (DL_LIST 4))) ∧
    links s' !! DL_LIST 0 =
      Some (ListHead (Ptr DLM_FREE) (Ptr (DL_LIST 1))) ∧
    links s' !! DL_LIST 4 =
      Some (ListHead (Ptr (DL_LIST 0)) (Ptr (DL_LIST 3))) ∧
    links s' !! DL_LIST 1 =
      Some (ListHead (Ptr (DL_LIST 0)) (Ptr (DL_LIST 0))).
Proof.
  split; [by_computation|].
  eexists. split; [by vm_compute|].
  split.
  - intros Heq. apply (f_equal (λ s, links s !! DL_LIST 0)) in Heq.
    vm_compute in Heq. discriminate.
  - split; [by_computation|]. by vm_compute.
Qed.

(** * Further properties *)

(** ** Releasing memory *)

Lemma bind_Done_inv {A B} (f : A → result B) (r : result A) (b : B) :
  r ≫= f = Done b → ∃ a, r = Done a ∧ f a = Done b.
Proof. destruct r; simpl; intros; [eauto | done | done]. Qed.

Lemma slots_kept_refl s : slots_kept s s.
Proof. by constructor. Qed.

Lemma slots_kept_trans s1 s2 s3 :
  slots_kept s1 s2 → slots_kept s2 s3 → slots_kept s1 s3.
Proof. intros [] []. constructor; congruence. Qed.

Lemma fragment_free_Done b s body :
  dlbs s !! b = Some body →
  vsp1_dl_fragment_free (Some b) s = Done (kfree_dlb b s).
Proof.
  intros Hb. unfold vsp1_dl_fragment_free, modify_dlb, get_dlb.
  rewrite Hb. simpl. f_equal. unfold kfree_dlb. simpl.
  by rewrite delete_insert_eq.
Qed.

Lemma fragments_free_unfold fuel s :
  vsp1_dlm_fragments_free (S fuel) s =
  (e ← list_empty DLM_GC_FRAGMENTS (links s);
   if (e : bool) then Done s
   else
     n ← rd_next DLM_GC_FRAGMENTS (links s);
     a ← deref n;
     dlb ← list_entry_dlb a;
     s ← on_links (list_del (DLB_LIST dlb)) s;
     s ← vsp1_dl_fragment_free (Some dlb) s;
     vsp1_dlm_fragments_free fuel s).
Proof. reflexivity. Qed.

(** The first body of the garbage list is taken off the list and
    released. *)
Lemma fragments_free_step s P b G F :
  wf s (View P (b :: G) F) →
  ∃ s',
    (s1 ← on_links (list_del (DLB_LIST b)) s;
     vsp1_dl_fragment_free (Some b) s1) = Done s' ∧
    wf s' (View P G F) ∧ slots_kept s s' ∧ dls s' = dls s ∧
    gc_work s' = gc_work s ∧ dlbs s' = delete b (dlbs s).
Proof.
  intros Hwf.
  pose proof Hwf as [Hpool Hpa Hgc Hga Hfr Hcells Hfa Hfg Hfd Hhd].
  simpl in Hpool, Hpa, Hgc, Hga, Hfr, Hfa, Hfg, Hfd.
  unfold gc_is in Hgc. simpl in Hgc.
  destruct (ring_del_first _ _ _ _ Hgc) as (m1 & E1 & R1 & D1 & F1).
  rewrite (on_links_Done _ _ _ E1), bind_Done.
  destruct (Hga b) as [body Hbody]; [set_solver|].
  rewrite (fragment_free_Done _ _ body) by done.
  eexists. split; [reflexivity|].
  pose proof Hgc as [Hnd _].
  assert (b ∉ G) as HbG.
  { apply NoDup_cons in Hnd as [_ Hnd].
    apply NoDup_cons in Hnd as [Hb _]. set_solver. }
  assert (∀ x, x ≠ DLB_LIST b → x ∉ DLM_GC_FRAGMENTS :: (DLB_LIST <$> G) →
               delete (DLB_LIST b) m1 !! x = links s !! x) as Hsame.
  { intros x Hx Hx'. rewrite lookup_delete_ne by done. apply F1. set_solver. }
  split; [|split; [|split; [|split]]]; try done.
  constructor; simpl.
  - unfold pool_is. simpl. apply (ring_ext (links s)); [done|].
    intros x Hx. apply Hsame; set_solver.
  - done.
  - unfold gc_is. simpl. apply (ring_ext m1); [done|].
    intros x Hx. apply lookup_delete_ne. set_solver.
  - intros b' Hb'. rewrite lookup_delete_ne by set_solver.
    apply Hga. set_solver.
  - intros d Hd. unfold fragments_are. simpl.
    apply (ring_ext (links s)); [by apply Hfr|].
    intros x Hx. pose proof (Hfg d). apply Hsame; set_solver.
  - intros d Hd. rewrite !lookup_delete_ne by done.
    rewrite !D1. by apply Hcells.
  - intros d b' Hd Hb'. rewrite lookup_delete_ne; [by eapply Hfa|].
    intros <-. eapply Hfg; [done..|set_solver].
  - intros d b' Hd Hb' Hin. eapply Hfg; [done..|set_solver].
  - done.
  - done.
Qed.

(** vsp1_dlm_fragments_free() returns when it has fuel for the bodies on
    the garbage list; it releases these bodies and no other, and leaves
    the garbage list empty. *)
Lemma fragments_free_spec fuel s P G F :
  wf s (View P G F) → length G < fuel →
  ∃ s', vsp1_dlm_fragments_free fuel s = Done s' ∧
    wf s' (View P [] F) ∧ slots_kept s s' ∧ dls s' = dls s ∧
    gc_work s' = gc_work s ∧
    (∀ b, dlbs s' !! b = if decide (b ∈ G) then None else dlbs s !! b).
Proof.
  revert s fuel. induction G as [|b G IH]; intros s fuel Hwf Hfuel.
  - destruct fuel as [|fuel]; [simpl in Hfuel; lia|].
    rewrite fragments_free_unfold.
    rewrite (ring_list_empty _ _ [] (wf_gc _ _ Hwf)), bind_Done.
    rewrite bool_decide_eq_true_2 by done.
    exists s. split; [done|]. split; [done|].
    split; [apply slots_kept_refl|]. split; [done|]. split; [done|].
    intros b. destruct (decide (b ∈ [])); [set_solver|done].
  - destruct fuel as [|fuel]; [simpl in Hfuel; lia|].
    rewrite fragments_free_unfold.
    pose proof (wf_gc _ _ Hwf) as Hgc. unfold gc_is in Hgc. simpl in Hgc.
    rewrite (ring_list_empty _ _ _ Hgc), bind_Done.
    rewrite bool_decide_eq_false_2 by done.
    rewrite (rd_next_Done _ _ _ (ring_first _ _ _ Hgc)), bind_Done.
    simpl hd. change (deref (Ptr (DLB_LIST b))) with (Done (DLB_LIST b)).
    rewrite bind_Done.
    change (list_entry_dlb (DLB_LIST b)) with (Done b). rewrite bind_Done.
    destruct (fragments_free_step s P b G F Hwf)
      as (s1 & E1 & Hwf1 & Hk1 & Hdls1 & Hw1 & Hdlbs1).
    apply bind_Done_inv in E1 as (s0 & E0 & E1). rewrite E0, bind_Done.
    rewrite E1, bind_Done.
    destruct (IH s1 fuel Hwf1) as (s2 & E2 & Hwf2 & Hk2 & Hdls2 & Hw2 & Hdlbs2).
    { simpl in Hfuel. lia. }
    exists s2. split; [done|]. split; [done|].
    split; [by eapply slots_kept_trans|].
    split; [congruence|]. split; [congruence|].
    intros b'. rewrite Hdlbs2, Hdlbs1.
    destruct (decide (b' = b)) as [->|Hne].
    + rewrite lookup_delete_eq.
      destruct (decide (b ∈ G)); destruct (decide (b ∈ b :: G)); set_solver.
    + rewrite lookup_delete_ne by done.
      destruct (decide (b' ∈ G)); destruct (decide (b' ∈ b :: G)); set_solver.
Qed.

(** With an empty garbage list vsp1_dlm_fragments_free() changes
    nothing. *)
Lemma fragments_free_empty fuel s :
  gc_is s [] → 0 < fuel → vsp1_dlm_fragments_free fuel s = Done s.
Proof.
  intros Hgc Hfuel. destruct fuel as [|fuel]; [lia|].
  rewrite fragments_free_unfold.
  rewrite (ring_list_empty _ _ [] Hgc), bind_Done.
  by rewrite bool_decide_eq_true_2.
Qed.

(** The release of a display list that is on none of the lists of the
    manager: its fragments go to the front of the garbage list. *)
Lemma list_free_spec s P G F d :
  wf s (View P G F) → is_Some (dls s !! d) → d ∉ P →
  ∃ s', vsp1_dl_list_free d s = Done s' ∧
    wf s' (View P (F d ++ G) F) ∧ slots_kept s s' ∧
    dls s' = delete d (dls s) ∧ dlbs s' = dlbs s ∧ gc_work s' = gc_work s.
Proof.
  intros Hwf [l Hl] HdP.
  pose proof Hwf as [Hpool Hpa Hgc Hga Hfr Hcells Hfa Hfg Hfd Hhd].
  simpl in Hpool, Hpa, Hgc, Hga, Hfr, Hfa, Hfg, Hfd.
  assert (is_Some (dls s !! d)) as Hdv by eauto.
  unfold vsp1_dl_list_free.
  rewrite (modify_dl_Done _ _ _ _ Hl), bind_Done.
  set (s1 := set_dls _ s).
  pose proof (Hfr d Hdv) as Hfrd. unfold fragments_are in Hfrd.
  destruct (ring_splice (links s) (DL_FRAGMENTS d) _ DLM_GC_FRAGMENTS _ Hfrd
              Hgc) as (m2 & E2 & R2a & R2b & D2 & F2).
  { specialize (Hfg d). set_solver. }
  rewrite (on_links_Done _ s1 _ E2), bind_Done.
  eexists. split; [reflexivity|].
  assert (delete d (<[d := set_body0 (vsp1_dl_body_cleanup (body0 l)) l]>
                      (dls s)) = delete d (dls s)) as Hdel.
  { by rewrite delete_insert_eq. }
  assert (∀ d', is_Some (delete d (dls s) !! d') →
                d' ≠ d ∧ is_Some (dls s !! d')) as Hdom.
  { intros d' [l' Hl']. apply lookup_delete_Some in Hl' as [? Hl']. eauto. }
  assert (∀ x, x ≠ DL_LIST d → x ≠ DL_FRAGMENTS d → x ≠ DL_CHAIN d →
               delete (DL_LIST d)
                 (delete (DL_FRAGMENTS d) (delete (DL_CHAIN d) m2)) !! x
               = m2 !! x) as Hkeep.
  { intros x H1 H2 H3. by rewrite !lookup_delete_ne. }
  split; [|split; [|split; [|split]]]; try done.
  unfold kfree_dl. simpl. rewrite Hdel.
  constructor; simpl.
  - unfold pool_is. simpl. apply (ring_ext (links s)); [done|].
    intros x Hx. rewrite Hkeep by set_solver. apply F2; set_solver.
  - intros d' Hd'. rewrite lookup_delete_ne by set_solver. by apply Hpa.
  - unfold gc_is. simpl. rewrite fmap_app. apply (ring_ext m2); [done|].
    intros x Hx. apply Hkeep; set_solver.
  - intros b Hb. apply elem_of_app in Hb as [Hb|Hb]; eauto.
  - intros d' Hd'. apply Hdom in Hd' as [Hne Hd'].
    unfold fragments_are. simpl.
    apply (ring_ext (links s)); [by apply Hfr|].
    intros x Hx. rewrite Hkeep by set_solver. apply F2.
    + pose proof (Hfd d d'). set_solver.
    + pose proof (Hfg d'). set_solver.
  - intros d' Hd'. apply Hdom in Hd' as [Hne Hd'].
    rewrite !Hkeep by congruence. rewrite !D2. by apply Hcells.
  - intros d' b Hd'. apply Hdom in Hd' as [Hne Hd']. eauto.
  - intros d' b Hd'. apply Hdom in Hd' as [Hne Hd'].
    intros Hb Hin. apply elem_of_app in Hin as [Hin|Hin].
    + by pose proof (Hfd d d' b Hdv Hd' Hin Hb).
    + by eapply Hfg.
  - intros d1 d2 b H1 H2. apply Hdom in H1 as [_ H1].
    apply Hdom in H2 as [_ H2]. eauto.
  - intros d' l' Hl'. apply lookup_delete_Some in Hl' as [_ Hl']. eauto.
Qed.

(** A walk with list_for_each_entry_safe() over the nodes [ns] returns
    when there is fuel for every node, each turn of the body keeps the
    invariant [I] for the nodes that remain, and leaves the node that
    follows linked to the one after it. *)
Section for_each_safe_facts.
Context `{Countable K}.

Lemma list_for_each_safe_from_spec {St} (st_links : St → gmap K (list_head K))
    (head : K) (body : K → St → result St) (I : list K → St → Prop) :
  (∀ a l s, I (a :: l) s →
     a ≠ head ∧
     ∃ s', body a s = Done s' ∧ I l s' ∧
           nxt (st_links s') (hd head l) = Some (Ptr (hd head (tl l)))) →
  ∀ ns s fuel, length ns < fuel → I ns s →
  ∃ s', list_for_each_safe_from st_links head body fuel
          (hd head ns) (hd head (tl ns)) s = Done s' ∧
        I [] s'.
Proof.
  intros Hbody ns. induction ns as [|a ns IH]; intros s fuel Hfuel HI.
  - destruct fuel as [|fuel]; [simpl in Hfuel; lia|].
    simpl. rewrite decide_True by done. eauto.
  - destruct fuel as [|fuel]; [simpl in Hfuel; lia|].
    destruct (Hbody a ns s HI) as (Hne & s' & Eb & HI' & Hn).
    simpl. rewrite decide_False by done.
    rewrite Eb, bind_Done.
    rewrite (rd_next_Done _ _ _ Hn), bind_Done. simpl.
    apply IH; [simpl in Hfuel; lia|done].
Qed.

Lemma list_for_each_entry_safe_spec {St}
    (st_links : St → gmap K (list_head K))
    (head : K) (body : K → St → result St) (I : list K → St → Prop) :
  (∀ a l s, I (a :: l) s →
     a ≠ head ∧
     ∃ s', body a s = Done s' ∧ I l s' ∧
           nxt (st_links s') (hd head l) = Some (Ptr (hd head (tl l)))) →
  ∀ ns s fuel, length ns < fuel → I ns s →
  nxt (st_links s) head = Some (Ptr (hd head ns)) →
  nxt (st_links s) (hd head ns) = Some (Ptr (hd head (tl ns))) →
  ∃ s', list_for_each_entry_safe st_links head body fuel s = Done s' ∧
        I [] s'.
Proof.
  intros Hbody ns s fuel Hfuel HI Hh Hn.
  unfold list_for_each_entry_safe.
  rewrite (rd_next_Done _ _ _ Hh), bind_Done. simpl.
  rewrite (rd_next_Done _ _ _ Hn), bind_Done. simpl.
  by apply list_for_each_safe_from_spec.
Qed.

(** In a well-formed list every node is linked to the next one, the last
    one and the head of an empty list to the head. *)
Lemma ring_second m (h : K) l :
  ring m h l → nxt m (hd h l) = Some (Ptr (hd h (tl l))).
Proof.
  intros [_ Hl]. destruct l as [|a l]; simpl in *.
  - by destruct Hl.
  - destruct Hl as [_ Hl]. by apply linked_first in Hl.
Qed.
End for_each_safe_facts.

Lemma fragments_of_snoc v D d :
  fragments_of v (D ++ [d]) = fragments_of v D ++ fragments v d.
Proof.
  unfold fragments_of. rewrite fmap_app, concat_app. simpl.
  by rewrite app_nil_r.
Qed.

Lemma elem_of_fragments_of v D b :
  b ∈ fragments_of v D ↔ ∃ d, d ∈ D ∧ b ∈ fragments v d.
Proof.
  induction D as [|d' D IH].
  - unfold fragments_of. simpl. set_solver.
  - change (fragments_of v (d' :: D))
      with (fragments v d' ++ fragments_of v D).
    rewrite elem_of_app, IH. split.
    + intros [Hb|(d & Hd & Hb)]; [exists d'|exists d]; set_solver.
    + intros (d & Hd & Hb). apply elem_of_cons in Hd as [->|Hd]; eauto.
Qed.

(** The first display list of the free pool is taken off the pool. *)
Lemma pool_del_first_spec s d L G F :
  wf s (View (d :: L) G F) →
  ∃ s', on_links (list_del (DL_LIST d)) s = Done s' ∧
    wf s' (View L G F) ∧ links_only s s'.
Proof.
  intros Hwf.
  pose proof Hwf as [Hpool Hpa Hgc Hga Hfr Hcells Hfa Hfg Hfd Hhd].
  simpl in Hpool, Hpa, Hgc, Hga, Hfr, Hfa, Hfg, Hfd.
  unfold pool_is in Hpool. simpl in Hpool.
  destruct (ring_del_first _ _ _ _ Hpool) as (m1 & E1 & R1 & D1 & F1).
  rewrite (on_links_Done _ _ _ E1).
  eexists. split; [reflexivity|]. split; [|by constructor].
  constructor; simpl; try done.
  - intros d' Hd'. apply Hpa. set_solver.
  - unfold gc_is. simpl. apply (ring_ext (links s)); [done|].
    intros x Hx. apply F1. set_solver.
  - intros d' Hd'. unfold fragments_are. simpl.
    apply (ring_ext (links s)); [by apply Hfr|].
    intros x Hx. apply F1. set_solver.
  - intros d' Hd'. rewrite !D1. by apply Hcells.
Qed.

(** vsp1_dlm_destroy() on a manager returns when it has fuel for the
    free pool and for the garbage list; it releases the display lists of
    the free pool, their fragments and the bodies of the garbage list. *)
Lemma destroy_spec fuel s v :
  wf s v → length (free_pool v) < fuel →
  length (fragments_of v (free_pool v)) + length (gc_fragments v) < fuel →
  ∃ s', vsp1_dlm_destroy fuel (Some s) = Done (Some s') ∧
    wf s' (View [] [] (fragments v)) ∧ slots_kept s s' ∧
    gc_work s' = false ∧
    (∀ d, dls s' !! d =
          if decide (d ∈ free_pool v) then None else dls s !! d) ∧
    (∀ b, dlbs s' !! b =
          if decide (b ∈ fragments_of v (free_pool v) ++ gc_fragments v)
          then None else dlbs s !! b).
Proof.
  intros Hwf HfuelP HfuelG. destruct v as [P G0 F]. simpl in *.
  unfold vsp1_dlm_destroy.
  set (s0 := cancel_work_sync s).
  assert (wf s0 (View P G0 F)) as Hwf0 by (by apply (wf_ext s)).
  pose (I := λ (ns : list lh_addr) (s1 : vsp1_dl_manager),
          ∃ L1 L2 G, ns = DL_LIST <$> L2 ∧ P = L1 ++ L2 ∧
            wf s1 (View L2 G F) ∧ slots_kept s s1 ∧
            gc_work s1 = false ∧ dlbs s1 = dlbs s ∧
            (∀ d, dls s1 !! d =
                  if decide (d ∈ L1) then None else dls s !! d) ∧
            (∀ b, b ∈ G ↔ b ∈ fragments_of (View P G0 F) L1 ++ G0) ∧
            length G = length (fragments_of (View P G0 F) L1) + length G0).
  pose proof (wf_pool _ _ Hwf0) as Hpool0. unfold pool_is in Hpool0.
  simpl in Hpool0. pose proof Hpool0 as [HndP _].
  assert (NoDup P) as HndP'.
  { apply NoDup_cons in HndP as [_ HndP].
    by apply NoDup_fmap in HndP; [|intros ?? [=]]. }
  destruct (list_for_each_entry_safe_spec links DLM_FREE
              (λ a s, dl ← list_entry_dl a;
                      s ← on_links (list_del (DL_LIST dl)) s;
                      vsp1_dl_list_free dl s) I)
    with (ns := DL_LIST <$> P) (s := s0) (fuel := fuel)
    as (s1 & E1 & (L1 & L2 & G & HL2 & HP & Hwf1 & Hk1 & Hw1 & Hb1 & Hd1 &
                   HG1 & HlenG)).
  - intros a ns s1 (L1 & L2 & G & HL2 & HP & Hwf1 & Hk1 & Hw1 & Hb1 & Hd1 &
                    HG1 & HlenG).
    destruct L2 as [|d L2]; [done|]. simpl in HL2. injection HL2 as -> ->.
    split; [done|]. cbv beta.
    change (list_entry_dl (DL_LIST d)) with (Done d). rewrite bind_Done.
    destruct (pool_del_first_spec s1 d L2 G F Hwf1) as (s2 & E2 & Hwf2 & Hlo2).
    rewrite E2, bind_Done.
    assert (d ∉ L1 ∧ d ∉ L2) as [HdL1 HdL2].
    { subst P. apply NoDup_app in HndP' as (_ & Hdisj & Hnd2).
      apply NoDup_cons in Hnd2 as [? _]. split; [|done].
      intros Hin. apply (Hdisj d Hin). set_solver. }
    destruct (list_free_spec s2 L2 G F d Hwf2) as
      (s3 & E3 & Hwf3 & Hk3 & Hd3 & Hb3 & Hw3); [|done|].
    { rewrite (lo_dls _ _ Hlo2). apply (wf_pool_alloc _ _ Hwf1). set_solver. }
    exists s3. split; [done|]. split.
    + exists (L1 ++ [d]), L2, (F d ++ G). split; [done|].
      split; [by rewrite <- app_assoc|]. split; [done|].
      split.
      { eapply slots_kept_trans; [|exact Hk3].
        destruct Hk1, Hlo2. constructor; congruence. }
      split; [rewrite Hw3; destruct Hlo2; congruence|].
      split; [rewrite Hb3; destruct Hlo2; congruence|].
      split; [|split].
      * intros d'. rewrite Hd3, (lo_dls _ _ Hlo2).
        destruct (decide (d' = d)) as [->|Hne].
        -- rewrite lookup_delete_eq. rewrite decide_True by set_solver. done.
        -- rewrite lookup_delete_ne, Hd1 by done.
           destruct (decide (d' ∈ L1)); destruct (decide (d' ∈ L1 ++ [d]));
             set_solver.
      * intros b. rewrite fragments_of_snoc. simpl.
        rewrite !elem_of_app, HG1, elem_of_app. tauto.
      * rewrite fragments_of_snoc. simpl. rewrite !length_app. lia.
    + apply ring_second. apply (wf_pool _ _ Hwf3).
  - rewrite length_fmap. lia.
  - exists [], P, G0. split; [done|]. split; [done|]. split; [done|].
    split; [by constructor|]. split; [done|]. split; [done|].
    split; [|split].
    + intros d. by rewrite decide_False by set_solver.
    + intros b. unfold fragments_of. simpl. done.
    + done.
  - by apply ring_first.
  - by apply ring_second.
  - destruct L2; [|done]. rewrite app_nil_r in HP. subst L1.
    rewrite E1, bind_Done.
    destruct (fragments_free_spec fuel s1 [] G F Hwf1)
      as (s2 & E2 & Hwf2 & Hk2 & Hd2 & Hw2 & Hb2); [lia|].
    rewrite E2, bind_Done. exists s2. split; [done|]. split; [done|].
    split; [by eapply slots_kept_trans|]. split; [congruence|].
    split.
    + intros d. by rewrite Hd2.
    + intros b. rewrite Hb2, Hb1.
      destruct (decide (b ∈ G)) as [Hin|Hin];
        destruct (decide (b ∈ fragments_of (View P G0 F) P ++ G0)) as [Hin'|Hin'];
        try done; exfalso; apply HG1 in Hin || apply HG1 in Hin'; done.
Qed.

(** With an empty free pool and an empty garbage list
    vsp1_dlm_destroy() changes nothing. *)
Lemma destroy_empty fuel s :
  pool_is s [] → gc_is s [] → gc_work s = false → 0 < fuel →
  vsp1_dlm_destroy fuel (Some s) = Done (Some s).
Proof.
  intros Hpool Hgc Hw Hfuel. unfold vsp1_dlm_destroy.
  assert (cancel_work_sync s = s) as ->.
  { unfold cancel_work_sync, set_gc_work. rewrite <- Hw. by destruct s. }
  destruct (list_for_each_entry_safe_spec links DLM_FREE
              (λ a s, dl ← list_entry_dl a;
                      s ← on_links (list_del (DL_LIST dl)) s;
                      vsp1_dl_list_free dl s)
              (λ ns s1, ns = [] ∧ s1 = s))
    with (ns := @nil lh_addr) (s := s) (fuel := fuel)
    as (s1 & E & _ & ->); [by intros a l s0 [? _]|simpl; lia|done|..].
  - apply (ring_first _ _ _ Hpool).
  - apply (ring_first _ _ _ Hpool).
  - rewrite E, bind_Done, fragments_free_empty by done. done.
Qed.

(** ** Releasing the slots *)

Lemma release_view_app D1 D2 v :
  release_view (D1 ++ D2) v = release_view D2 (release_view D1 v).
Proof. unfold release_view. by rewrite foldl_app. Qed.

Lemma recycle_all_app D1 D2 m :
  recycle_all (D1 ++ D2) m = recycle_all D2 (recycle_all D1 m).
Proof. unfold recycle_all. by rewrite foldl_app. Qed.

(** The garbage list after a release: the bodies it held and the
    fragments of the display lists released. *)
Lemma elem_of_release_view_gc D v b :
  b ∈ gc_fragments (release_view D v) ↔
  b ∈ gc_fragments v ∨ ∃ d, d ∈ D ∧ b ∈ fragments v d.
Proof.
  revert v. induction D as [|d D IH]; intros v.
  - change (release_view [] v) with v. set_solver.
  - change (release_view (d :: D) v) with (release_view D (release1 v d)).
    rewrite IH. simpl. rewrite elem_of_app. split.
    + intros [[Hb|Hb]|(d' & Hd' & Hb)].
      * right. exists d. set_solver.
      * by left.
      * case_decide; [set_solver|]. right. exists d'. set_solver.
    + intros [Hb|(d' & Hd' & Hb)]; [by left; right|].
      destruct (decide (d' = d)) as [->|Hne]; [by left; left|].
      right. exists d'. rewrite decide_False by done. set_solver.
Qed.

Lemma slot_chain_alloc s o C d :
  slot_chain s o C → d ∈ slot_lists o C → is_Some (dls s !! d).
Proof.
  destruct o as [x|]; simpl.
  - apply chain_of_alloc.
  - intros ->. unfold slot_lists. simpl. set_solver.
Qed.

(** A release leaves the chain of a slot that it does not release as it
    was. *)
Lemma released_only_slot_chain s s' D o C :
  released_only s s' → dls s' = recycle_all D (dls s) →
  (∀ d, d ∈ slot_lists o C → d ∉ D) →
  slot_chain s o C → slot_chain s' o C.
Proof.
  intros Hro Hdls Hdisj. destruct o as [x|]; simpl; [|done].
  unfold slot_lists in Hdisj. simpl in Hdisj.
  assert (∀ d, d ∈ C ++ [x] → dls s' !! d = dls s !! d) as Hsame.
  { intros d Hd. rewrite Hdls. apply recycle_all_lookup_notin. eauto. }
  unfold chain_of. rewrite Hsame by set_solver.
  destruct (dls s !! x) as [l|]; [|done].
  destruct (has_chain l); [|done].
  intros [Hring Hflat]. split.
  - unfold chain_is in *. apply (ring_ext (links s)); [done|].
    intros a Ha. apply elem_of_cons in Ha as [->|Ha].
    + apply (ro_chain _ _ Hro).
    + apply list_elem_of_fmap in Ha as (c & -> & _). apply (ro_chain _ _ Hro).
  - apply Forall_forall. intros c Hc.
    pose proof (proj1 (Forall_forall _ _) Hflat c Hc) as Hn.
    unfold no_chain in *. rewrite Hsame by set_solver. done.
Qed.

(** vsp1_dlm_reset() returns the display lists of the three slots, with
    their chains, to the free pool and empties the slots. *)
Lemma reset_spec fuel s v Ca Cq Cp :
  wf s v →
  slot_chain s (active s) Ca → slot_chain s (queued s) Cq →
  slot_chain s (pending s) Cp →
  NoDup (free_pool v ++ reset_lists s Ca Cq Cp) →
  length Ca + 2 ≤ fuel → length Cq + 2 ≤ fuel → length Cp + 2 ≤ fuel →
  ∃ s', vsp1_dlm_reset fuel s = Done s' ∧
    active s' = None ∧ queued s' = None ∧ pending s' = None ∧
    wf s' (release_view (reset_lists s Ca Cq Cp) v) ∧
    dls s' = recycle_all (reset_lists s Ca Cq Cp) (dls s) ∧
    dlbs s' = dlbs s ∧ mmio s' = mmio s ∧ index s' = index s ∧
    mode s' = mode s ∧ singleshot s' = singleshot s.
Proof.
  intros Hwf Ha Hq Hp Hnd Hfa Hfq Hfp. unfold reset_lists in *.
  set (la := slot_lists (active s) Ca) in *.
  set (lq := slot_lists (queued s) Cq) in *.
  set (lp := slot_lists (pending s) Cp) in *.
  apply NoDup_app in Hnd as (_ & HPdisj & Hnd).
  apply NoDup_app in Hnd as (_ & Hadisj & Hnd).
  apply NoDup_app in Hnd as (_ & Hqdisj & _).
  unfold vsp1_dlm_reset.
  destruct (put_spec fuel s v (active s) Ca Hwf Ha)
    as (s1 & E1 & Hwf1 & Hro1 & Hdls1); [|done|].
  { intros d Hd Hin. apply (HPdisj d Hin). set_solver. }
  rewrite E1, bind_Done.
  assert (slot_chain s1 (queued s1) Cq) as Hq1.
  { rewrite (ro_queued _ _ Hro1).
    apply (released_only_slot_chain s s1 la); [done..| |done].
    intros d Hd Hin. apply (Hadisj d Hin). set_solver. }
  destruct (put_spec fuel s1 _ (queued s1) Cq Hwf1 Hq1)
    as (s2 & E2 & Hwf2 & Hro2 & Hdls2); [|done|].
  { rewrite (ro_queued _ _ Hro1), release_view_free_pool.
    intros d Hd Hin. apply elem_of_app in Hin as [Hin|Hin].
    - apply (HPdisj d Hin). set_solver.
    - apply (Hadisj d Hin). set_solver. }
  rewrite E2, bind_Done.
  pose proof (released_only_trans _ _ _ Hro1 Hro2) as Hro12.
  assert (slot_chain s2 (pending s2) Cp) as Hp2.
  { rewrite (ro_pending _ _ Hro12).
    apply (released_only_slot_chain s s2 (la ++ lq)); [done| | |done].
    - rewrite Hdls2, Hdls1, (ro_queued _ _ Hro1). by rewrite recycle_all_app.
    - intros d Hd Hin. apply elem_of_app in Hin as [Hin|Hin].
      + apply (Hadisj d Hin). set_solver.
      + by apply (Hqdisj d Hin). }
  destruct (put_spec fuel s2 _ (pending s2) Cp Hwf2 Hp2)
    as (s3 & E3 & Hwf3 & Hro3 & Hdls3); [|done|].
  { rewrite (ro_pending _ _ Hro12), !release_view_free_pool.
    rewrite (ro_queued _ _ Hro1).
    intros d Hd Hin. apply elem_of_app in Hin as [Hin|Hin];
      [apply elem_of_app in Hin as [Hin|Hin]|].
    - apply (HPdisj d Hin). set_solver.
    - apply (Hadisj d Hin). set_solver.
    - by apply (Hqdisj d Hin). }
  rewrite E3, bind_Done.
  pose proof (released_only_trans _ _ _ Hro12 Hro3) as Hro.
  eexists. split; [reflexivity|]. simpl.
  split; [done|]. split; [done|]. split; [done|].
  rewrite (ro_pending _ _ Hro12), (ro_queued _ _ Hro1) in *.
  split.
  { apply (wf_ext s3); [done..|].
    by rewrite !release_view_app. }
  split; [by rewrite Hdls3, Hdls2, Hdls1, !recycle_all_app|].
  destruct Hro. done.
Qed.

(** With empty slots vsp1_dlm_reset() changes nothing. *)
Lemma reset_empty fuel s :
  active s = None → queued s = None → pending s = None →
  vsp1_dlm_reset fuel s = Done s.
Proof.
  intros Ha Hq Hp. unfold vsp1_dlm_reset.
  rewrite Ha, put_None, bind_Done, Hq, put_None, bind_Done, Hp, put_None,
    bind_Done.
  f_equal. destruct s. simpl in *. by subst.
Qed.

(** ** The garbage collector and the end of a manager *)

(** X1: the garbage collector returns, releases the bodies on the
    garbage list, and leaves that list empty; it releases no other body:
    the fragments attached to a display list stay allocated.  It
    changes no display list and no slot, and a second run changes
    nothing. *)
Theorem garbage_collect_releases_garbage fuel s v :
  wf s v → length (gc_fragments v) < fuel →
  ∃ s', vsp1_dlm_garbage_collect fuel s = Done s' ∧
    wf s' (View (free_pool v) [] (fragments v)) ∧ gc_is s' [] ∧
    (∀ b, b ∈ gc_fragments v → dlbs s' !! b = None) ∧
    (∀ b, b ∉ gc_fragments v → dlbs s' !! b = dlbs s !! b) ∧
    dls s' = dls s ∧ slots_kept s s' ∧
    vsp1_dlm_garbage_collect fuel s' = Done s'.
Proof.
  intros Hwf Hfuel. destruct v as [P G F]. simpl in *.
  destruct (fragments_free_spec fuel s P G F Hwf Hfuel)
    as (s' & E & Hwf' & Hk & Hdls & _ & Hdlbs).
  exists s'. split; [done|]. split; [done|].
  split; [apply (wf_gc _ _ Hwf')|].
  split; [intros b Hb; by rewrite Hdlbs, decide_True|].
  split; [intros b Hb; by rewrite Hdlbs, decide_False|].
  split; [done|]. split; [done|].
  apply fragments_free_empty; [apply (wf_gc _ _ Hwf')|lia].
Qed.

(** X2: vsp1_dl_list_put() releases no body: the fragments of the
    display lists it returns to the pool go to the garbage list, and the
    collector is scheduled when there is one; a collector that was
    scheduled stays so.  The collector then releases these fragments,
    and leaves the fragments of the other display lists allocated. *)
Theorem put_defers_release_of_fragments fuel s v x C :
  wf s v → chain_of s x C →
  Forall (λ d, d ∉ free_pool v) (C ++ [x]) → length C + 2 ≤ fuel →
  length (gc_fragments (release_view (C ++ [x]) v)) < fuel →
  ∃ s1 s2,
    vsp1_dl_list_put fuel (Some x) s = Done s1 ∧
    dlbs s1 = dlbs s ∧
    ((∃ d, d ∈ C ++ [x] ∧ fragments v d ≠ []) → gc_work s1 = true) ∧
    (gc_work s = true → gc_work s1 = true) ∧
    vsp1_dlm_garbage_collect fuel s1 = Done s2 ∧
    dls s2 = dls s1 ∧
    (∀ d b, d ∈ C ++ [x] → b ∈ fragments v d → dlbs s2 !! b = None) ∧
    (∀ d b, is_Some (dls s !! d) → d ∉ C ++ [x] → b ∈ fragments v d →
            dlbs s2 !! b = dlbs s !! b).
Proof.
  intros Hwf Hch Hfree Hfuel HfuelG.
  destruct (put_spec_work fuel s v (Some x) C Hwf Hch)
    as (s1 & E1 & Hwf1 & Hro1 & Hdls1 & Hw1); [|done|].
  { intros d Hd. by apply (proj1 (Forall_forall _ _) Hfree). }
  unfold slot_lists in *. simpl in *.
  set (v1 := release_view (C ++ [x]) v) in *.
  destruct v1 as [P1 G1 F1] eqn:Hv1.
  destruct (fragments_free_spec fuel s1 P1 G1 F1 Hwf1)
    as (s2 & E2 & Hwf2 & Hk2 & Hdls2 & _ & Hdlbs2); [done|].
  assert (∀ b, b ∈ G1 ↔
               b ∈ gc_fragments v ∨ ∃ d, d ∈ C ++ [x] ∧ b ∈ fragments v d)
    as HG1.
  { intros b. rewrite <- elem_of_release_view_gc. fold v1. by rewrite Hv1. }
  exists s1, s2. split; [done|]. split; [apply (ro_dlbs _ _ Hro1)|].
  split; [|split; [|split; [|split; [|split]]]]; try done.
  - intros (d & Hd & Hne). destruct Hw1 as [Hw1|[_ Hgc]]; [done|].
    exfalso. destruct (fragments v d) as [|b F] eqn:HF; [done|].
    assert (b ∈ gc_fragments v) as Hb.
    { rewrite <- Hgc. simpl. apply HG1. right.
      exists d. rewrite HF. set_solver. }
    revert Hb. apply (wf_frags_gc _ _ Hwf d).
    + apply (chain_of_alloc _ _ _ _ Hch Hd).
    + rewrite HF. set_solver.
  - intros Hw. destruct Hw1 as [Hw1|[Hw1 _]]; congruence.
  - intros d b Hd Hb. rewrite Hdlbs2, decide_True; [done|].
    apply HG1. eauto.
  - intros d b Hd Hnin Hb. rewrite Hdlbs2, decide_False.
    + apply (f_equal (λ m, m !! b) (ro_dlbs _ _ Hro1)).
    + intros Hin. apply HG1 in Hin as [Hin|(d' & Hd' & Hb')].
      * by apply (wf_frags_gc _ _ Hwf d b).
      * assert (d = d'); [|by subst].
        apply (wf_frags_disj _ _ Hwf d d' b); [done| |done..].
        apply (chain_of_alloc _ _ _ _ Hch Hd').
Qed.

(** X3: vsp1_dlm_destroy() does nothing for a null pointer.  For a
    manager it cancels the collector, then releases every display list
    of the free pool and every body of the garbage list, and leaves both
    lists empty.  A display list that is not in the free pool, in a slot
    or with a caller, stays allocated with its fragments, and the slots
    are left as they were.  A second vsp1_dlm_destroy() changes
    nothing. *)
Theorem destroy_releases_pool_and_garbage fuel s v :
  wf s v → length (free_pool v) < fuel →
  length (fragments_of v (free_pool v)) + length (gc_fragments v) < fuel →
  vsp1_dlm_destroy fuel None = Done None ∧
  ∃ s', vsp1_dlm_destroy fuel (Some s) = Done (Some s') ∧
    pool_is s' [] ∧ gc_is s' [] ∧ gc_work s' = false ∧
    (∀ d, d ∈ free_pool v → dls s' !! d = None) ∧
    (∀ d, d ∉ free_pool v → dls s' !! d = dls s !! d) ∧
    (∀ b, b ∈ gc_fragments v → dlbs s' !! b = None) ∧
    (∀ d b, is_Some (dls s !! d) → d ∉ free_pool v → b ∈ fragments v d →
            dlbs s' !! b = dlbs s !! b) ∧
    active s' = active s ∧ queued s' = queued s ∧ pending s' = pending s ∧
    vsp1_dlm_destroy fuel (Some s') = Done (Some s').
Proof.
  intros Hwf HfuelP HfuelG. split; [done|].
  destruct (destroy_spec fuel s v Hwf HfuelP HfuelG)
    as (s' & E & Hwf' & Hk & Hw & Hdls & Hdlbs).
  exists s'. split; [done|].
  split; [apply (wf_pool _ _ Hwf')|]. split; [apply (wf_gc _ _ Hwf')|].
  split; [done|].
  split; [intros d Hd; by rewrite Hdls, decide_True|].
  split; [intros d Hd; by rewrite Hdls, decide_False|].
  split; [intros b Hb; rewrite Hdlbs, decide_True; set_solver|].
  split.
  2:{ destruct Hk. do 3 (split; [done|]).
      apply destroy_empty; [apply (wf_pool _ _ Hwf')|apply (wf_gc _ _ Hwf')
                           |done|lia]. }
  intros d b Hd Hnin Hb. rewrite Hdlbs, decide_False; [done|].
  intros Hin. apply elem_of_app in Hin as [Hin|Hin].
  - apply elem_of_fragments_of in Hin as (d' & Hd' & Hb').
    assert (d = d'); [|by subst].
    apply (wf_frags_disj _ _ Hwf d d' b); [done| |done..].
    by apply (wf_pool_alloc _ _ Hwf).
  - by apply (wf_frags_gc _ _ Hwf d b).
Qed.

(** X4: vsp1_dlm_reset() returns and empties the three slots: the
    display lists they held are appended to the free pool, each after
    its chained lists, the active one first, then the queued one, then
    the pending one, and they have no fragment left.  It releases no
    body and writes no register, and a second vsp1_dlm_reset() changes
    nothing. *)
Theorem reset_returns_slots_to_pool fuel s v Ca Cq Cp :
  wf s v →
  slot_chain s (active s) Ca → slot_chain s (queued s) Cq →
  slot_chain s (pending s) Cp →
  NoDup (free_pool v ++ reset_lists s Ca Cq Cp) →
  length Ca + 2 ≤ fuel → length Cq + 2 ≤ fuel → length Cp + 2 ≤ fuel →
  ∃ s', vsp1_dlm_reset fuel s = Done s' ∧
    active s' = None ∧ queued s' = None ∧ pending s' = None ∧
    pool_is s' (free_pool v ++ reset_lists s Ca Cq Cp) ∧
    pipeline_ok s' (release_view (reset_lists s Ca Cq Cp) v) [] [] [] ∧
    (∀ d, d ∈ reset_lists s Ca Cq Cp → fragments_are s' d []) ∧
    dlbs s' = dlbs s ∧ mmio s' = mmio s ∧
    vsp1_dlm_reset fuel s' = Done s'.
Proof.
  intros Hwf Ha Hq Hp Hnd Hfa Hfq Hfp.
  destruct (reset_spec fuel s v Ca Cq Cp Hwf Ha Hq Hp Hnd Hfa Hfq Hfp)
    as (s' & E & Hac & Hqu & Hpe & Hwf' & Hdls & Hdlbs & Hmmio & _).
  exists s'. split; [done|]. split; [done|]. split; [done|].
  split; [done|]. split; [by apply wf_release_pool|]. split.
  { constructor; [done|by rewrite ?Hac, ?Hqu, ?Hpe..|].
    assert (reset_lists s' [] [] [] = []) as ->.
    { unfold reset_lists. by rewrite Hac, Hqu, Hpe. }
    by rewrite app_nil_r, release_view_free_pool. }
  split; [|split; [done|split; [done|by apply reset_empty]]].
  intros d Hd. pose proof (wf_frags _ _ Hwf' d) as Hfr.
  rewrite release_view_fragments, decide_True in Hfr by done.
  apply Hfr. rewrite Hdls. apply recycle_all_dom.
  unfold reset_lists in Hd.
  apply elem_of_app in Hd as [Hd|Hd]; [|apply elem_of_app in Hd as [Hd|Hd]].
  - by apply (slot_chain_alloc _ _ _ _ Ha).
  - by apply (slot_chain_alloc _ _ _ _ Hq).
  - by apply (slot_chain_alloc _ _ _ _ Hp).
Qed.

(** X5: when every display list is in the free pool or in a slot,
    vsp1_dlm_reset() followed by vsp1_dlm_destroy() leaves no display
    list allocated, and no body that was attached to a display list or
    was on the garbage list. *)
Theorem reset_then_destroy_releases_all fuel s v Ca Cq Cp :
  wf s v →
  slot_chain s (active s) Ca → slot_chain s (queued s) Cq →
  slot_chain s (pending s) Cp →
  NoDup (free_pool v ++ reset_lists s Ca Cq Cp) →
  map_Forall (λ d _, d ∈ free_pool v ++ reset_lists s Ca Cq Cp) (dls s) →
  length Ca + 2 ≤ fuel → length Cq + 2 ≤ fuel → length Cp + 2 ≤ fuel →
  length (free_pool v ++ reset_lists s Ca Cq Cp) < fuel →
  length (fragments_of (release_view (reset_lists s Ca Cq Cp) v)
            (free_pool v ++ reset_lists s Ca Cq Cp)) +
  length (gc_fragments (release_view (reset_lists s Ca Cq Cp) v)) < fuel →
  ∃ s1 s2,
    vsp1_dlm_reset fuel s = Done s1 ∧
    vsp1_dlm_destroy fuel (Some s1) = Done (Some s2) ∧
    dls s2 = ∅ ∧
    (∀ b, b ∈ gc_fragments v → dlbs s2 !! b = None) ∧
    (∀ d b, is_Some (dls s !! d) → b ∈ fragments v d →
            dlbs s2 !! b = None) ∧
    active s2 = None ∧ queued s2 = None ∧ pending s2 = None.
Proof.
  intros Hwf Ha Hq Hp Hnd Hall' Hfa Hfq Hfp HfuelP HfuelG.
  assert (∀ d, is_Some (dls s !! d) →
               d ∈ free_pool v ++ reset_lists s Ca Cq Cp) as Hall.
  { intros d [l Hl]. apply (Hall' d l Hl). }
  destruct (reset_spec fuel s v Ca Cq Cp Hwf Ha Hq Hp Hnd Hfa Hfq Hfp)
    as (s1 & E1 & Hac & Hqu & Hpe & Hwf1 & Hdls1 & Hdlbs1 & _).
  set (R := reset_lists s Ca Cq Cp) in *.
  destruct (destroy_spec fuel s1 (release_view R v) Hwf1)
    as (s2 & E2 & Hwf2 & Hk2 & Hw2 & Hdls2 & Hdlbs2).
  { by rewrite release_view_free_pool. }
  { by rewrite release_view_free_pool. }
  rewrite release_view_free_pool in Hdls2, Hdlbs2.
  exists s1, s2. split; [done|]. split; [done|].
  split; [|split; [|split]].
  - apply map_eq. intros d. rewrite lookup_empty, Hdls2.
    case_decide as Hin; [done|].
    rewrite Hdls1. apply eq_None_not_Some. rewrite recycle_all_dom.
    intros Hd. by apply Hin, Hall.
  - intros b Hb. rewrite Hdlbs2, decide_True; [done|].
    apply elem_of_app. right. apply elem_of_release_view_gc. by left.
  - intros d b Hd Hb. rewrite Hdlbs2, decide_True; [done|].
    apply elem_of_app. destruct (decide (d ∈ R)) as [HR|HR].
    + right. apply elem_of_release_view_gc. right. eauto.
    + left. apply elem_of_fragments_of. exists d. split; [by apply Hall|].
      by rewrite release_view_fragments, decide_False.
  - destruct Hk2. split; [congruence|]. split; congruence.
Qed.

(** ** Taking display lists from the pool, one after the other *)

Lemma get_sequence_unfold n s :
  get_sequence (S n) s =
  ('(o, s) ← vsp1_dl_list_get s;
   '(os, s) ← get_sequence n s;
   Done (o :: os, s)).
Proof. reflexivity. Qed.

Lemma get_sequence_empty k s v :
  wf s v → free_pool v = [] →
  get_sequence k s = Done (replicate k None, s).
Proof.
  intros Hwf Hv. induction k as [|k IH]; [done|].
  pose proof (get_spec s v Hwf) as Hget. rewrite Hv in Hget.
  rewrite get_sequence_unfold, Hget, bind_Done. simpl.
  by rewrite IH.
Qed.

(** X6: vsp1_dl_list_get() hands out the display lists of the free
    pool in the order of the pool, each of them once, and returns a null
    pointer from then on, without changing the state: an empty pool is
    no error. *)
Theorem get_serves_pool_in_order s v k :
  wf s v →
  ∃ s', get_sequence (length (free_pool v) + k) s =
          Done ((Some <$> free_pool v) ++ replicate k None, s') ∧
    wf s' (View [] (gc_fragments v) (fragments v)) ∧
    pool_is s' [] ∧ links_only s s' ∧
    vsp1_dl_list_get s' = Done (None, s').
Proof.
  destruct v as [P G F]. simpl. revert s.
  induction P as [|d P IH]; intros s Hwf.
  - exists s. simpl. split; [by apply (get_sequence_empty k s _ Hwf)|].
    split; [done|]. split; [apply (wf_pool _ _ Hwf)|].
    split; [by constructor|]. apply (get_spec s _ Hwf).
  - pose proof (get_spec s _ Hwf) as (s1 & E1 & Hwf1 & Hlo1 & _).
    simpl in Hwf1. destruct (IH s1 Hwf1) as (s2 & E2 & Hwf2 & Hp2 & Hlo2 & E3).
    exists s2. split.
    { simpl length. simpl Nat.add. rewrite get_sequence_unfold, E1, bind_Done.
      simpl. rewrite E2. done. }
    split; [done|]. split; [done|]. split; [|done].
    destruct Hlo1, Hlo2. constructor; congruence.
Qed.

(** ** The order of the free pool *)

(** X7: a display list that is released goes to the end of the free
    pool, after its chained lists: the next vsp1_dl_list_get() returns
    the list that was first in the pool, and returns the list just
    released only when the pool was empty and the list had no chain.
    The list it returns has no entry and no chain. *)
Theorem put_then_get_is_fifo fuel s v x C :
  wf s v → pool_clean s v → chain_of s x C →
  Forall (λ d, d ∉ free_pool v) (C ++ [x]) → length C + 2 ≤ fuel →
  ∃ s1 s2 d l,
    vsp1_dl_list_put fuel (Some x) s = Done s1 ∧
    vsp1_dl_list_get s1 = Done (Some d, s2) ∧
    d = hd x (free_pool v ++ C) ∧
    (d = x ↔ free_pool v = [] ∧ C = []) ∧
    pool_is s2 (tl (free_pool v ++ C ++ [x])) ∧
    dls s2 !! d = Some l ∧
    dlb_num_entries (body0 l) = 0%Z ∧ has_chain l = false ∧
    chain_is s2 d [].
Proof.
  intros Hwf Hclean Hch Hfree Hfuel.
  destruct (put_spec fuel s v (Some x) C Hwf Hch)
    as (s1 & E1 & Hwf1 & Hro1 & Hdls1); [|done|].
  { intros d Hd. by apply (proj1 (Forall_forall _ _) Hfree). }
  unfold slot_lists in *. simpl in *.
  assert (pool_clean s1 (release_view (C ++ [x]) v)) as Hclean1.
  { apply (pool_clean_release s); [done..|].
    intros d Hd. by apply (chain_of_alloc _ _ _ _ Hch). }
  pose proof (get_spec s1 _ Hwf1) as Hget.
  assert (x ∉ C) as HxC.
  { unfold chain_of in Hch. destruct (dls s !! x) as [l|]; [|done].
    destruct (has_chain l); [|subst C; set_solver].
    destruct Hch as [[Hnd _] _]. apply NoDup_cons in Hnd as [Hx _].
    set_solver. }
  assert (x ∉ free_pool v) as HxP.
  { apply (proj1 (Forall_forall _ _) Hfree). set_solver. }
  unfold pool_clean in Hclean1.
  rewrite release_view_free_pool in Hget, Hclean1.
  destruct (free_pool v ++ C ++ [x]) as [|d L] eqn:HL.
  { destruct (free_pool v), C; done. }
  destruct Hget as (s2 & E2 & Hwf2 & Hlo2 & Hchain2).
  apply Forall_cons in Hclean1 as [Hd _]. unfold clean in Hd.
  destruct (dls s1 !! d) as [l|] eqn:Hl; [|done].
  destruct Hd as (Hn & Hc & _).
  exists s1, s2, d, l. split; [done|]. split; [done|].
  assert (d = hd x (free_pool v ++ C)) as Hhd.
  { rewrite app_assoc in HL.
    destruct (free_pool v ++ C) as [|d' L']; simpl in *; congruence. }
  split; [done|]. split.
  { split.
    - intros ->. destruct (free_pool v) as [|p P]; simpl in *.
      + destruct C as [|c C]; [done|]. simpl in *. set_solver.
      + set_solver.
    - intros [HP HC]. rewrite HP, HC in Hhd. done. }
  split; [apply (wf_pool _ _ Hwf2)|].
  split; [by rewrite (lo_dls _ _ Hlo2)|]. done.
Qed.

(** ** Writing registers to a body *)

(** The writes are appended to the body in the order in which they are
    made, and leave the entries written before as they were. *)
Lemma body_writes_spec ws dlb :
  (0 ≤ dlb_num_entries dlb)%Z →
  (dlb_num_entries dlb + Z.of_nat (length ws) < 2 ^ 32)%Z →
  dlb_num_entries (body_writes ws dlb)
    = (dlb_num_entries dlb + Z.of_nat (length ws))%Z ∧
  dlb_dma (body_writes ws dlb) = dlb_dma dlb ∧
  dlb_size (body_writes ws dlb) = dlb_size dlb ∧
  (∀ i w, ws !! i = Some w →
     dlb_entries (body_writes ws dlb) !! (dlb_num_entries dlb + Z.of_nat i)%Z
     = Some (Entry (u32 w.1) (u32 w.2))) ∧
  (∀ j, (j < dlb_num_entries dlb)%Z →
     dlb_entries (body_writes ws dlb) !! j = dlb_entries dlb !! j).
Proof.
  revert dlb. induction ws as [|w ws IH]; intros dlb H0 Hlen.
  - simpl. split; [lia|]. split; [done|]. split; [done|]. split; [|done].
    intros i w Hi. done.
  - simpl in Hlen. simpl body_writes.
    assert (dlb_num_entries (body_write w.1 w.2 dlb)
            = (dlb_num_entries dlb + 1)%Z) as Hn.
    { simpl. apply u32_small. lia. }
    destruct (IH (body_write w.1 w.2 dlb)) as (IHn & IHd & IHs & IHw & IHk).
    { rewrite Hn. lia. }
    { rewrite Hn. lia. }
    rewrite Hn in IHn, IHw, IHk.
    split; [rewrite IHn; simpl; lia|]. split; [by rewrite IHd|].
    split; [by rewrite IHs|]. split.
    + intros [|i] w' Hi; simpl in Hi.
      * injection Hi as <-. rewrite Z.add_0_r, IHk by lia. simpl.
        by rewrite lookup_insert_eq.
      * rewrite <- (IHw i w' Hi). f_equal. lia.
    + intros j Hj. rewrite IHk by lia. simpl.
      rewrite lookup_insert_ne by lia. done.
Qed.

Lemma write_sequence_Done dl ws s l :
  dls s !! dl = Some l →
  write_sequence dl ws s =
  Done (with_dl dl (set_body0 (body_writes ws (body0 l)) l) s).
Proof.
  revert s l. induction ws as [|w ws IH]; intros s l Hl.
  - simpl. f_equal. unfold with_dl. destruct s, l. simpl in *.
    f_equal. by rewrite insert_id.
  - simpl. unfold vsp1_dl_list_write.
    rewrite (modify_dl_Done _ _ _ _ Hl), bind_Done.
    erewrite IH by apply lookup_insert_eq.
    f_equal. unfold with_dl. simpl. by rewrite insert_insert_eq.
Qed.

Lemma fragment_write_sequence_Done b ws s dlb :
  dlbs s !! b = Some dlb →
  fragment_write_sequence b ws s =
  Done (set_dlbs (<[b := body_writes ws dlb]> (dlbs s)) s).
Proof.
  revert s dlb. induction ws as [|w ws IH]; intros s dlb Hb.
  - simpl. f_equal. destruct s. simpl in *. f_equal. by rewrite insert_id.
  - simpl. unfold vsp1_dl_fragment_write, modify_dlb, get_dlb.
    rewrite Hb. simpl.
    erewrite IH by apply lookup_insert_eq.
    f_equal. simpl. by rewrite insert_insert_eq.
Qed.

(** X8: vsp1_dl_list_write() appends to the primary body of the
    display list: within the 256 entries of the body, the registers
    written are its entries, in the order of the calls, after those
    written before.  Nothing else changes: not the header, not a link,
    not another display list or a fragment, and no register of the
    device. *)
Theorem list_writes_are_appended dl ws s l :
  dls s !! dl = Some l →
  (0 ≤ dlb_num_entries (body0 l))%Z →
  (dlb_num_entries (body0 l) + Z.of_nat (length ws) ≤ VSP1_DL_NUM_ENTRIES)%Z →
  ∃ s' l',
    write_sequence dl ws s = Done s' ∧ dls s' !! dl = Some l' ∧
    dlb_num_entries (body0 l')
      = (dlb_num_entries (body0 l) + Z.of_nat (length ws))%Z ∧
    (∀ i w, ws !! i = Some w →
       dlb_entries (body0 l')
         !! (dlb_num_entries (body0 l) + Z.of_nat i)%Z
       = Some (Entry (u32 w.1) (u32 w.2))) ∧
    (∀ j, (j < dlb_num_entries (body0 l))%Z →
       dlb_entries (body0 l') !! j = dlb_entries (body0 l) !! j) ∧
    header l' = header l ∧ dma l' = dma l ∧
    has_chain l' = has_chain l ∧ internal l' = internal l ∧
    dlb_dma (body0 l') = dlb_dma (body0 l) ∧
    (∀ d, d ≠ dl → dls s' !! d = dls s !! d) ∧
    links s' = links s ∧ dlbs s' = dlbs s ∧ mmio s' = mmio s ∧
    slots_kept s s'.
Proof.
  intros Hl H0 Hlen. unfold VSP1_DL_NUM_ENTRIES in Hlen.
  destruct (body_writes_spec ws (body0 l) H0) as (Hn & Hd & _ & Hw & Hk);
    [lia|].
  eexists _, _. split; [by apply write_sequence_Done|].
  split; [apply lookup_insert_eq|]. simpl.
  split; [done|]. split; [done|]. split; [done|].
  do 5 (split; [done|]).
  split; [intros d Hne; by apply lookup_insert_ne|].
  done.
Qed.

(** X9: a fragment allocated for [n] entries and then written at most
    [n] times holds the registers written, in the order of the calls;
    its entry count is the number of calls, and the entries lie within
    the memory allocated for it.  The allocation gives a body that was
    not allocated before, and the calls change no other body and no
    display list. *)
Theorem fragment_holds_its_writes n a ws s :
  (0 ≤ n < 2 ^ 29)%Z → (Z.of_nat (length ws) ≤ n)%Z →
  ∃ b s1 s2 dlb,
    vsp1_dl_fragment_alloc n (Some a) s = (Some b, s1) ∧
    dlbs s !! b = None ∧
    fragment_write_sequence b ws s1 = Done s2 ∧
    dlbs s2 !! b = Some dlb ∧
    dlb_dma dlb = a ∧ dlb_size dlb = (n * sizeof_entry)%Z ∧
    dlb_num_entries dlb = Z.of_nat (length ws) ∧
    within_capacity dlb ∧
    (∀ i w, ws !! i = Some w →
       dlb_entries dlb !! Z.of_nat i = Some (Entry (u32 w.1) (u32 w.2))) ∧
    (∀ b', b' ≠ b → dlbs s2 !! b' = dlbs s !! b') ∧
    dls s2 = dls s ∧ mmio s2 = mmio s.
Proof.
  intros Hn Hlen.
  set (b := fresh (dom (dlbs s))).
  set (dlb0 := Body ∅ a (n * sizeof_entry + 0) 0).
  destruct (body_writes_spec ws dlb0) as (Hnum & Hdma & Hsize & Hw & _);
    [simpl; lia..|].
  simpl in Hnum, Hdma, Hsize, Hw.
  eexists b, _, _, (body_writes ws dlb0).
  split; [reflexivity|].
  split; [apply not_elem_of_dom, is_fresh|].
  split.
  { apply (fragment_write_sequence_Done _ _ _ dlb0). simpl.
    apply lookup_insert_eq. }
  simpl. split; [apply lookup_insert_eq|].
  split; [done|]. split; [rewrite Hsize; lia|]. split; [done|].
  split.
  { unfold within_capacity. rewrite Hnum, Hsize. unfold sizeof_entry. lia. }
  split; [done|].
  split; [|done].
  intros b' Hne. by rewrite !lookup_insert_ne.
Qed.

(** ** Creating a manager: allocation failures *)

Lemma create_prealloc_ext n i mems mems' s :
  (∀ j, i ≤ j < i + n → mems j = mems' j) →
  create_prealloc n i mems s = create_prealloc n i mems' s.
Proof.
  revert i s. induction n as [|n IH]; intros i s Hm; [done|].
  simpl. rewrite <- (Hm i) by lia.
  destruct (vsp1_dl_list_alloc (mems i) s) as [[d|] s1]; [|done].
  destruct (on_links _ s1) as [s2| |]; simpl; [|done..].
  apply IH. intros j Hj. apply Hm. lia.
Qed.

Lemma create_prealloc_fails n i mems s v :
  wf s v → (∃ j, i ≤ j < i + n ∧ mems j = None) →
  create_prealloc n i mems s = Done None.
Proof.
  revert i s v. induction n as [|n IH]; intros i s v Hwf (j & Hj & Hnone).
  { lia. }
  simpl. destruct (mems i) as [a|] eqn:Hi; [|done].
  destruct (alloc_spec s v a Hwf)
    as (d & l & s1 & -> & Hd & Hdls1 & _ & _ & Hwf1 & _).
  destruct (pool_add_tail_spec s1 _ d Hwf1) as (s2 & -> & Hwf2 & _).
  { rewrite Hdls1, lookup_insert_eq. eauto. }
  { simpl. intros Hin. apply (wf_pool_alloc _ _ Hwf) in Hin as [? ?].
    congruence. }
  rewrite bind_Done. apply (IH (S i) s2 _ Hwf2).
  exists j. split; [|done]. destruct (decide (j = i)) as [->|]; [congruence|lia].
Qed.

(** X10: vsp1_dlm_create() returns a null pointer when the allocation
    of the manager fails, or when one of the [prealloc] allocations of
    a display list fails, and a manager when all of them succeed.  The
    manager has [prealloc] display lists in its free pool, empty slots,
    and the configuration of the device: it is headerless for index 0
    of a device without the user API and in header mode otherwise, and
    single-shot for a device with the user API; so a single-shot manager
    is in header mode. *)
Theorem create_fails_when_allocation_fails vsp1 idx n dlm_mem mems :
  (dlm_mem = false ∨ (∃ j, j < n ∧ mems j = None) →
   vsp1_dlm_create vsp1 idx n dlm_mem mems = Done None) ∧
  (dlm_mem = true → (∀ j, j < n → is_Some (mems j)) →
   ∃ s v,
     vsp1_dlm_create vsp1 idx n dlm_mem mems = Done (Some s) ∧
     pipeline_ok s v [] [] [] ∧ pool_clean s v ∧
     length (free_pool v) = n ∧
     active s = None ∧ queued s = None ∧ pending s = None ∧
     index s = idx ∧ singleshot s = uapi vsp1 ∧
     (mode s = VSP1_DL_MODE_HEADERLESS ↔ idx = 0%Z ∧ uapi vsp1 = false) ∧
     (singleshot s = true → mode s = VSP1_DL_MODE_HEADER) ∧
     mmio s = device_regs vsp1).
Proof.
  unfold vsp1_dlm_create.
  set (s0 := Manager _ _ _ _ _ _ _ _ _ _ _ _).
  assert (wf s0 (View [] [] (λ _, []))) as Hwf0.
  { apply wf_by_computation. unfold s0. by vm_compute. }
  split.
  - intros [->|(j & Hj & Hnone)]; [done|].
    destruct dlm_mem; [|done].
    apply (create_prealloc_fails _ _ _ _ _ Hwf0).
    exists j. split; [lia|done].
  - intros -> Hmems.
    set (mems' := λ j, if decide (j < n) then mems j else Some 0%Z).
    rewrite (create_prealloc_ext n 0 mems mems').
    2:{ intros j Hj. unfold mems'. by rewrite decide_True by lia. }
    destruct (create_prealloc_spec n 0 mems' s0 (View [] [] (λ _, [])))
      as (s & v & E & Hwf & Hclean & Hlen & Ha & Hq & Hp & Hi & Hm & Hs & Hr);
      [|done|constructor|].
    { intros j. unfold mems'. case_decide; eauto. }
    exists s, v. unfold s0 in *. simpl in *.
    split; [done|]. split.
    { constructor; [done|by rewrite ?Ha, ?Hq, ?Hp..|].
      assert (reset_lists s [] [] [] = []) as ->.
      { unfold reset_lists. by rewrite Ha, Hq, Hp. }
      rewrite app_nil_r. pose proof (wf_pool _ _ Hwf) as [Hnd _].
      apply NoDup_cons in Hnd as [_ Hnd].
      by apply NoDup_fmap in Hnd; [|intros ?? [=]]. }
    split; [done|]. split; [done|].
    split; [done|]. split; [done|]. split; [done|]. split; [done|].
    split; [done|]. rewrite Hm, Hs. split; [|split; [|done]].
    + destruct (uapi vsp1); case_bool_decide; simpl; split;
        try done; intros []; done.
    + intros ->. rewrite andb_false_r. done.
Qed.

(** ** Allocating and releasing a fragment *)

(** X11: vsp1_dl_fragment_alloc() returns a null pointer, and changes
    nothing, when the allocation fails.  A fragment that it returns was
    not allocated before; vsp1_dl_fragment_free() of that fragment gives
    back the state before the allocation, and a second
    vsp1_dl_fragment_free() of it uses a body that is no longer
    allocated.  vsp1_dl_fragment_free() of a null pointer does
    nothing. *)
Theorem fragment_alloc_free_round_trip n a s :
  links s !! DLB_LIST (fresh (dom (dlbs s))) = None →
  vsp1_dl_fragment_alloc n None s = (None, s) ∧
  vsp1_dl_fragment_free None s = Done s ∧
  ∃ b s1,
    vsp1_dl_fragment_alloc n (Some a) s = (Some b, s1) ∧
    dlbs s !! b = None ∧ is_Some (dlbs s1 !! b) ∧
    vsp1_dl_fragment_free (Some b) s1 = Done s ∧
    vsp1_dl_fragment_free (Some b) s = Fault BadPointer.
Proof.
  intros Hcell. split; [done|]. split; [done|].
  set (b := fresh (dom (dlbs s))) in *.
  assert (dlbs s !! b = None) as Hb by apply not_elem_of_dom, is_fresh.
  eexists b, _. split; [reflexivity|]. split; [done|].
  split; [simpl; rewrite lookup_insert_eq; eauto|]. split.
  - erewrite fragment_free_Done by (simpl; apply lookup_insert_eq).
    f_equal. unfold kfree_dlb. simpl.
    rewrite !delete_insert_id by done. by destruct s.
  - unfold vsp1_dl_fragment_free, modify_dlb, get_dlb. by rewrite Hb.
Qed.

(** ** The display lists of the pool and of the slots *)

Lemma recycle_all_dom_eq D (m : gmap nat vsp1_dl_list) :
  dom (recycle_all D m) = dom m.
Proof.
  apply set_eq. intros d. rewrite !elem_of_dom. apply recycle_all_dom.
Qed.

Lemma only_commit_writes_dom_eq s s' :
  only_commit_writes s s' → dom (dls s') = dom (dls s).
Proof.
  intros Hocw. apply set_eq. intros d. rewrite !elem_of_dom.
  by apply only_commit_writes_dom.
Qed.

Section pipeline.
Context `{vsp1_regs}.

Lemma frame_end_pending_spec s :
  slot_alloc s (pending s) →
  ∃ s', frame_end_pending s = Done s' ∧
    links s' = links s ∧ dls s' = dls s ∧ dlbs s' = dlbs s ∧
    active s' = active s ∧ pending s' = None ∧
    queued s' = match pending s with Some p => Some p | None => queued s end.
Proof.
  intros Hp. unfold frame_end_pending.
  destruct (pending s) as [p|] eqn:Hpe; [|by exists s].
  destruct Hp as [lp Hlp].
  rewrite (hw_enqueue_Done _ _ _ Hlp), bind_Done.
  eexists. split; [reflexivity|]. simpl. by rewrite Hpe.
Qed.

(** X12: vsp1_dlm_irq_frame_end() returns and keeps the display lists
    where they should be; the sequence of the display lists of the free
    pool, of the active, of the queued and of the pending slot is the
    same before and after: a frame end moves display lists towards the
    pool, and neither loses nor duplicates one.  It allocates and
    releases nothing: the display lists and the bodies that are
    allocated are the same. *)
Theorem frame_end_keeps_pipeline fuel s v Ca Cq Cp :
  pipeline_ok s v Ca Cq Cp → length Ca + 2 ≤ fuel →
  ∃ fl s' v' Ca' Cq' Cp',
    vsp1_dlm_irq_frame_end fuel s = Done (fl, s') ∧
    pipeline_ok s' v' Ca' Cq' Cp' ∧
    free_pool v' ++ reset_lists s' Ca' Cq' Cp'
    = free_pool v ++ reset_lists s Ca Cq Cp ∧
    dlbs s' = dlbs s ∧ dom (dls s') = dom (dls s).
Proof.
  intros [Hwf Ha Hq Hp Hnd] Hfuel. unfold reset_lists in *.
  set (la := slot_lists (active s) Ca) in *.
  set (lq := slot_lists (queued s) Cq) in *.
  set (lp := slot_lists (pending s) Cp) in *.
  pose proof Hnd as Hnd0.
  apply NoDup_app in Hnd0 as (_ & HPdisj & Hnd0).
  apply NoDup_app in Hnd0 as (_ & Hadisj & _).
  assert (∀ d, d ∈ la → d ∉ free_pool v) as HaP.
  { intros d Hd Hin. apply (HPdisj d Hin). set_solver. }
  assert (∀ d, d ∈ lq → d ∉ la) as Hqa.
  { intros d Hd Hin. apply (Hadisj d Hin). set_solver. }
  assert (∀ d, d ∈ lp → d ∉ la) as Hpa.
  { intros d Hd Hin. apply (Hadisj d Hin). set_solver. }
  unfold vsp1_dlm_irq_frame_end.
  destruct (singleshot s) eqn:Hss.
  { (* single-shot mode *)
    destruct (put_spec fuel s v (active s) Ca Hwf Ha HaP Hfuel)
      as (s1 & E1 & Hwf1 & Hro1 & Hdls1).
    rewrite E1, bind_Done.
    eexists _, _, (release_view la v), [], Cq, Cp.
    split; [reflexivity|]. split; [|split; [|split]].
    - constructor; simpl.
      + by apply (wf_ext s1).
      + done.
      + rewrite (ro_queued _ _ Hro1). apply (slot_chain_ext s1); [done..|].
        by apply (released_only_slot_chain s s1 la).
      + rewrite (ro_pending _ _ Hro1). apply (slot_chain_ext s1); [done..|].
        by apply (released_only_slot_chain s s1 la).
      + unfold reset_lists. simpl. rewrite release_view_free_pool.
        rewrite (ro_queued _ _ Hro1), (ro_pending _ _ Hro1).
        change (slot_lists None []) with (@nil nat). simpl. by rewrite <- app_assoc.
    - unfold reset_lists. simpl. rewrite release_view_free_pool.
      rewrite (ro_queued _ _ Hro1), (ro_pending _ _ Hro1).
      change (slot_lists None []) with (@nil nat). simpl. by rewrite <- app_assoc.
    - apply (ro_dlbs _ _ Hro1).
    - simpl. by rewrite Hdls1, recycle_all_dom_eq. }
  destruct (vsp1_dl_list_hw_update_pending s) eqn:Hup.
  { (* the hardware has not taken the queued list *)
    eexists _, s, v, Ca, Cq, Cp. split; [reflexivity|]. done. }
  unfold frame_end_queued.
  destruct (queued s) as [q|] eqn:Hqu.
  - (* the queued list becomes active *)
    destruct (slot_chain_alloc _ _ _ q Hq) as [l Hl].
    { unfold slot_lists. set_solver. }
    rewrite (get_dl_Done _ _ _ Hl), bind_Done.
    rewrite (modify_dl_Done _ _ _ _ Hl), bind_Done.
    set (s0 := set_dls _ s).
    assert (only_commit_writes s s0) as Hocw.
    { apply (only_commit_writes_with_dl s q l); [done| |by eapply wf_headers].
      apply written_by_commit_internal. by eapply wf_headers. }
    change (active s0) with (active s).
    destruct (put_spec fuel s0 v (active s) Ca)
      as (s1 & E1 & Hwf1 & Hro1 & Hdls1); try done.
    { by eapply only_commit_writes_wf. }
    { by eapply only_commit_writes_slot_chain. }
    rewrite E1, !bind_Done.
    set (s2 := set_queued None _).
    assert (slot_chain s1 (Some q) Cq ∧ slot_chain s1 (pending s) Cp)
      as [Hq1 Hp1].
    { split; apply (released_only_slot_chain s0 s1 la); try done;
        by eapply only_commit_writes_slot_chain. }
    destruct (frame_end_pending_spec s2)
      as (s3 & E3 & Hl3 & Hd3 & Hb3 & Ha3 & Hp3 & Hq3).
    { unfold s2. simpl. rewrite (ro_pending _ _ Hro1). simpl.
      destruct (pending s) as [p|] eqn:Hpe; [|done]. simpl.
      apply (slot_chain_alloc _ _ _ p Hp1). unfold slot_lists. set_solver. }
    rewrite E3, bind_Done.
    unfold s2 in Hl3, Hd3, Hb3, Ha3, Hq3. simpl in Hl3, Hd3, Hb3, Ha3, Hq3.
    rewrite (ro_pending _ _ Hro1) in Hq3. simpl in Hq3.
    rewrite (ro_queued _ _ Hro1) in Ha3. simpl in Ha3. rewrite Hqu in Ha3.
    eexists _, s3, (release_view la v), Cq, Cp, [].
    split; [reflexivity|].
    assert (queued s3 = pending s) as Hq3'.
    { rewrite Hq3. by destruct (pending s). }
    split; [|split; [|split]].
    + constructor.
      * by apply (wf_ext s1).
      * rewrite Ha3. by apply (slot_chain_ext s1).
      * rewrite Hq3'. by apply (slot_chain_ext s1).
      * by rewrite Hp3.
      * unfold reset_lists. rewrite release_view_free_pool, Ha3, Hq3', Hp3.
        change (slot_lists None []) with (@nil nat). simpl. rewrite app_nil_r.
        by rewrite <- app_assoc.
    + unfold reset_lists. rewrite release_view_free_pool, Ha3, Hq3', Hp3.
      change (slot_lists None []) with (@nil nat). simpl. rewrite app_nil_r.
      by rewrite <- app_assoc.
    + rewrite Hb3. apply (ro_dlbs _ _ Hro1).
    + rewrite Hd3, Hdls1, recycle_all_dom_eq. unfold s0. simpl.
      apply dom_insert_lookup_L. eauto.
  - (* no list was queued *)
    rewrite bind_Done.
    destruct (frame_end_pending_spec s)
      as (s3 & E3 & Hl3 & Hd3 & Hb3 & Ha3 & Hp3 & Hq3).
    { destruct (pending s) as [p|] eqn:Hpe; [|done]. simpl.
      apply (slot_chain_alloc _ _ _ p Hp). unfold slot_lists. set_solver. }
    rewrite E3, bind_Done.
    assert (queued s3 = pending s) as Hq3'.
    { rewrite Hq3, Hqu. by destruct (pending s). }
    simpl in Hq. subst Cq.
    eexists _, s3, v, Ca, Cp, [].
    split; [reflexivity|]. split; [|split; [|split]].
    + constructor.
      * by apply (wf_ext s).
      * rewrite Ha3. by apply (slot_chain_ext s).
      * rewrite Hq3'. by apply (slot_chain_ext s).
      * by rewrite Hp3.
      * unfold reset_lists. rewrite Ha3, Hq3', Hp3.
        change (slot_lists None []) with (@nil nat). simpl. by rewrite app_nil_r.
    + unfold reset_lists. rewrite Ha3, Hq3', Hp3.
      change (slot_lists None []) with (@nil nat). simpl. by rewrite app_nil_r.
    + done.
    + by rewrite Hd3.
Qed.
End pipeline.

Section pipeline_commit.
Context `{vsp1_regs}.

Lemma warn_pending_internal_spec s :
  slot_alloc s (pending s) →
  ∃ w, warn_pending_internal s = Done (set_warnings w s).
Proof.
  intros Hp. unfold warn_pending_internal.
  destruct (pending s) as [p|].
  - destruct Hp as [l Hl]. rewrite (get_dl_Done _ _ _ Hl), bind_Done.
    destruct (internal l); [by eexists|].
    exists (warnings s). by destruct s.
  - exists (warnings s). by destruct s.
Qed.

(** X13: vsp1_dl_list_commit() of a display list that is neither in
    the free pool nor in a slot returns and keeps the display lists
    where they should be: the display lists of the free pool and of the
    slots are, after the commit, those that were there before and the
    list committed with its chain, each of them once.  In single-shot
    mode this needs an empty active slot: the function stores the new
    list there and releases nothing.  A commit allocates and releases
    nothing. *)
Theorem commit_keeps_pipeline fuel s v Ca Cq Cp dl i C :
  pipeline_ok s v Ca Cq Cp → committable s v dl C → chain_of s dl C →
  NoDup ((free_pool v ++ reset_lists s Ca Cq Cp) ++ C ++ [dl]) →
  (singleshot s = true → active s = None) →
  HEADER_LISTS ≤ fuel → length C < fuel →
  length Cq + 2 ≤ fuel → length Cp + 2 ≤ fuel →
  ∃ s' v' Ca' Cq' Cp',
    vsp1_dl_list_commit fuel dl i s = Done s' ∧
    pipeline_ok s' v' Ca' Cq' Cp' ∧
    free_pool v' ++ reset_lists s' Ca' Cq' Cp'
    ≡ₚ (free_pool v ++ reset_lists s Ca Cq Cp) ++ C ++ [dl] ∧
    dlbs s' = dlbs s ∧ dom (dls s') = dom (dls s).
Proof.
  intros [Hwf Ha Hq Hp _] Hc Hdl Hnd Hidle Hfuel8 HfuelC HfuelQ HfuelP.
  unfold reset_lists in *.
  set (la := slot_lists (active s) Ca) in *.
  set (lq := slot_lists (queued s) Cq) in *.
  set (lp := slot_lists (pending s) Cp) in *.
  set (N := C ++ [dl]) in *.
  set (P := free_pool v) in *.
  pose proof Hnd as Hnd0.
  apply NoDup_app in Hnd0 as (Hnd1 & HNdisj & _).
  apply NoDup_app in Hnd1 as (_ & HPdisj & Hnd1).
  apply NoDup_app in Hnd1 as (_ & Hadisj & Hnd1).
  apply NoDup_app in Hnd1 as (_ & Hqdisj & _).
  rewrite commit_unfold.
  destruct (commit_prepare_spec fuel s v dl C i Hwf Hc Hfuel8 HfuelC)
    as (s1 & -> & Hocw & _ & _).
  rewrite bind_Done.
  pose proof (only_commit_writes_wf _ _ _ Hocw Hwf) as Hwf1.
  pose proof (only_commit_writes_slot_chain _ _ _ _ Hocw Ha) as Ha1.
  pose proof (only_commit_writes_slot_chain _ _ _ _ Hocw Hq) as Hq1.
  pose proof (only_commit_writes_slot_chain _ _ _ _ Hocw Hp) as Hp1.
  pose proof (only_commit_writes_chain_of _ _ _ _ Hocw Hdl) as Hdl1.
  destruct Hc as [[l Hl] _].
  destruct (only_commit_writes_lookup _ _ _ _ Hocw Hl) as (l1 & Hl1 & _).
  pose proof Hocw as [Hoi Hom Hos Hoa Hoq Hop Hol Hob Homm Hog Howr Hod].
  pose proof (only_commit_writes_dom_eq _ _ Hocw) as Hdom.
  rewrite Hos. destruct (singleshot s) eqn:Hss.
  { (* single-shot mode *)
    unfold vsp1_dl_list_commit_singleshot.
    rewrite (hw_enqueue_Done _ _ _ Hl1), bind_Done.
    assert (la = []) as Hla.
    { unfold la. rewrite (Hidle eq_refl) in Ha |- *. simpl in Ha.
      by subst Ca. }
    assert (P ++ N ++ lq ++ lp ≡ₚ (P ++ la ++ lq ++ lp) ++ N) as Hperm.
    { rewrite Hla. simpl. rewrite <- !app_assoc. f_equiv.
      rewrite (app_assoc lq lp N). apply Permutation_app_comm. }
    eexists _, v, C, Cq, Cp. split; [reflexivity|].
    assert (∀ o C0, slot_chain s1 o C0 →
              slot_chain (set_active (Some dl) (set_mmio (hw_program s1 l1) s1))
                         o C0) as Hext.
    { intros o C0. by apply slot_chain_ext. }
    split; [|split; [|split; [done|done]]].
    - constructor; simpl.
      + by apply (wf_ext s1).
      + by apply (Hext (Some dl)).
      + rewrite Hoq. by apply Hext.
      + rewrite Hop. by apply Hext.
      + unfold reset_lists. simpl. rewrite Hoq, Hop.
        fold lq lp. change (slot_lists (Some dl) C) with N.
        fold P. by rewrite Hperm.
    - unfold reset_lists. simpl. rewrite Hoq, Hop.
      fold lq lp. change (slot_lists (Some dl) C) with N. done. }
  unfold vsp1_dl_list_commit_continuous.
  rewrite (hw_update_pending_ext s s1) by done.
  destruct (vsp1_dl_list_hw_update_pending s) eqn:Hup.
  - (* the new list replaces the pending one *)
    destruct (warn_pending_internal_spec s1) as (w & ->).
    { rewrite Hop. destruct (pending s) as [p|] eqn:Hpe; [|done]. simpl.
      apply (slot_chain_alloc _ _ _ p Hp1).
      unfold slot_lists. set_solver. }
    rewrite bind_Done.
    change (pending (set_warnings w s1)) with (pending s1). rewrite Hop.
    destruct (put_spec fuel (set_warnings w s1) v (pending s) Cp)
      as (s3 & -> & Hwf3 & Hro3 & Hdls3);
      [by apply (wf_ext s1)|by apply (slot_chain_ext s1)| |done|].
    { intros d Hd Hin. fold P in Hin. apply (HPdisj d Hin). set_solver. }
    rewrite bind_Done.
    assert ((P ++ lp) ++ la ++ lq ++ N ≡ₚ (P ++ la ++ lq ++ lp) ++ N)
      as Hperm.
    { rewrite <- !app_assoc. f_equiv. rewrite !(app_assoc la lq).
      apply Permutation_app_swap_app. }
    assert (∀ o C0, slot_chain s1 o C0 → (∀ d, d ∈ slot_lists o C0 → d ∉ lp) →
              slot_chain (set_pending (Some dl) s3) o C0) as Hext.
    { intros o C0 Ho Hdisj. apply (slot_chain_ext s3); [done..|].
      by apply (released_only_slot_chain (set_warnings w s1) s3 lp). }
    pose proof Hro3 as [_ _ _ Hra Hrq _ _ _ _ _].
    simpl in Hra, Hrq.
    eexists _, (release_view lp v), Ca, Cq, C. split; [reflexivity|].
    split; [|split; [|split]].
    + constructor; simpl.
      * by apply (wf_ext s3).
      * rewrite Hra, Hoa. apply Hext; [done|].
        intros d Hd Hin. apply (Hadisj d Hd). set_solver.
      * rewrite Hrq, Hoq. apply Hext; [done|].
        intros d Hd Hin. by apply (Hqdisj d Hd).
      * apply (Hext (Some dl)); [done|].
        intros d Hd Hin. apply (HNdisj d); [|done]. set_solver.
      * unfold reset_lists. simpl. rewrite release_view_free_pool.
        rewrite Hra, Hoa, Hrq, Hoq. fold la lq P.
        change (slot_lists (Some dl) C) with N. by rewrite Hperm.
    + unfold reset_lists. simpl. rewrite release_view_free_pool.
      rewrite Hra, Hoa, Hrq, Hoq. fold la lq P.
      change (slot_lists (Some dl) C) with N. done.
    + simpl. rewrite (ro_dlbs _ _ Hro3). done.
    + simpl. by rewrite Hdls3, recycle_all_dom_eq.
  - (* the new list replaces the queued one *)
    rewrite (hw_enqueue_Done _ _ _ Hl1), bind_Done.
    change (queued (set_mmio (hw_program s1 l1) s1)) with (queued s1).
    rewrite Hoq.
    destruct (put_spec fuel (set_mmio (hw_program s1 l1) s1) v (queued s) Cq)
      as (s3 & -> & Hwf3 & Hro3 & Hdls3);
      [by apply (wf_ext s1)|by apply (slot_chain_ext s1)| |done|].
    { intros d Hd Hin. fold P in Hin. apply (HPdisj d Hin). set_solver. }
    rewrite bind_Done.
    assert ((P ++ lq) ++ la ++ N ++ lp ≡ₚ (P ++ la ++ lq ++ lp) ++ N)
      as Hperm.
    { rewrite <- !app_assoc. f_equiv.
      etrans; [apply Permutation_app_swap_app|].
      do 2 f_equiv. apply Permutation_app_comm. }
    assert (∀ o C0, slot_chain s1 o C0 → (∀ d, d ∈ slot_lists o C0 → d ∉ lq) →
              slot_chain (set_queued (Some dl) s3) o C0) as Hext.
    { intros o C0 Ho Hdisj. apply (slot_chain_ext s3); [done..|].
      by apply (released_only_slot_chain (set_mmio (hw_program s1 l1) s1)
                  s3 lq). }
    pose proof Hro3 as [_ _ _ Hra _ Hrp _ _ _ _].
    simpl in Hra, Hrp.
    eexists _, (release_view lq v), Ca, C, Cp. split; [reflexivity|].
    split; [|split; [|split]].
    + constructor; simpl.
      * by apply (wf_ext s3).
      * rewrite Hra, Hoa. apply Hext; [done|].
        intros d Hd Hin. apply (Hadisj d Hd). set_solver.
      * apply (Hext (Some dl)); [done|].
        intros d Hd Hin. apply (HNdisj d); [|done]. set_solver.
      * rewrite Hrp, Hop. apply Hext; [done|].
        intros d Hd Hin. by apply (Hqdisj d Hin).
      * unfold reset_lists. simpl. rewrite release_view_free_pool.
        rewrite Hra, Hoa, Hrp, Hop. fold la lp P.
        change (slot_lists (Some dl) C) with N. by rewrite Hperm.
    + unfold reset_lists. simpl. rewrite release_view_free_pool.
      rewrite Hra, Hoa, Hrp, Hop. fold la lp P.
      change (slot_lists (Some dl) C) with N. done.
    + simpl. rewrite (ro_dlbs _ _ Hro3). done.
    + simpl. by rewrite Hdls3, recycle_all_dom_eq.
Qed.
End pipeline_commit.

(** ** Headerless mode: the update bit *)

Lemma land_u32_lor_absorb a x :
  (0 ≤ a < 2 ^ 32)%Z → Z.land (u32 (Z.lor a x)) a = a.
Proof.
  intros Ha. unfold u32. rewrite <- (Z.land_ones _ 32) by lia.
  apply Z.bits_inj'. intros n Hn.
  rewrite !Z.land_spec, Z.lor_spec.
  destruct (Z.testbit a n) eqn:Hbit; [|by rewrite andb_false_r].
  rewrite andb_true_r. simpl.
  destruct (decide (n < 32)%Z) as [Hlt|Hge].
  - by rewrite Z.ones_spec_low by lia.
  - exfalso. assert (Z.testbit a n = false); [|congruence].
    destruct (decide (a = 0%Z)) as [->|Hne]; [apply Z.bits_0|].
    apply Z.bits_above_log2; [lia|].
    assert (Z.log2 a < 32)%Z; [|lia].
    apply Z.log2_lt_pow2; lia.
Qed.

Section headerless.
Context `{vsp1_regs}.

(** X14: in headerless mode a commit that programs the hardware writes
    the address of the body and its size in bytes with the update bit.
    As long as the hardware has not cleared that bit, the update is
    pending: a frame end reports nothing completed and changes nothing,
    and a second commit is kept as the pending list, without a write to
    the registers. *)
Theorem headerless_commit_sets_update_bit fuel s v dl i l Cq :
  wf s v → mode s = VSP1_DL_MODE_HEADERLESS → singleshot s = false →
  vsp1_dl_list_hw_update_pending s = false →
  dls s !! dl = Some l →
  slot_chain s (queued s) Cq →
  Forall (λ d, d ∉ free_pool v) (slot_lists (queued s) Cq) →
  pending s = None →
  (0 < VI6_DL_BODY_SIZE_UPD < 2 ^ 32)%Z →
  VI6_DL_HDR_ADDR 0 ≠ VI6_DL_BODY_SIZE →
  HEADER_LISTS ≤ fuel → length Cq + 2 ≤ fuel →
  ∃ s',
    vsp1_dl_list_commit fuel dl i s = Done s' ∧ queued s' = Some dl ∧
    vsp1_read s' (VI6_DL_HDR_ADDR 0) = u32 (dlb_dma (body0 l)) ∧
    vsp1_read s' VI6_DL_BODY_SIZE =
      u32 (Z.lor VI6_DL_BODY_SIZE_UPD
             (dlb_num_entries (body0 l) * sizeof_header_list)) ∧
    vsp1_dl_list_hw_update_pending s' = true ∧
    vsp1_dlm_irq_frame_end fuel s' = Done (0%Z, s') ∧
    ∀ dl2 i2, is_Some (dls s' !! dl2) →
      ∃ s'', vsp1_dl_list_commit fuel dl2 i2 s' = Done s'' ∧
        pending s'' = Some dl2 ∧ queued s'' = Some dl ∧ mmio s'' = mmio s'.
Proof.
  intros Hwf Hmode Hss Hup Hl Hq Hfree Hpe Hupd Hreg Hfuel8 HfuelQ.
  assert (∀ s0 v0 d j, wf s0 v0 → mode s0 = VSP1_DL_MODE_HEADERLESS →
            is_Some (dls s0 !! d) →
            ∃ s1, (s2 ← (if decide (mode s0 = VSP1_DL_MODE_HEADER)
                         then commit_fill_headers fuel d s0 else Done s0);
                   modify_dl d (set_internal j) s2) = Done s1 ∧
                  only_commit_writes s0 s1) as Hprep.
  { intros s0 v0 d j Hwf0 Hm0 Hd.
    destruct (commit_prepare_spec fuel s0 v0 d [] j Hwf0)
      as (s1 & E & Hocw & _); [|done|simpl; lia|eauto].
    split; [done|]. rewrite Hm0. done. }
  rewrite commit_unfold.
  destruct (Hprep s v dl i Hwf Hmode) as (s1 & -> & Hocw); [eauto|].
  rewrite bind_Done.
  pose proof (only_commit_writes_wf _ _ _ Hocw Hwf) as Hwf1.
  destruct (only_commit_writes_lookup _ _ _ _ Hocw Hl) as (l1 & Hl1 & Hwbc).
  pose proof (only_commit_writes_slot_chain _ _ _ _ Hocw Hq) as Hq1.
  pose proof Hocw as [Hoi Hom Hos Hoa Hoq Hop Hol Hob Homm Hog Howr Hod].
  rewrite Hos, Hss. unfold vsp1_dl_list_commit_continuous.
  rewrite (hw_update_pending_ext s s1), Hup by done.
  rewrite (hw_enqueue_Done _ _ _ Hl1), bind_Done.
  change (queued (set_mmio (hw_program s1 l1) s1)) with (queued s1).
  rewrite Hoq.
  destruct (put_spec fuel (set_mmio (hw_program s1 l1) s1) v (queued s) Cq)
    as (s3 & -> & Hwf3 & Hro3 & Hdls3);
    [by apply (wf_ext s1)|by apply (slot_chain_ext s1)| |done|].
  { by apply (proj1 (Forall_forall _ _) Hfree). }
  rewrite bind_Done.
  set (s' := set_queued (Some dl) s3).
  pose proof Hro3 as [Hri Hrm Hrs Hra Hrq Hrp Hrb Hrmm Hrw Hrc].
  simpl in Hri, Hrm, Hrs, Hra, Hrq, Hrp, Hrb, Hrmm, Hrw.
  assert (mmio s' =
          <[VI6_DL_BODY_SIZE :=
              u32 (Z.lor VI6_DL_BODY_SIZE_UPD
                     (dlb_num_entries (body0 l) * sizeof_header_list))]>
            (<[VI6_DL_HDR_ADDR 0 := u32 (dlb_dma (body0 l))]> (mmio s)))
    as Hmmio.
  { unfold s'. simpl. rewrite Hrmm. unfold hw_program.
    rewrite Hom, Hmode, Homm. destruct Hwbc as [_ -> _ _ _]. done. }
  assert (mode s' = VSP1_DL_MODE_HEADERLESS) as Hmode'.
  { unfold s'. simpl. congruence. }
  assert (vsp1_dl_list_hw_update_pending s' = true) as Hup'.
  { unfold vsp1_dl_list_hw_update_pending. unfold s' at 1. simpl.
    rewrite decide_True by done. unfold vsp1_read.
    rewrite Hmmio, lookup_insert_eq. simpl.
    rewrite land_u32_lor_absorb by lia.
    apply negb_true_iff, Z.eqb_neq. lia. }
  assert (singleshot s' = false) as Hss'.
  { unfold s'. simpl. congruence. }
  exists s'. split; [done|]. split; [done|].
  split.
  { unfold vsp1_read. rewrite Hmmio, lookup_insert_ne, lookup_insert_eq by done.
    done. }
  split; [unfold vsp1_read; by rewrite Hmmio, lookup_insert_eq|].
  split; [done|].
  split.
  { unfold vsp1_dlm_irq_frame_end. by rewrite Hss', Hup'. }
  intros dl2 i2 Hdl2.
  assert (wf s' (release_view (slot_lists (queued s) Cq) v)) as Hwf'.
  { by apply (wf_ext s3). }
  rewrite commit_unfold.
  destruct (Hprep s' _ dl2 i2 Hwf' Hmode' Hdl2) as (s4 & -> & Hocw4).
  rewrite bind_Done.
  pose proof Hocw4 as [Hoi4 Hom4 Hos4 Hoa4 Hoq4 Hop4 Hol4 Hob4 Homm4 _ _ _].
  rewrite Hos4, Hss'. unfold vsp1_dl_list_commit_continuous.
  rewrite (hw_update_pending_ext s' s4), Hup' by done.
  assert (pending s4 = None) as Hp4.
  { rewrite Hop4. unfold s'. simpl. congruence. }
  unfold warn_pending_internal. rewrite Hp4, bind_Done, Hp4.
  rewrite put_None, bind_Done.
  eexists. split; [reflexivity|]. simpl.
  split; [done|]. split; [by rewrite Hoq4|done].
Qed.
End headerless.

(** ** The pool calls and the slots *)

(** The chain of a slot depends on the display lists and on the chain
    links of its lists only. *)
Lemma slot_chain_frame s s' o C :
  dls s' = dls s →
  (∀ c, c ∈ slot_lists o C → links s' !! DL_CHAIN c = links s !! DL_CHAIN c) →
  slot_chain s o C → slot_chain s' o C.
Proof.
  intros Hdls Hlinks. destruct o as [x|]; simpl; [|done].
  unfold slot_lists in Hlinks. simpl in Hlinks.
  unfold chain_of, no_chain. rewrite Hdls.
  destruct (dls s !! x) as [l|]; [|done].
  destruct (has_chain l); [|done].
  intros [Hring Hflat]. split; [|done].
  unfold chain_is in *. apply (ring_ext (links s)); [done|].
  intros a Ha. apply elem_of_cons in Ha as [->|Ha].
  - apply Hlinks. set_solver.
  - apply list_elem_of_fmap in Ha as (c & -> & Hc). apply Hlinks. set_solver.
Qed.

(** vsp1_dl_list_get() changes the chain link of the display list it
    returns, and no other chain link. *)
Lemma get_chain_frame s v d L :
  wf s v → free_pool v = d :: L →
  ∃ s', vsp1_dl_list_get s = Done (Some d, s') ∧
    ∀ c, c ≠ d → links s' !! DL_CHAIN c = links s !! DL_CHAIN c.
Proof.
  intros Hwf Hpool.
  pose proof (wf_pool _ _ Hwf) as Hring. unfold pool_is in Hring.
  rewrite Hpool in Hring. simpl in Hring.
  unfold vsp1_dl_list_get.
  rewrite (ring_list_empty _ _ _ Hring), bind_Done.
  rewrite bool_decide_eq_false_2 by done.
  rewrite (rd_next_Done _ _ _ (ring_first _ _ _ Hring)), bind_Done.
  simpl hd. change (deref (Ptr (DL_LIST d))) with (Done (DL_LIST d)).
  rewrite bind_Done. change (list_entry_dl (DL_LIST d)) with (Done d).
  rewrite bind_Done.
  destruct (ring_del_first _ _ _ _ Hring) as (m1 & E1 & R1 & D1 & F1).
  rewrite (on_links_Done _ _ _ E1), bind_Done.
  destruct (ring_init m1 (DL_CHAIN d)) as (m2 & E2 & R2 & D2 & F2).
  { apply D1. apply (wf_cells _ _ Hwf). apply (wf_pool_alloc _ _ Hwf).
    rewrite Hpool. set_solver. }
  rewrite (on_links_Done _ (set_links m1 s) _ E2), bind_Done.
  eexists. split; [reflexivity|]. intros c Hc. simpl.
  rewrite F2 by congruence. apply F1. set_solver.
Qed.

(** X15: vsp1_dl_list_get() and vsp1_dl_list_put() keep the display
    lists where they should be.  The display list that
    vsp1_dl_list_get() returns leaves the free pool and is in no slot:
    it is the caller's, with an empty chain.  vsp1_dl_list_put() of a
    display list that is neither in the pool nor in a slot appends it to
    the pool, after its chained lists.  Both allocate and release
    nothing. *)
Theorem pool_calls_keep_pipeline fuel s v Ca Cq Cp :
  pipeline_ok s v Ca Cq Cp →
  match free_pool v with
  | [] => vsp1_dl_list_get s = Done (None, s)
  | d :: L =>
      ∃ s', vsp1_dl_list_get s = Done (Some d, s') ∧
        pipeline_ok s' (View L (gc_fragments v) (fragments v)) Ca Cq Cp ∧
        d ∉ L ++ reset_lists s' Ca Cq Cp ∧ chain_is s' d [] ∧
        dlbs s' = dlbs s ∧ dls s' = dls s
  end ∧
  ∀ x C, chain_of s x C →
    NoDup ((free_pool v ++ reset_lists s Ca Cq Cp) ++ C ++ [x]) →
    length C + 2 ≤ fuel →
    ∃ s', vsp1_dl_list_put fuel (Some x) s = Done s' ∧
      pipeline_ok s' (release_view (C ++ [x]) v) Ca Cq Cp ∧
      free_pool (release_view (C ++ [x]) v) = free_pool v ++ C ++ [x] ∧
      dlbs s' = dlbs s ∧ dom (dls s') = dom (dls s).
Proof.
  intros [Hwf Ha Hq Hp Hnd]. split.
  - pose proof (get_spec s v Hwf) as Hget.
    destruct (free_pool v) as [|d L] eqn:Hpool; [done|].
    destruct Hget as (s' & E & Hwf' & Hlo & Hch).
    destruct (get_chain_frame s v d L Hwf Hpool) as (s'' & E' & Hframe).
    rewrite E in E'. injection E' as <-.
    pose proof Hlo as [_ _ _ Hla Hlq Hlp Hld Hlb _ _ _].
    assert (reset_lists s' Ca Cq Cp = reset_lists s Ca Cq Cp) as HR.
    { unfold reset_lists. by rewrite Hla, Hlq, Hlp. }
    simpl in Hnd. apply NoDup_cons in Hnd as [Hd Hnd].
    exists s'. split; [done|]. split; [|by rewrite HR].
    assert (∀ o C, (∀ c, c ∈ slot_lists o C → c ∈ reset_lists s Ca Cq Cp) →
              slot_chain s o C → slot_chain s' o C) as Hext.
    { intros o C Hin. apply slot_chain_frame; [done|].
      intros c Hc. apply Hframe. intros ->. apply Hd. set_solver. }
    constructor; simpl.
    + done.
    + rewrite Hla. apply Hext; [|done]. unfold reset_lists. set_solver.
    + rewrite Hlq. apply Hext; [|done]. unfold reset_lists. set_solver.
    + rewrite Hlp. apply Hext; [|done]. unfold reset_lists. set_solver.
    + by rewrite HR.
  - intros x C Hch Hnd' Hfuel.
    pose proof Hnd' as Hnd0. apply NoDup_app in Hnd0 as (_ & Hdisj & _).
    destruct (put_spec fuel s v (Some x) C Hwf Hch)
      as (s' & E & Hwf' & Hro & Hdls); [|done|].
    { intros d Hd Hin. apply (Hdisj d); [set_solver|done]. }
    unfold slot_lists in *. simpl in *.
    pose proof Hro as [_ _ _ Hra Hrq Hrp _ _ _ _].
    assert (reset_lists s' Ca Cq Cp = reset_lists s Ca Cq Cp) as HR.
    { unfold reset_lists. by rewrite Hra, Hrq, Hrp. }
    exists s'. split; [done|].
    split; [|split; [apply release_view_free_pool|]].
    2:{ split; [apply (ro_dlbs _ _ Hro)|].
        by rewrite Hdls, recycle_all_dom_eq. }
    assert (∀ o C0, (∀ c, c ∈ slot_lists o C0 → c ∈ reset_lists s Ca Cq Cp) →
              slot_chain s o C0 → slot_chain s' o C0) as Hext.
    { intros o C0 Hin. apply (released_only_slot_chain s s' (C ++ [x]));
        [done..|].
      intros d Hd Hd'. apply (Hdisj d); [|done]. apply elem_of_app. right.
      by apply Hin. }
    constructor.
    + done.
    + rewrite Hra. apply Hext; [|done]. unfold reset_lists. set_solver.
    + rewrite Hrq. apply Hext; [|done]. unfold reset_lists. set_solver.
    + rewrite Hrp. apply Hext; [|done]. unfold reset_lists. set_solver.
    + rewrite release_view_free_pool, HR.
      rewrite <- app_assoc.
      rewrite (Permutation_app_comm (C ++ [x])), app_assoc. done.
Qed.

(** ** The memory of the display lists *)

Lemma list_alloc_Some a s :
  ∃ l, vsp1_dl_list_alloc (Some a) s =
         (Some (fresh (dom (dls s))),
          set_links (<[DL_FRAGMENTS (fresh (dom (dls s))) :=
                         ListHead (Ptr (DL_FRAGMENTS (fresh (dom (dls s)))))
                                  (Ptr (DL_FRAGMENTS (fresh (dom (dls s)))))]>
                     (<[DL_CHAIN (fresh (dom (dls s))) := ListHead NULL NULL]>
                     (<[DL_LIST (fresh (dom (dls s))) := ListHead NULL NULL]>
                        (links s))))
            (set_dls (<[fresh (dom (dls s)) := l]> (dls s)) s)) ∧
       list_layout (mode s) l ∧ dlb_dma (body0 l) = a.
Proof.
  unfold vsp1_dl_list_alloc, vsp1_dl_body_init.
  change (ALIGN sizeof_header 8) with 80%Z.
  destruct (mode s) eqn:Hmode; simpl.
  - eexists. split; [reflexivity|]. split; [|done].
    unfold list_layout, VSP1_DL_NUM_ENTRIES, sizeof_entry, sizeof_header,
      sizeof_header_list. simpl.
    do 4 (split; [done|]). split; [done|]. split; [done|]. split; [lia|done].
  - eexists. split; [reflexivity|]. split; [|done].
    unfold list_layout. simpl. done.
Qed.

Lemma create_prealloc_layout n i mems s s' :
  create_prealloc n i mems s = Done (Some s') →
  mode s' = mode s ∧
  size (dls s') = size (dls s) + n ∧
  ∀ d l, dls s' !! d = Some l →
    dls s !! d = Some l ∨
    list_layout (mode s) l ∧
    ∃ j, i ≤ j < i + n ∧ mems j = Some (dlb_dma (body0 l)).
Proof.
  revert i s. induction n as [|n IH]; intros i s Hc.
  { simpl in Hc. injection Hc as <-. split; [done|]. split; [lia|]. eauto. }
  simpl in Hc. destruct (mems i) as [a|] eqn:Hi.
  2:{ unfold vsp1_dl_list_alloc, vsp1_dl_body_init in Hc.
      by destruct (decide (mode s = VSP1_DL_MODE_HEADER)). }
  destruct (list_alloc_Some a s) as (l0 & Ha & Hlay & Hdma).
  rewrite Ha in Hc. clear Ha.
  set (d0 := fresh (dom (dls s))) in *.
  match type of Hc with
  | (on_links ?f ?s1 ≫= _) = _ => destruct (on_links f s1) as [s2| |] eqn:E2
  end; [|done..].
  rewrite bind_Done in Hc.
  unfold on_links in E2.
  match type of E2 with
  | (?r ≫= _) = _ => destruct r as [m2| |]; [|done..]
  end.
  simpl in E2. injection E2 as <-.
  apply IH in Hc as (Hm & Hsz & Hall). simpl in Hm, Hsz, Hall.
  assert (dls s !! d0 = None) as Hd0 by apply not_elem_of_dom, is_fresh.
  split; [done|]. split.
  { rewrite Hsz, map_size_insert_None by done. lia. }
  intros d l Hl. destruct (Hall d l Hl) as [Hold|(Hlay' & j & Hj & Hmj)].
  - apply lookup_insert_Some in Hold as [[<- <-]|[_ Hold]]; [|by left].
    right. split; [done|]. exists i. split; [lia|]. by rewrite Hdma.
  - right. split; [done|]. exists j. split; [lia|done].
Qed.

(** X16: every display list of a manager that vsp1_dlm_create() returns
    is as vsp1_dl_list_alloc() lays it out, at the address that one of
    the [prealloc] allocations returned, and there are [prealloc] of
    them.  In header mode the header of each is right after the 256
    entries of its primary body, within the memory allocated, and has
    the address of that body in its first descriptor. *)
Theorem created_lists_layout vsp1 idx n dlm_mem mems s :
  vsp1_dlm_create vsp1 idx n dlm_mem mems = Done (Some s) →
  size (dls s) = n ∧
  ∀ d l, dls s !! d = Some l →
    list_layout (mode s) l ∧
    ∃ j, j < n ∧ mems j = Some (dlb_dma (body0 l)).
Proof.
  unfold vsp1_dlm_create. intros Hc. destruct dlm_mem; [|done].
  apply create_prealloc_layout in Hc as (Hm & Hsz & Hall).
  simpl in Hm, Hsz, Hall. split; [by rewrite Hsz, map_size_empty|].
  intros d l Hl. destruct (Hall d l Hl) as [Hold|(Hlay & j & Hj & Hmj)].
  - by rewrite lookup_empty in Hold.
  - rewrite Hm. split; [done|]. exists j. split; [lia|done].
Qed.

(** ** What fill_header leaves as it was *)


(** ** A commit and the frame ends that follow *)

Section completion.
Context `{vsp1_regs}.

(** X18: in continuous mode, a display list committed while nothing is
    queued or pending is programmed and queued.  Once the hardware has
    taken it, whatever it did to the registers, the next frame end makes
    it the active list and reports the completion, with the internal
    flag when the commit had it; the display list that was active is
    back in the free pool.  The frame end after that, with no new
    commit, reports nothing and changes nothing: a completion is
    reported once, and the active list stays active until another one
    takes its place. *)
Theorem completion_is_reported_once fuel s v dl i l C Ca regs :
  wf s v → singleshot s = false →
  queued s = None → pending s = None →
  committable s v dl C → dls s !! dl = Some l →
  slot_chain s (active s) Ca →
  Forall (λ d, d ∉ free_pool v) (slot_lists (active s) Ca) →
  dl ∉ slot_lists (active s) Ca →
  HEADER_LISTS ≤ fuel → length C < fuel → length Ca + 2 ≤ fuel →
  ∃ s1, vsp1_dl_list_commit fuel dl i s = Done s1 ∧
    queued s1 = Some dl ∧ mmio s1 = hw_program s l ∧
    (vsp1_dl_list_hw_update_pending (set_mmio regs s1) = false →
     ∃ s2,
       vsp1_dlm_irq_frame_end fuel (set_mmio regs s1) =
         Done (Z.lor (if i then VSP1_DL_FRAME_END_INTERNAL else 0%Z)
                     VSP1_DL_FRAME_END_COMPLETED, s2) ∧
       active s2 = Some dl ∧ queued s2 = None ∧ pending s2 = None ∧
       slot_internal s2 (Some dl) = false ∧
       pool_is s2 (free_pool v ++ slot_lists (active s) Ca) ∧
       vsp1_dlm_irq_frame_end fuel s2 = Done (0%Z, s2)).
Proof.
  intros Hwf Hss Hqu Hpe Hc Hl Ha Hfree Hdl Hfuel8 HfuelC Hfuel.
  rewrite commit_unfold.
  destruct (commit_prepare_spec fuel s v dl C i Hwf Hc Hfuel8 HfuelC)
    as (s0 & -> & Hocw & Hint & _).
  rewrite bind_Done.
  pose proof (only_commit_writes_wf _ _ _ Hocw Hwf) as Hwf0.
  destruct (only_commit_writes_lookup _ _ _ _ Hocw Hl) as (l0 & Hl0 & Hwbc).
  pose proof (only_commit_writes_slot_chain _ _ _ _ Hocw Ha) as Ha0.
  pose proof Hocw as [Hoi Hom Hos Hoa Hoq Hop Hol Hob Homm Hog Howr Hod].
  rewrite Hos, Hss. unfold vsp1_dl_list_commit_continuous.
  assert (vsp1_dl_list_hw_update_pending s0 = false) as ->.
  { unfold vsp1_dl_list_hw_update_pending. by rewrite Hoq, Hqu. }
  rewrite (hw_enqueue_Done _ _ _ Hl0), bind_Done.
  change (queued (set_mmio (hw_program s0 l0) s0)) with (queued s0).
  rewrite Hoq, Hqu, put_None, bind_Done.
  eexists. split; [reflexivity|]. simpl. split; [done|].
  split; [destruct Hwbc; by apply hw_program_ext|].
  intros Hup.
  set (s1 := set_mmio regs (set_queued (Some dl) (set_mmio _ s0))) in *.
  assert (∀ s', singleshot s' = false → queued s' = None →
            pending s' = None →
            vsp1_dlm_irq_frame_end fuel s' = Done (0%Z, s')) as Hidle.
  { intros s' Hs' Hq' Hp'.
    unfold vsp1_dlm_irq_frame_end, vsp1_dl_list_hw_update_pending,
      frame_end_queued, frame_end_pending.
    rewrite Hs', Hq'. simpl. by rewrite Hp'. }
  assert (dls s1 !! dl = Some l0) as Hl1 by done.
  assert (internal l0 = i) as Hi.
  { simpl in Hint. by rewrite Hl0 in Hint. }
  assert (wf s1 v) as Hwf1 by (by apply (wf_ext s0)).
  set (s1' := set_dls (<[dl := set_internal false l0]> (dls s1)) s1).
  assert (only_commit_writes s1 s1') as Hocw1.
  { apply (only_commit_writes_with_dl s1 dl l0); [done| |by eapply wf_headers].
    apply written_by_commit_internal. by eapply wf_headers. }
  destruct (put_spec fuel s1' v (active s) Ca)
    as (s2 & E2 & Hwf2 & Hro2 & Hdls2).
  { by eapply only_commit_writes_wf. }
  { apply (only_commit_writes_slot_chain s1); [done|].
    by apply (slot_chain_ext s0). }
  { by apply (proj1 (Forall_forall _ _) Hfree). }
  { done. }
  pose proof Hro2 as [Hri Hrm Hrs Hra Hrq Hrp Hrb Hrmm Hrw Hrc].
  simpl in Hri, Hrm, Hrs, Hra, Hrq, Hrp, Hrb, Hrmm, Hrw.
  exists (set_queued None (set_active (Some dl) s2)).
  split.
  { unfold vsp1_dlm_irq_frame_end.
    change (singleshot s1) with (singleshot s0). rewrite Hos, Hss, Hup.
    unfold frame_end_queued. change (queued s1) with (Some dl). cbv iota.
    rewrite (get_dl_Done _ _ _ Hl1), bind_Done, Hi.
    rewrite (modify_dl_Done _ _ _ _ Hl1), bind_Done. fold s1'.
    change (active s1') with (active s0). rewrite Hoa, E2, !bind_Done.
    unfold frame_end_pending. simpl.
    rewrite Hrp, Hop, Hpe, bind_Done, Hrq. by destruct i. }
  split; [done|]. split; [done|].
  split; [simpl; by rewrite Hrp, Hop|].
  split.
  { simpl. rewrite Hdls2, recycle_all_lookup_notin by done.
    unfold s1'. simpl. by rewrite lookup_insert_eq. }
  split; [apply wf_release_pool; by apply (wf_ext s2)|].
  apply Hidle; simpl; [by rewrite Hrs, Hos|done|by rewrite Hrp, Hop].
Qed.
End completion.

(** ** What no call changes *)

Tactic Notation "inv_bind" hyp(H) "as" simple_intropattern(x)
    simple_intropattern(E) :=
  apply bind_Done_inv in H as (x & E & H).

Lemma same_place_refl l : same_place l l.
Proof.
  unfold same_place. do 3 (split; [done|]).
  destruct (header l); by constructor.
Qed.

Lemma same_place_trans l1 l2 l3 :
  same_place l1 l2 → same_place l2 l3 → same_place l1 l3.
Proof.
  intros (? & ? & ? & H12) (? & ? & ? & H23).
  unfold same_place. split; [congruence|]. split; [congruence|].
  split; [congruence|].
  destruct H12 as [h1 h2 [? ?]|]; inversion H23 as [? h3 [? ?]|]; subst;
    constructor. split; congruence.
Qed.

Section kept_facts.
Context {W : Z → Prop}.

Lemma kept_refl s : kept W s s.
Proof.
  constructor; try done. intros d.
  destruct (dls s !! d); constructor. apply same_place_refl.
Qed.

Lemma kept_trans s1 s2 s3 : kept W s1 s2 → kept W s2 s3 → kept W s1 s3.
Proof.
  intros [? ? ? H12 M12] [? ? ? H23 M23]. constructor; try congruence.
  - intros d. specialize (H12 d). specialize (H23 d).
    destruct H12; inversion H23; subst; constructor.
    by eapply same_place_trans.
  - intros r Hr. by rewrite M23, M12.
Qed.

(** A change that leaves the configuration and the display lists as
    they are. *)
Lemma kept_config s s' :
  index s' = index s → mode s' = mode s → singleshot s' = singleshot s →
  dls s' = dls s → (∀ r, ¬ W r → mmio s' !! r = mmio s !! r) →
  kept W s s'.
Proof.
  intros ? ? ? Hdls Hm. constructor; try done.
  intros d. rewrite Hdls.
  destruct (dls s !! d); constructor. apply same_place_refl.
Qed.

Lemma kept_dls s s' :
  index s' = index s → mode s' = mode s → singleshot s' = singleshot s →
  dls s' = dls s → mmio s' = mmio s → kept W s s'.
Proof. intros ? ? ? ? Hm. apply kept_config; try done. by rewrite Hm. Qed.

Lemma on_links_kept f s s' : on_links f s = Done s' → kept W s s'.
Proof.
  unfold on_links. intros Hc. inv_bind Hc as m _. injection Hc as <-.
  by apply kept_dls.
Qed.

Lemma modify_dl_kept d f s s' :
  (∀ l, same_place l (f l)) →
  modify_dl d f s = Done s' → kept W s s'.
Proof.
  intros Hf. unfold modify_dl, get_dl. intros Hc. inv_bind Hc as l E.
  injection Hc as <-.
  destruct (dls s !! d) as [l'|] eqn:Hl; [|done]. injection E as <-.
  constructor; try done. intros d'. simpl.
  destruct (decide (d' = d)) as [->|Hne].
  - rewrite lookup_insert_eq, Hl. by constructor.
  - rewrite lookup_insert_ne by done.
    destruct (dls s !! d'); constructor. apply same_place_refl.
Qed.

Lemma modify_dlb_kept b f s s' :
  modify_dlb b f s = Done s' → kept W s s'.
Proof.
  unfold modify_dlb. intros Hc. inv_bind Hc as ? _. injection Hc as <-.
  by apply kept_dls.
Qed.

(** The changes of a display list that keep its place. *)
Lemma same_place_fields l l' :
  dma l' = dma l → header l' = header l →
  dlb_dma (body0 l') = dlb_dma (body0 l) →
  dlb_size (body0 l') = dlb_size (body0 l) →
  same_place l l'.
Proof.
  intros ? Hh ? ?. unfold same_place. do 3 (split; [done|]).
  rewrite Hh. destruct (header l); by constructor.
Qed.

(** A loop keeps what each turn keeps. *)
Lemma list_for_each_from_kept {St}
    (st_links : St → gmap lh_addr (list_head lh_addr))
    (R : St → St → Prop) head body fuel a s s' :
  (∀ s, R s s) → (∀ s1 s2 s3, R s1 s2 → R s2 s3 → R s1 s3) →
  (∀ a s s', body a s = Done s' → R s s') →
  list_for_each_from st_links head body fuel a s = Done s' → R s s'.
Proof.
  intros Hrefl Htrans Hbody. revert a s.
  induction fuel as [|fuel IH]; intros a s Hc; [done|]. simpl in Hc.
  destruct (decide (a = head)); [by injection Hc as <-|].
  inv_bind Hc as s1 E1. inv_bind Hc as p _. inv_bind Hc as a' _.
  eapply Htrans; [by eapply Hbody|by eapply IH].
Qed.

Lemma list_for_each_entry_kept {St}
    (st_links : St → gmap lh_addr (list_head lh_addr))
    (R : St → St → Prop) head body fuel s s' :
  (∀ s, R s s) → (∀ s1 s2 s3, R s1 s2 → R s2 s3 → R s1 s3) →
  (∀ a s s', body a s = Done s' → R s s') →
  list_for_each_entry st_links head body fuel s = Done s' → R s s'.
Proof.
  intros Hrefl Htrans Hbody. unfold list_for_each_entry. intros Hc.
  inv_bind Hc as n _. inv_bind Hc as a _.
  by eapply list_for_each_from_kept.
Qed.

Lemma put_self_kept d s s' : put_self d s = Done s' → kept W s s'.
Proof.
  unfold put_self. intros Hc.
  inv_bind Hc as s1 E1. inv_bind Hc as e _. inv_bind Hc as s2 E2.
  inv_bind Hc as s3 E3.
  eapply kept_trans;
    [eapply modify_dl_kept; [|exact E1]; intros l; by apply same_place_fields|].
  eapply kept_trans; [|eapply kept_trans;
    [eapply modify_dl_kept; [|exact E3]; intros l; by apply same_place_fields
    |by eapply on_links_kept]].
  destruct e; [by injection E2 as <-; apply kept_refl|].
  inv_bind E2 as s2' E2'. injection E2 as <-.
  eapply kept_trans; [by eapply on_links_kept|].
  by apply kept_dls.
Qed.

Lemma put_kept fuel dl s s' :
  __vsp1_dl_list_put fuel dl s = Done s' → kept W s s'.
Proof.
  revert dl s s'. induction fuel as [|fuel IH]; intros dl s s' Hc.
  - destruct dl; [done|]. injection Hc as <-. apply kept_refl.
  - destruct dl as [d|]; [|injection Hc as <-; apply kept_refl].
    simpl in Hc. inv_bind Hc as l _. inv_bind Hc as s1 E1.
    eapply kept_trans; [|by eapply put_self_kept].
    destruct (has_chain l); [|by injection E1 as <-; apply kept_refl].
    eapply (list_for_each_entry_kept links (kept W)); [..|exact E1].
    + apply kept_refl.
    + apply kept_trans.
    + intros a t t' Hb. inv_bind Hb as c _. by eapply IH.
Qed.

Lemma list_put_kept fuel dl s s' :
  vsp1_dl_list_put fuel dl s = Done s' → kept W s s'.
Proof.
  destruct dl; simpl; [apply put_kept|].
  intros [= <-]. apply kept_refl.
Qed.

Lemma get_kept o s s' :
  vsp1_dl_list_get s = Done (o, s') → kept W s s'.
Proof.
  unfold vsp1_dl_list_get. intros Hc. inv_bind Hc as e _.
  destruct e; [by injection Hc as <- <-; apply kept_refl|].
  inv_bind Hc as n _. inv_bind Hc as a _. inv_bind Hc as d _.
  inv_bind Hc as s1 E1. inv_bind Hc as s2 E2. injection Hc as <- <-.
  eapply kept_trans; by eapply on_links_kept.
Qed.

Lemma write_kept dl reg data s s' :
  vsp1_dl_list_write dl reg data s = Done s' → kept W s s'.
Proof. apply modify_dl_kept. intros l. by apply same_place_fields. Qed.

Lemma add_fragment_kept dl b r s s' :
  vsp1_dl_list_add_fragment dl b s = Done (r, s') → kept W s s'.
Proof.
  unfold vsp1_dl_list_add_fragment. intros Hc. inv_bind Hc as l _.
  destruct (decide _); [by injection Hc as <- <-; apply kept_refl|].
  inv_bind Hc as s1 E1. injection Hc as <- <-. by eapply on_links_kept.
Qed.

Lemma add_chain_kept head dl r s s' :
  vsp1_dl_list_add_chain head dl s = Done (r, s') → kept W s s'.
Proof.
  unfold vsp1_dl_list_add_chain. intros Hc. inv_bind Hc as l _.
  destruct (decide _); [by injection Hc as <- <-; apply kept_refl|].
  inv_bind Hc as s1 E1. inv_bind Hc as s2 E2. injection Hc as <- <-.
  eapply kept_trans; [|by eapply on_links_kept].
  eapply modify_dl_kept; [|exact E1]. intros l'. by apply same_place_fields.
Qed.

(** A store to a descriptor other than the first one, or that keeps
    the address in the descriptor. *)
Lemma header_list_store_kept d hdr f s s' :
  (hdr = 0 → ∀ e, addr (f e) = addr e) →
  header_list_store d hdr f s = Done s' → kept W s s'.
Proof.
  intros Hf. unfold header_list_store, get_dl. intros Hc.
  inv_bind Hc as l El. inv_bind Hc as h Eh.
  destruct (lists h !! hdr) as [e|] eqn:He; [|done].
  destruct (dls s !! d) as [l'|] eqn:Hl; [|done]. injection El as <-.
  destruct (header l') as [h'|] eqn:Hh; [|done]. injection Eh as <-.
  unfold modify_dl, get_dl in Hc. rewrite Hl in Hc. injection Hc as <-.
  constructor; try done. intros d'. simpl.
  destruct (decide (d' = d)) as [->|Hne].
  - rewrite lookup_insert_eq, Hl. constructor. unfold same_place. simpl.
    do 3 (split; [done|]). rewrite Hh. constructor. simpl.
    split; [by rewrite length_insert|].
    destruct hdr as [|hdr].
    + rewrite list_lookup_insert_eq by (by eapply lookup_lt_Some).
      rewrite He. simpl. by rewrite Hf.
    + by rewrite list_lookup_insert_ne.
  - rewrite lookup_insert_ne by done.
    destruct (dls s !! d'); constructor. apply same_place_refl.
Qed.

(** A store to the members of the header outside the descriptors. *)
Lemma header_store_kept d f s s' :
  (∀ h, lists (f h) = lists h) →
  header_store d f s = Done s' → kept W s s'.
Proof.
  intros Hf. unfold header_store, get_dl. intros Hc.
  inv_bind Hc as l El. inv_bind Hc as h Eh.
  destruct (dls s !! d) as [l'|] eqn:Hl; [|done]. injection El as <-.
  destruct (header l') as [h'|] eqn:Hh; [|done]. injection Eh as <-.
  unfold modify_dl, get_dl in Hc. rewrite Hl in Hc. injection Hc as <-.
  constructor; try done. intros d'. simpl.
  destruct (decide (d' = d)) as [->|Hne].
  - rewrite lookup_insert_eq, Hl. constructor. unfold same_place. simpl.
    do 3 (split; [done|]). rewrite Hh. constructor. by rewrite Hf.
  - rewrite lookup_insert_ne by done.
    destruct (dls s !! d'); constructor. apply same_place_refl.
Qed.

Lemma fill_fragment_kept d a t t' :
  fill_fragment d a t = Done t' → kept W t.2 t'.2.
Proof.
  destruct t as [[n hdr] s]. unfold fill_fragment. intros Hc.
  inv_bind Hc as b _. inv_bind Hc as dlb _.
  inv_bind Hc as s1 E1. inv_bind Hc as s2 E2. injection Hc as <-. simpl.
  eapply kept_trans;
    [eapply header_list_store_kept; [|exact E1]; done
    |eapply header_list_store_kept; [|exact E2]; done].
Qed.

Lemma fill_header_kept fuel d is_last s s' :
  vsp1_dl_list_fill_header fuel d is_last s = Done s' → kept W s s'.
Proof.
  unfold vsp1_dl_list_fill_header. intros Hc.
  inv_bind Hc as l _. inv_bind Hc as s1 E1.
  inv_bind Hc as [[n hdr] s2] E2. inv_bind Hc as s3 E3.
  inv_bind Hc as e _.
  eapply kept_trans;
    [eapply header_list_store_kept; [|exact E1]; done|].
  eapply kept_trans.
  { apply (list_for_each_entry_kept fill_links
             (λ t t', kept W t.2 t'.2)) in E2; [exact E2|..].
    - intros t. apply kept_refl.
    - intros t1 t2 t3. apply kept_trans.
    - intros a t t'. apply fill_fragment_kept. }
  simpl.
  eapply kept_trans; [eapply header_store_kept; [|exact E3]; done|].
  destruct (negb e && negb is_last).
  - inv_bind Hc as ? _. inv_bind Hc as ? _. inv_bind Hc as ? _.
    inv_bind Hc as ? _. inv_bind Hc as s4 E4.
    eapply kept_trans;
      [eapply header_store_kept; [|exact E4]; done
      |eapply header_store_kept; [|exact Hc]; done].
  - destruct (negb (singleshot s3)).
    + inv_bind Hc as s4 E4.
      eapply kept_trans;
        [eapply header_store_kept; [|exact E4]; done
        |eapply header_store_kept; [|exact Hc]; done].
    + eapply header_store_kept; [|exact Hc]; done.
Qed.

Lemma commit_fill_headers_kept fuel dl s s' :
  commit_fill_headers fuel dl s = Done s' → kept W s s'.
Proof.
  unfold commit_fill_headers. intros Hc.
  inv_bind Hc as e _. inv_bind Hc as s1 E1.
  eapply kept_trans; [by eapply fill_header_kept|].
  eapply (list_for_each_entry_kept links (kept W)); [..|exact Hc].
  - apply kept_refl.
  - apply kept_trans.
  - intros a t t' Hb. inv_bind Hb as c _. inv_bind Hb as last _.
    by eapply fill_header_kept.
Qed.

Lemma fragment_free_kept b s s' :
  vsp1_dl_fragment_free b s = Done s' → kept W s s'.
Proof.
  destruct b as [b|]; simpl; intros Hc;
    [|by injection Hc as <-; apply kept_refl].
  inv_bind Hc as s1 E1. injection Hc as <-.
  eapply kept_trans; [by eapply modify_dlb_kept|].
  by apply kept_dls.
Qed.

Lemma fragments_free_kept fuel s s' :
  vsp1_dlm_fragments_free fuel s = Done s' → kept W s s'.
Proof.
  revert s. induction fuel as [|fuel IH]; intros s Hc; [done|].
  simpl in Hc. inv_bind Hc as e _.
  destruct e; [by injection Hc as <-; apply kept_refl|].
  inv_bind Hc as n _. inv_bind Hc as a _. inv_bind Hc as b _.
  inv_bind Hc as s1 E1. inv_bind Hc as s2 E2.
  eapply kept_trans; [by eapply on_links_kept|].
  eapply kept_trans; [|by eapply IH].
  apply (fragment_free_kept (Some b)). exact E2.
Qed.

Lemma kept_mono (W' : Z → Prop) s s' :
  (∀ r, W r → W' r) → kept W s s' → kept W' s s'.
Proof. intros HW [? ? ? ? Hm]. constructor; try done. naive_solver. Qed.
End kept_facts.

Section calls_facts.
Context `{vsp1_regs} `{vsp1_setup_regs}.

Lemma dl_registers_kept W s s' :
  kept W s s' → dl_registers s' = dl_registers s.
Proof. intros [Hi Hm _ _ _]. unfold dl_registers. by rewrite Hi, Hm. Qed.

Lemma hw_enqueue_kept dl s s' :
  vsp1_dl_list_hw_enqueue dl s = Done s' →
  kept (λ r, r ∈ dl_registers s) s s'.
Proof.
  unfold vsp1_dl_list_hw_enqueue, dl_registers. intros Hc.
  inv_bind Hc as l _.
  destruct (decide _); injection Hc as <-; apply kept_config; try done;
    intros r Hr; simpl.
  - rewrite !lookup_insert_ne; [done|..]; intros <-; apply Hr; set_solver.
  - rewrite lookup_insert_ne; [done|]. intros <-. apply Hr. set_solver.
Qed.

Lemma warn_pending_internal_kept W s s' :
  warn_pending_internal s = Done s' → kept W s s'.
Proof.
  unfold warn_pending_internal. intros Hc.
  destruct (pending s); [|by injection Hc as <-; apply kept_refl].
  inv_bind Hc as l _. injection Hc as <-.
  destruct (internal l); [by apply kept_dls|apply kept_refl].
Qed.

(** vsp1_dl_list_hw_enqueue() after steps that kept the
    configuration. *)
Lemma hw_enqueue_kept_from W s0 dl s s' :
  kept W s0 s → vsp1_dl_list_hw_enqueue dl s = Done s' →
  kept (λ r, r ∈ dl_registers s0) s s'.
Proof.
  intros Hk Hc. rewrite <- (dl_registers_kept _ _ _ Hk).
  by apply (hw_enqueue_kept dl).
Qed.

Lemma commit_kept fuel dl i s s' :
  vsp1_dl_list_commit fuel dl i s = Done s' →
  kept (λ r, r ∈ dl_registers s) s s'.
Proof.
  unfold vsp1_dl_list_commit. intros Hc.
  inv_bind Hc as s1 E1. inv_bind Hc as s2 E2.
  assert (∀ W, kept W s s2) as Hk.
  { intros W. eapply kept_trans.
    { destruct (decide _); [by eapply commit_fill_headers_kept|].
      injection E1 as <-. apply kept_refl. }
    eapply modify_dl_kept; [|exact E2]. intros l.
    by apply same_place_fields. }
  eapply kept_trans; [apply Hk|].
  destruct (singleshot s2).
  - unfold vsp1_dl_list_commit_singleshot in Hc. inv_bind Hc as s3 E3.
    injection Hc as <-.
    eapply kept_trans; [exact (hw_enqueue_kept_from (λ _, False) s _ _ _ (Hk _) E3)|].
    by apply kept_dls.
  - unfold vsp1_dl_list_commit_continuous in Hc.
    destruct (vsp1_dl_list_hw_update_pending s2).
    + inv_bind Hc as s3 E3. inv_bind Hc as s4 E4. injection Hc as <-.
      eapply kept_trans; [by eapply warn_pending_internal_kept|].
      eapply kept_trans; [by eapply put_kept|].
      by apply kept_dls.
    + inv_bind Hc as s3 E3. inv_bind Hc as s4 E4. injection Hc as <-.
      eapply kept_trans; [exact (hw_enqueue_kept_from (λ _, False) s _ _ _ (Hk _) E3)|].
      eapply kept_trans; [by eapply put_kept|].
      by apply kept_dls.
Qed.

Lemma irq_frame_end_kept fuel fl s s' :
  vsp1_dlm_irq_frame_end fuel s = Done (fl, s') →
  kept (λ r, r ∈ dl_registers s) s s'.
Proof.
  unfold vsp1_dlm_irq_frame_end. intros Hc.
  destruct (singleshot s).
  { inv_bind Hc as s1 E1. injection Hc as <- <-.
    eapply kept_trans; [by eapply put_kept|].
    by apply kept_dls. }
  destruct (vsp1_dl_list_hw_update_pending s);
    [by injection Hc as <- <-; apply kept_refl|].
  inv_bind Hc as [fl1 s1] E1. inv_bind Hc as s2 E2.
  injection Hc as <- <-.
  assert (∀ W, kept W s s1) as Hk.
  { intros W. unfold frame_end_queued in E1.
    destruct (queued s);
      [|by injection E1 as <- <-; apply kept_refl].
    inv_bind E1 as l _. inv_bind E1 as s3 E3. inv_bind E1 as s4 E4.
    injection E1 as <- <-.
    eapply kept_trans;
      [eapply modify_dl_kept; [|exact E3]; intros l';
       by apply same_place_fields|].
    eapply kept_trans; [by eapply put_kept|].
    by apply kept_dls. }
  eapply kept_trans; [apply Hk|].
  unfold frame_end_pending in E2.
  destruct (pending s1);
    [|by injection E2 as <-; apply kept_refl].
  inv_bind E2 as s3 E3. injection E2 as <-.
  eapply kept_trans; [exact (hw_enqueue_kept_from (λ _, False) s _ _ _ (Hk _) E3)|].
  by apply kept_dls.
Qed.

Lemma reset_kept W fuel s s' :
  vsp1_dlm_reset fuel s = Done s' → kept W s s'.
Proof.
  unfold vsp1_dlm_reset. intros Hc.
  inv_bind Hc as s1 E1. inv_bind Hc as s2 E2. inv_bind Hc as s3 E3.
  injection Hc as <-.
  eapply kept_trans; [by eapply put_kept|].
  eapply kept_trans; [by eapply put_kept|].
  eapply kept_trans; [by eapply put_kept|].
  by apply kept_dls.
Qed.

Lemma call_kept fuel c s s' :
  call fuel c s = Done s' → kept (λ r, may_write s r c = true) s s'.
Proof.
  destruct c; simpl; intros Hc.
  - injection Hc as <-. apply kept_config; try done. intros r Hr.
    unfold vsp1_dlm_setup, vsp1_write. simpl.
    rewrite !lookup_insert_ne; [done|..]; intros <-; apply Hr;
      apply bool_decide_eq_true; set_solver.
  - inv_bind Hc as [o s1] E1. injection Hc as <-. by eapply get_kept.
  - by eapply list_put_kept.
  - by eapply write_kept.
  - injection Hc as <-. unfold vsp1_dl_fragment_alloc.
    destruct (vsp1_dl_body_init _ _ _); [by apply kept_dls|].
    apply kept_refl.
  - by eapply modify_dlb_kept.
  - by eapply fragment_free_kept.
  - inv_bind Hc as [r s1] E1. injection Hc as <-.
    by eapply add_fragment_kept.
  - inv_bind Hc as [r s1] E1. injection Hc as <-. by eapply add_chain_kept.
  - eapply kept_mono; [|by eapply commit_kept].
    intros r Hr. by apply bool_decide_eq_true.
  - inv_bind Hc as [fl s1] E1. injection Hc as <-.
    eapply kept_mono; [|by eapply irq_frame_end_kept].
    intros r Hr. by apply bool_decide_eq_true.
  - by eapply reset_kept.
  - by eapply fragments_free_kept.
  - injection Hc as <-. apply kept_config; try done.
Qed.

Lemma calls_kept fuel cs s s' :
  calls fuel cs s = Done s' →
  kept (λ r, Exists (λ c, may_write s r c = true) cs) s s'.
Proof.
  revert s. induction cs as [|c cs IH]; intros s Hc; simpl in Hc.
  - injection Hc as <-. apply kept_refl.
  - inv_bind Hc as s1 E1. apply call_kept in E1 as Hk. apply IH in Hc.
    eapply kept_trans.
    + eapply kept_mono; [|exact Hk]. intros r Hr. by left.
    + eapply kept_mono; [|exact Hc]. intros r Hr. right.
      eapply Exists_impl; [exact Hr|]. intros c' Hc'.
      rewrite <- Hc'. unfold may_write.
      by rewrite (dl_registers_kept _ _ _ Hk).
Qed.

Lemma placed_same_place m l l' : same_place l l' → placed m l → placed m l'.
Proof.
  intros (Hd & Hb & Hs & Hh). unfold placed. destruct m.
  - intros (Hsz & Hdma & Hhd).
    split; [congruence|]. split; [congruence|].
    destruct Hh as [h h' [Hlen' Ha']|]; [|done].
    destruct Hhd as [Hlen Ha]. split; [congruence|]. by rewrite Ha', Hb.
  - intros (Hsz & Hhl). split; [congruence|].
    rewrite Hhl in Hh. by inversion Hh.
Qed.

(** X19: whatever the calls that are made to a manager between its
    creation and its destruction, and whatever the hardware does, as
    far as the calls return without a fault and every write stays
    within the capacity of its body: the index, the mode and the
    single-shot flag of the manager do not change, no display list is
    allocated or released,
    and every display list keeps the addresses and the size of its
    memory; a display list that is laid out as vsp1_dl_list_alloc()
    lays it out stays so, with its header right after the entries of
    its primary body and the address of that body in the first
    descriptor of the header. *)
Theorem calls_keep_lists_in_place fuel cs s s' :
  calls fuel cs s = Done s' → calls_fit fuel cs s = true →
  index s' = index s ∧ mode s' = mode s ∧ singleshot s' = singleshot s ∧
  dom (dls s') = dom (dls s) ∧
  (∀ d l l', dls s !! d = Some l → dls s' !! d = Some l' →
     same_place l l') ∧
  ((∀ d l, dls s !! d = Some l → placed (mode s) l) →
   ∀ d l', dls s' !! d = Some l' → placed (mode s') l').
Proof.
  intros Hc _. apply calls_kept in Hc as [Hi Hm Hs Hd _].
  do 3 (split; [done|]).
  assert (∀ d l l', dls s !! d = Some l → dls s' !! d = Some l' →
            same_place l l') as Hsame.
  { intros d l l' Hl Hl'. specialize (Hd d). rewrite Hl, Hl' in Hd.
    by inversion Hd. }
  split; [|split; [done|]].
  - apply set_eq. intros d. rewrite !elem_of_dom. specialize (Hd d).
    split; intros [l Hl]; rewrite Hl in Hd; inversion Hd; by eexists.
  - intros Hp d l' Hl'. specialize (Hd d). rewrite Hl' in Hd.
    inversion Hd as [l ? Hsp Hl|]; subst. rewrite Hm.
    eapply placed_same_place; [done|]. by eapply Hp.
Qed.

End calls_facts.

(** * Examples

    Each theorem above, at one of the example states. *)

Ltac wf_by_evaluation := apply wf_by_computation; vm_compute; reflexivity.

(** List 4 is committed to the busy manager: list 3, which was pending
    with the internal flag, goes back to the pool with a warning, and
    list 4 is pending. *)
Lemma commit_continuous_cases_witness :
  ∃ s', vsp1_dl_list_commit (H := example_regs) 10 4 false busy = Done s' ∧
    active s' = Some 0 ∧ queued s' = Some 2 ∧ pending s' = Some 4 ∧
    warnings s' = 1 ∧ mmio s' = mmio busy ∧
    wf s' (release_view [3] busy_view).
Proof.
  destruct (commit_continuous_cases (H := example_regs)
              10 busy busy_view 4 false [] [])
    as (s' & E & Ha & Hrest).
  - wf_by_evaluation.
  - reflexivity.
  - by_computation.
  - by_computation.
  - by_computation.
  - vm_compute. lia.
  - simpl. lia.
  - simpl. lia.
  - assert (vsp1_dl_list_hw_update_pending (H := example_regs) busy = true)
      as Hup by (vm_compute; reflexivity).
    rewrite Hup in Hrest. destruct Hrest as (Hwf & _ & Hp & Hq & Hm & Hw).
    exists s'. split; [exact E|]. split; [exact Ha|].
    split; [exact Hq|]. split; [exact Hp|]. split; [exact Hw|].
    split; [exact Hm|exact Hwf].
Defined.

(** A frame end at the manager whose hardware accepted list 2: the
    completion is reported with the internal flag, list 0 and its
    chained list 1 go back to the pool, list 2 is active, list 3 is
    programmed and queued. *)
Lemma irq_frame_end_continuous_witness :
  ∃ s', vsp1_dlm_irq_frame_end (H := example_regs) 10 accepted
        = Done (3%Z, s') ∧
    active s' = Some 2 ∧ queued s' = Some 3 ∧ pending s' = None ∧
    slot_internal s' (Some 2) = false ∧
    wf s' (release_view [1; 0] busy_view).
Proof.
  destruct (irq_frame_end_continuous (H := example_regs)
              10 accepted busy_view [1])
    as (fl & s' & E & Hrest).
  - wf_by_evaluation.
  - reflexivity.
  - by_computation.
  - by_computation.
  - by_computation.
  - by_computation.
  - simpl. lia.
  - assert (vsp1_dl_list_hw_update_pending (H := example_regs) accepted
            = false) as Hup by (vm_compute; reflexivity).
    rewrite Hup in Hrest.
    change (queued accepted) with (Some 2) in Hrest.
    change (pending accepted) with (Some 3) in Hrest.
    change (active accepted) with (Some 0) in Hrest.
    destruct Hrest as ((Hfl & Hi & Hwf & _ & Ha) & Hq & Hp & _ & _).
    exists s'. rewrite E, Hfl. split; [reflexivity|].
    split; [exact Ha|]. split; [exact Hq|]. split; [exact Hp|].
    split; [exact Hi|exact Hwf].
Defined.

(** The headers of list 0 and of list 1, chained to it, in continuous
    mode: list 0 links to list 1 with the auto-start flag, list 1 to
    itself with both flags. *)
Lemma commit_links_chain_witness :
  ∃ s', vsp1_dl_list_commit (H := example_regs) 10 0 false ready = Done s' ∧
    link_at s' 0 = Some (dma (list_at ready 1), 1%Z) ∧
    link_at s' 1 = Some (dma (list_at ready 1), 3%Z).
Proof.
  destruct (commit_links_chain (H := example_regs) 10 ready prepared_view
              0 false [1] [])
    as (_ & _ & s' & E & Hall).
  - wf_by_evaluation.
  - reflexivity.
  - by_computation.
  - by_computation.
  - reflexivity.
  - by_computation.
  - vm_compute. lia.
  - simpl. lia.
  - simpl. lia.
  - exists s'. split; [exact E|]. split.
    + destruct (Hall 0 0 (list_at ready 0)
                  (header_at ready 0))
        as (l' & h' & Hl' & Hh & _ & Hn & Hf);
        [reflexivity|vm_compute; reflexivity|vm_compute; reflexivity|].
      unfold link_at. rewrite Hl', Hh, Hn, Hf. vm_compute. reflexivity.
    + destruct (Hall 1 1 (list_at ready 1)
                  (header_at ready 1))
        as (l' & h' & Hl' & Hh & _ & Hn & Hf);
        [reflexivity|vm_compute; reflexivity|vm_compute; reflexivity|].
      unfold link_at. rewrite Hl', Hh, Hn, Hf. vm_compute. reflexivity.
Defined.

(** The descriptors of list 0: three entries in the primary body, two in
    its fragment at device address 0x100000. *)
Lemma fill_header_descriptors_witness :
  ∃ s' l' h',
    vsp1_dl_list_fill_header 10 0 false ready = Done s' ∧
    dls s' !! 0 = Some l' ∧ header l' = Some h' ∧
    num_lists h' = 1%Z ∧
    (num_bytes <$> lists h' !! 0) = Some 24%Z ∧
    lists h' !! 1 = Some (HeaderList 16 1048576).
Proof.
  destruct (fill_header_descriptors 10 ready prepared_view 0
              (list_at ready 0) (header_at ready 0)
              false 1 (list_at ready 1))
    as (s' & l' & h' & E & Hl & Hh & Hn & H0 & _ & Hfrag).
  - wf_by_evaluation.
  - vm_compute. reflexivity.
  - vm_compute. reflexivity.
  - vm_compute. lia.
  - vm_compute. lia.
  - vm_compute. reflexivity.
  - vm_compute. reflexivity.
  - by_computation.
  - exists s', l', h'. split; [exact E|]. split; [exact Hl|].
    split; [exact Hh|]. split; [exact Hn|]. split; [exact H0|].
    apply (Hfrag 0 0 (Body (dlb_entries (default (Body ∅ 0 0 0)
                                          (dlbs ready !! 0)))
                           1048576 128 2)); vm_compute; reflexivity.
Defined.

(** The release of list 0 and of its chained list 1. *)
Lemma put_null_or_taken_witness :
  vsp1_dl_list_put 5 None ready = Done ready ∧
  ∃ s', vsp1_dl_list_put 5 (Some 0) ready = Done s' ∧
    pool_is s' [3; 4; 1; 0].
Proof.
  destruct (put_null_or_taken 5 ready prepared_view 0 [1])
    as (Hnull & _ & s' & E & Hwf & Hpool).
  - wf_by_evaluation.
  - by_computation.
  - by_computation.
  - simpl. lia.
  - split; [exact Hnull|]. exists s'. split; [exact E|].
    pose proof (wf_pool _ _ Hwf) as Hp. rewrite Hpool in Hp. exact Hp.
Defined.

(** A frame end at the single-shot manager. *)
Lemma singleshot_commit_and_frame_end_witness :
  active shot = Some 0 ∧
  ∃ s', vsp1_dlm_irq_frame_end (H := example_regs) 10 shot = Done (1%Z, s') ∧
    active s' = None ∧ wf s' (release_view [1; 0] prepared_view).
Proof.
  destruct (singleshot_commit_and_frame_end (H := example_regs)
              10 shot prepared_view) as [_ Hirq].
  - wf_by_evaluation.
  - reflexivity.
  - vm_compute. lia.
  - split; [reflexivity|].
    destruct (Hirq [1]) as (s' & E & Ha & _ & _ & _ & Hwf & _).
    + by_computation.
    + by_computation.
    + simpl. lia.
    + exists s'. split; [exact E|]. split; [exact Ha|exact Hwf].
Defined.

(** The pool of the prepared manager, and the release of list 0. *)
Lemma pool_lists_are_clean_witness :
  pool_clean ready prepared_view ∧
  ∃ s', vsp1_dl_list_put 5 (Some 0) ready = Done s' ∧
    pool_clean s' (release_view [1; 0] prepared_view) ∧
    gc_fragments (release_view [1; 0] prepared_view) = [0].
Proof.
  destruct (pool_lists_are_clean 5 ready prepared_view 0 [1])
    as ((s' & E & _ & Hclean & _ & _ & _) & _ & _).
  - wf_by_evaluation.
  - by_computation.
  - by_computation.
  - by_computation.
  - simpl. lia.
  - split; [by_computation|]. exists s'. split; [exact E|].
    split; [exact Hclean|reflexivity].
Defined.

(** A fragment and a chained list are refused by the headerless
    manager. *)
Lemma fragments_and_chains_need_header_witness :
  vsp1_dl_list_add_fragment 0 7 headerless = Done ((-22)%Z, headerless) ∧
  vsp1_dl_list_add_chain 0 1 headerless = Done ((-22)%Z, headerless).
Proof.
  destruct (fragments_and_chains_need_header headerless
              (View [1] [] (λ _, [])) 0 (list_at headerless 0))
    as [Hless _].
  - wf_by_evaluation.
  - vm_compute. reflexivity.
  - destruct Hless as [Hf Hc]; [discriminate|].
    split; [exact (Hf 7)|exact (Hc 1)].
Defined.

(** The first commit of the prepared manager: nothing is queued. *)
Lemma commit_without_queued_witness :
  vsp1_dl_list_hw_update_pending (H := example_regs) ready = false ∧
  ∃ s', vsp1_dl_list_commit (H := example_regs) 10 0 false ready
        = Done s' ∧
    queued s' = Some 0 ∧ pending s' = None.
Proof.
  destruct (commit_without_queued (H := example_regs) ready)
    as (Hup & _ & Hcommit).
  - reflexivity.
  - split; [exact Hup|].
    destruct (Hcommit 10 prepared_view 0 false [1] (list_at ready 0))
      as (s' & E & Hq & Hp & _).
    + wf_by_evaluation.
    + reflexivity.
    + by_computation.
    + vm_compute. reflexivity.
    + vm_compute. lia.
    + simpl. lia.
    + exists s'. split; [exact E|]. split; [exact Hq|exact Hp].
Defined.

(** The header of list 0, with its one fragment, keeps its eight
    slots. *)
Lemma fill_header_within_bounds_witness :
  ∃ s' l' h',
    vsp1_dl_list_fill_header 10 0 true ready = Done s' ∧
    dls s' !! 0 = Some l' ∧ header l' = Some h' ∧
    length (lists h') = 8.
Proof.
  destruct (fill_header_within_bounds 10 ready prepared_view 0
              (list_at ready 0) (header_at ready 0)
              true 1 (list_at ready 1))
    as (_ & (s' & l' & h' & E & Hl & Hh & Hlen & _) & _).
  - wf_by_evaluation.
  - vm_compute. reflexivity.
  - vm_compute. reflexivity.
  - vm_compute. lia.
  - vm_compute. lia.
  - vm_compute. reflexivity.
  - vm_compute. reflexivity.
  - exists s', l', h'. split; [exact E|]. split; [exact Hl|].
    split; [exact Hh|exact Hlen].
Defined.

(** ** Further examples *)

(** The collector at the manager with body 0 on its garbage list. *)
Lemma garbage_collect_releases_garbage_witness :
  ∃ s', vsp1_dlm_garbage_collect 5 released = Done s' ∧
    dlbs s' !! 0 = None ∧ gc_is s' [].
Proof.
  destruct (garbage_collect_releases_garbage 5 released released_view)
    as (s' & E & _ & Hgc & Hfree & _).
  - wf_by_evaluation.
  - simpl. lia.
  - exists s'. split; [exact E|]. split; [|exact Hgc].
    apply Hfree. by_computation.
Defined.

(** The release of list 0, with its fragment, and the collector. *)
Lemma put_defers_release_of_fragments_witness :
  ∃ s1 s2,
    vsp1_dl_list_put 10 (Some 0) ready = Done s1 ∧
    is_Some (dlbs s1 !! 0) ∧ gc_work s1 = true ∧
    vsp1_dlm_garbage_collect 10 s1 = Done s2 ∧ dlbs s2 !! 0 = None.
Proof.
  destruct (put_defers_release_of_fragments 10 ready prepared_view 0 [1])
    as (s1 & s2 & E1 & Hb & Hw & _ & E2 & _ & Hfree & _).
  - wf_by_evaluation.
  - by_computation.
  - by_computation.
  - simpl. lia.
  - vm_compute. lia.
  - exists s1, s2. split; [exact E1|].
    split; [rewrite Hb; by_computation|].
    split; [apply Hw; exists 0; split; by_computation|].
    split; [exact E2|].
    apply (Hfree 0 0); by_computation.
Defined.

(** The end of the manager with lists 3, 4, 1 and 0 in its pool: list 2,
    which a caller holds, stays allocated. *)
Lemma destroy_releases_pool_and_garbage_witness :
  ∃ s', vsp1_dlm_destroy 10 (Some released) = Done (Some s') ∧
    dls s' !! 3 = None ∧ dlbs s' !! 0 = None ∧
    dls s' !! 2 = dls released !! 2.
Proof.
  destruct (destroy_releases_pool_and_garbage 10 released released_view)
    as (_ & s' & E & _ & _ & _ & Hin & Hout & Hgc & _).
  - wf_by_evaluation.
  - simpl. lia.
  - vm_compute. lia.
  - exists s'. split; [exact E|].
    split; [apply Hin; by_computation|].
    split; [apply Hgc; by_computation|].
    apply Hout. by_computation.
Defined.

(** The reset of the busy manager. *)
Lemma reset_returns_slots_to_pool_witness :
  ∃ s', vsp1_dlm_reset 10 busy = Done s' ∧
    active s' = None ∧ queued s' = None ∧ pending s' = None ∧
    pool_is s' [1; 0; 2; 3].
Proof.
  destruct (reset_returns_slots_to_pool 10 busy busy_view [1] [] [])
    as (s' & E & Ha & Hq & Hp & Hpool & _).
  - wf_by_evaluation.
  - by_computation.
  - by_computation.
  - by_computation.
  - by_computation.
  - simpl. lia.
  - simpl. lia.
  - simpl. lia.
  - exists s'. split; [exact E|]. split; [exact Ha|]. split; [exact Hq|].
    split; [exact Hp|exact Hpool].
Defined.

(** The reset and the end of the running manager. *)
Lemma reset_then_destroy_releases_all_witness :
  ∃ s1 s2,
    vsp1_dlm_reset 10 running = Done s1 ∧
    vsp1_dlm_destroy 10 (Some s1) = Done (Some s2) ∧
    dls s2 = ∅ ∧ dlbs s2 !! 0 = None.
Proof.
  destruct (reset_then_destroy_releases_all 10 running running_view
              [1] [] [])
    as (s1 & s2 & E1 & E2 & Hdls & _ & Hfrag & _).
  - wf_by_evaluation.
  - by_computation.
  - by_computation.
  - by_computation.
  - by_computation.
  - by_computation.
  - simpl. lia.
  - simpl. lia.
  - simpl. lia.
  - vm_compute. lia.
  - vm_compute. lia.
  - exists s1, s2. split; [exact E1|]. split; [exact E2|].
    split; [exact Hdls|].
    apply (Hfrag 0 0); by_computation.
Defined.

(** List 0 is released to a pool that holds lists 3 and 4: the next
    list taken is list 3. *)
Lemma put_then_get_is_fifo_witness :
  ∃ s1 s2,
    vsp1_dl_list_put 10 (Some 0) ready = Done s1 ∧
    vsp1_dl_list_get s1 = Done (Some 3, s2) ∧ pool_is s2 [4; 1; 0].
Proof.
  destruct (put_then_get_is_fifo 10 ready prepared_view 0 [1])
    as (s1 & s2 & d & l & E1 & E2 & Hd & _ & Hpool & _).
  - wf_by_evaluation.
  - by_computation.
  - by_computation.
  - by_computation.
  - simpl. lia.
  - exists s1, s2. split; [exact E1|].
    split; [rewrite E2, Hd; reflexivity|exact Hpool].
Defined.

(** Four calls with two lists in the pool. *)
Lemma get_serves_pool_in_order_witness :
  ∃ s', get_sequence 4 ready = Done ([Some 3; Some 4; None; None], s') ∧
    pool_is s' [].
Proof.
  destruct (get_serves_pool_in_order ready prepared_view 2)
    as (s' & E & _ & Hpool & _).
  - wf_by_evaluation.
  - exists s'. split; [exact E|exact Hpool].
Defined.

(** Two more writes to list 2, which holds one entry. *)
Lemma list_writes_are_appended_witness :
  ∃ s' l',
    write_sequence 2 [(512, 7); (516, 8)]%Z ready = Done s' ∧
    dls s' !! 2 = Some l' ∧ dlb_num_entries (body0 l') = 3%Z ∧
    dlb_entries (body0 l') !! 2%Z = Some (Entry 516 8).
Proof.
  destruct (list_writes_are_appended 2 [(512, 7); (516, 8)]%Z ready
              (list_at ready 2))
    as (s' & l' & E & Hl & Hn & Hw & _).
  - vm_compute. reflexivity.
  - vm_compute. discriminate.
  - vm_compute. discriminate.
  - exists s', l'. split; [exact E|]. split; [exact Hl|].
    split; [exact Hn|]. apply (Hw 1%nat (516, 8)%Z). reflexivity.
Defined.

(** A fragment for two entries, written twice. *)
Lemma fragment_holds_its_writes_witness :
  ∃ b s1 s2 dlb,
    vsp1_dl_fragment_alloc 2 (Some 1048576%Z) ready = (Some b, s1) ∧
    fragment_write_sequence b [(512, 7); (516, 8)]%Z s1 = Done s2 ∧
    dlbs s2 !! b = Some dlb ∧ dlb_num_entries dlb = 2%Z ∧
    dlb_size dlb = 16%Z.
Proof.
  destruct (fragment_holds_its_writes 2 1048576 [(512, 7); (516, 8)]%Z ready)
    as (b & s1 & s2 & dlb & E1 & _ & E2 & Hb & _ & Hs & Hn & _).
  - lia.
  - simpl. lia.
  - exists b, s1, s2, dlb. split; [exact E1|]. split; [exact E2|].
    split; [exact Hb|]. split; [exact Hn|exact Hs].
Defined.

(** A fragment allocated and released at the prepared manager. *)
Lemma fragment_alloc_free_round_trip_witness :
  ∃ b s1,
    vsp1_dl_fragment_alloc 4 (Some 2097152%Z) ready = (Some b, s1) ∧
    vsp1_dl_fragment_free (Some b) s1 = Done ready.
Proof.
  destruct (fragment_alloc_free_round_trip 4 2097152 ready)
    as (_ & _ & b & s1 & E1 & _ & _ & E2 & _).
  - vm_compute. reflexivity.
  - exists b, s1. split; [exact E1|exact E2].
Defined.

(** The commit of list 0 to the headerless manager. *)
Lemma headerless_commit_sets_update_bit_witness :
  ∃ s', vsp1_dl_list_commit (H := example_regs) 10 0 false headerless
        = Done s' ∧
    vsp1_dl_list_hw_update_pending (H := example_regs) s' = true ∧
    vsp1_dlm_irq_frame_end (H := example_regs) 10 s' = Done (0%Z, s').
Proof.
  destruct (headerless_commit_sets_update_bit (H := example_regs) 10
              headerless (View [1] [] (λ _, [])) 0 false
              (list_at headerless 0) [])
    as (s' & E & _ & _ & _ & Hup & Hirq & _).
  - wf_by_evaluation.
  - reflexivity.
  - reflexivity.
  - reflexivity.
  - vm_compute. reflexivity.
  - reflexivity.
  - by_computation.
  - reflexivity.
  - split; reflexivity.
  - simpl. discriminate.
  - vm_compute. lia.
  - simpl. lia.
  - exists s'. split; [exact E|]. split; [exact Hup|exact Hirq].
Defined.

(** A frame end at the manager whose hardware accepted list 2. *)
Lemma frame_end_keeps_pipeline_witness :
  ∃ fl s' v' Ca' Cq' Cp',
    vsp1_dlm_irq_frame_end (H := example_regs) 10 accepted = Done (fl, s') ∧
    pipeline_ok s' v' Ca' Cq' Cp' ∧
    free_pool v' ++ reset_lists s' Ca' Cq' Cp' = [1; 0; 2; 3].
Proof.
  destruct (frame_end_keeps_pipeline (H := example_regs) 10 accepted
              busy_view [1] [] [])
    as (fl & s' & v' & Ca' & Cq' & Cp' & E & Hok & Heq & _).
  - constructor; [wf_by_evaluation|by_computation..].
  - simpl. lia.
  - exists fl, s', v', Ca', Cq', Cp'. split; [exact E|].
    split; [exact Hok|exact Heq].
Defined.

(** List 4 is committed to the busy manager. *)
Lemma commit_keeps_pipeline_witness :
  ∃ s' v' Ca' Cq' Cp',
    vsp1_dl_list_commit (H := example_regs) 10 4 false busy = Done s' ∧
    pipeline_ok s' v' Ca' Cq' Cp'.
Proof.
  destruct (commit_keeps_pipeline (H := example_regs) 10 busy busy_view
              [1] [] [] 4 false [])
    as (s' & v' & Ca' & Cq' & Cp' & E & Hok & _).
  - constructor; [wf_by_evaluation|by_computation..].
  - by_computation.
  - by_computation.
  - by_computation.
  - discriminate.
  - vm_compute. lia.
  - simpl. lia.
  - simpl. lia.
  - simpl. lia.
  - exists s', v', Ca', Cq', Cp'. split; [exact E|exact Hok].
Defined.

(** List 4 is released at the busy manager. *)
Lemma pool_calls_keep_pipeline_witness :
  ∃ s', vsp1_dl_list_put 10 (Some 4) busy = Done s' ∧
    pipeline_ok s' (release_view [4] busy_view) [1] [] [].
Proof.
  destruct (pool_calls_keep_pipeline 10 busy busy_view [1] [] [])
    as (_ & Hput).
  - constructor; [wf_by_evaluation|by_computation..].
  - destruct (Hput 4 []) as (s' & E & Hok & _).
    + by_computation.
    + by_computation.
    + simpl. lia.
    + exists s'. split; [exact E|exact Hok].
Defined.

(** The manager of the examples, before any call. *)
Lemma created_lists_layout_witness :
  size (dls fresh_manager) = 5 ∧
  ∀ d l, dls fresh_manager !! d = Some l →
    dma l = (dlb_dma (body0 l) + 2048)%Z.
Proof.
  destruct (created_lists_layout (Device false ∅) 1 5 true example_mems
              fresh_manager) as [Hsz Hall].
  - vm_compute. reflexivity.
  - split; [exact Hsz|].
    intros d l Hl. destruct (Hall d l Hl) as [(_ & _ & _ & _ & Hlay) _].
    change (mode fresh_manager) with VSP1_DL_MODE_HEADER in Hlay.
    destruct Hlay as (_ & Hdma & _). exact Hdma.
Defined.


(** List 0 is committed with the internal flag to the prepared manager;
    two frame ends follow. *)
Lemma completion_is_reported_once_witness :
  ∃ s2,
    vsp1_dl_list_commit (H := example_regs) 10 0 true ready
      = Done committed ∧
    vsp1_dlm_irq_frame_end (H := example_regs) 10 committed
      = Done (3%Z, s2) ∧
    vsp1_dlm_irq_frame_end (H := example_regs) 10 s2 = Done (0%Z, s2).
Proof.
  destruct (completion_is_reported_once (H := example_regs) 10 ready
              prepared_view 0 true (list_at ready 0) [1] [] (mmio committed))
    as (s1 & E1 & _ & _ & Hend).
  - wf_by_evaluation.
  - reflexivity.
  - reflexivity.
  - reflexivity.
  - by_computation.
  - vm_compute. reflexivity.
  - reflexivity.
  - by_computation.
  - by_computation.
  - vm_compute. lia.
  - simpl. lia.
  - simpl. lia.
  - assert (s1 = committed) as ->.
    { assert (Done s1 = Done committed) as Heq.
      { rewrite <- E1. vm_compute. reflexivity. }
      injection Heq as ->. reflexivity. }
    destruct Hend as (s2 & E2 & _ & _ & _ & _ & _ & E3);
      [vm_compute; reflexivity|].
    exists s2. split; [exact E1|].
    split; [exact E2|exact E3].
Defined.

(** The calls of the example keep the five display lists where they
    were created. *)
Lemma calls_keep_lists_in_place_witness :
  calls (H := example_regs) (H0 := example_setup_regs) 10 example_calls
    fresh_manager = Done after_calls ∧
  mode after_calls = VSP1_DL_MODE_HEADER ∧
  dom (dls after_calls) = dom (dls fresh_manager) ∧
  ∀ d l, dls after_calls !! d = Some l → placed VSP1_DL_MODE_HEADER l.
Proof.
  assert (calls (H := example_regs) (H0 := example_setup_regs) 10
            example_calls fresh_manager = Done after_calls) as E
    by (vm_compute; reflexivity).
  destruct (calls_keep_lists_in_place (H := example_regs)
              (H0 := example_setup_regs) 10 example_calls
              fresh_manager after_calls E)
    as (_ & Hm & _ & Hd & _ & Hp).
  { vm_compute. reflexivity. }
  split; [exact E|]. split; [exact Hm|]. split; [exact Hd|].
  apply Hp. intros d l Hl.
  apply (map_Forall_lookup_1 (λ _ l, placed VSP1_DL_MODE_HEADER l)
           (dls fresh_manager) d l); [|exact Hl].
  apply (bool_decide_unpack _). vm_compute. exact I.
Defined.

